(** * Inventory record-keeper: tabular codec, record mutations and save scheduler

    A shallow embedding of the TypeScript sources

    - the CSV import dialog  ([parseCSV], [handleImport]; second half of
      [src/components/InventoryForm.tsx]),
    - the application component  (the mutation handlers, [handleExportCSV],
      [writeCache], [saveNow], [scheduleSave] and the change effect;
      [unnamed/part_001]),
    - the two item forms  ([handleSubmit] of [InventoryForm] and of
      [QuickAddRow]; [src/components/InventoryForm.tsx], [unnamed/part_000]),
    - the inventory table's quantity callbacks  (second half of
      [src/components/CustomFieldsManager.tsx]),
    - the remote store client  ([ensureUserRow], [saveInventoryData],
      [loadInventoryData]; [src/lib/New Text Document.txt]),

    together with the properties the specification states about them.

    Conventions.

    - A JavaScript string is a [list ascii]: one element per code unit, code
      units ranging over 0..255.  A JavaScript number that holds a quantity
      is a [Z]: the handlers only ever produce integers, which a number
      holds exactly below 2^53.
    - [Date.now()] and [Math.random()] are replaced by arguments: an
      identifier supply for the parser and the import, a time stamp for the
      handlers, a clock field for the cache and the table.
    - The component is a record of its state hooks and refs together with
      the environment it acts on: pending timers, [localStorage], the remote
      table, the requests issued, the toasts.  A callback created by a render
      closes over that render's [user], [items] and [customFields]; the
      functions that model callbacks take this [Render] as an argument, so a
      timer armed by one render runs with that render's snapshot.
    - An [await] splits a function into the part before it and the part
      after it; the remote store's answer is an argument. *)

From Stdlib Require Import ZArith Lia Bool List Ascii String Permutation.
From Stdlib Require Import DecimalString DecimalFacts DecimalPos DecimalN DecimalZ.
From stdpp Require Import gmap strings list fin_maps.
Import ListNotations.

Open Scope Z_scope.
Open Scope list_scope.

(** ** JavaScript strings *)

Abbreviation jstring := (list ascii).

(** String literals of the source, written as Rocq strings. *)
Definition js (s : string) : jstring := list_ascii_of_string s.

Definition chr_quote : ascii := "034"%char.
Definition chr_comma : ascii := ","%char.
Definition chr_newline : ascii := "010"%char.

Definition ascii_eqb (a b : ascii) : bool := Ascii.eqb a b.

Definition jstring_eqb (a b : jstring) : bool :=
  bool_decide (a = b).

(** [WhiteSpace] and [LineTerminator] code units below 256: TAB, LF, VT, FF,
    CR, SP and NBSP.  These are what [String.prototype.trim] strips. *)
Definition is_ws (c : ascii) : bool :=
  let n := nat_of_ascii c in
  ((9 <=? n)%nat && (n <=? 13)%nat) || (n =? 32)%nat || (n =? 160)%nat.

Fixpoint trimStart (s : jstring) : jstring :=
  match s with
  | [] => []
  | c :: r => if is_ws c then trimStart r else s
  end.

Definition trimEnd (s : jstring) : jstring := rev (trimStart (rev s)).

(** [s.trim()] *)
Definition trim (s : jstring) : jstring := trimEnd (trimStart s).

(** Truthiness of a string: the empty string is falsy. *)
Definition truthy (s : jstring) : bool :=
  match s with [] => false | _ => true end.

(** [s.split(sep)] for a one-character separator.  The result is never empty:
    splitting the empty string gives one empty piece. *)
Fixpoint split (sep : ascii) (s : jstring) : list jstring :=
  match s with
  | [] => [[]]
  | c :: r =>
      if ascii_eqb c sep then [] :: split sep r
      else match split sep r with
           | h :: t => (c :: h) :: t
           | [] => [[c]]
           end
  end.

(** [pieces.join(sep)] *)
Fixpoint join (sep : ascii) (pieces : list jstring) : jstring :=
  match pieces with
  | [] => []
  | [p] => p
  | p :: rest => p ++ sep :: join sep rest
  end.

(** ** The import tokenizer ([parseCSV], the [for] loop over [line])

    The loop state is [fields], [current] and [inQuotes]; [tokenize_loop]
    runs the loop body over the remaining characters and finishes with the
    [fields.push(current.trim())] that follows the loop. *)
Fixpoint tokenize_loop (line : jstring) (fields : list jstring)
    (current : jstring) (inQuotes : bool) : list jstring :=
  match line with
  | [] => fields ++ [trim current]
  | char :: rest =>
      if ascii_eqb char chr_quote then
        tokenize_loop rest fields current (negb inQuotes)
      else if ascii_eqb char chr_comma && negb inQuotes then
        tokenize_loop rest (fields ++ [trim current]) [] inQuotes
      else
        tokenize_loop rest fields (current ++ [char]) inQuotes
  end.

Definition tokenize (line : jstring) : list jstring :=
  tokenize_loop line [] [] false.

(** ** Number and text conversions used by the codec *)

(** [s.toLowerCase()] on code units below 256: A..Z and the Latin-1 capitals
    (U+00C0..U+00DE without the multiplication sign U+00D7) move up by 32. *)
Definition lower_char (c : ascii) : ascii :=
  let n := nat_of_ascii c in
  if ((65 <=? n) && (n <=? 90))%nat then ascii_of_nat (n + 32)
  else if ((192 <=? n) && (n <=? 222) && negb (n =? 215))%nat
       then ascii_of_nat (n + 32)
  else c.

Definition toLowerCase (s : jstring) : jstring := map lower_char s.

(** The value of a character as a digit in the given radix, if it is one. *)
Definition digit_val (radix : Z) (c : ascii) : option Z :=
  let n := Z.of_nat (nat_of_ascii c) in
  let d := if (48 <=? n) && (n <=? 57) then Some (n - 48)
           else if (97 <=? n) && (n <=? 122) then Some (n - 87)
           else if (65 <=? n) && (n <=? 90) then Some (n - 55)
           else None in
  match d with
  | Some v => if v <? radix then Some v else None
  | None => None
  end.

(** The longest prefix of digits, accumulated from the left; [None] when
    there is no digit at all. *)
Fixpoint parse_digits (radix : Z) (s : jstring) (acc : option Z) : option Z :=
  match s with
  | [] => acc
  | c :: r =>
      match digit_val radix c with
      | Some d => parse_digits radix r (Some (radix * default 0 acc + d))
      | None => acc
      end
  end.

(** [parseInt(s)] with no radix argument: leading white space, an optional
    sign, an optional [0x]/[0X] prefix that selects radix 16, then digits.
    [None] stands for [NaN]. *)
Definition parseInt (s : jstring) : option Z :=
  let s1 := trimStart s in
  let '(sign, s2) :=
    match s1 with
    | c :: r => if ascii_eqb c "-" then (-1, r)
                else if ascii_eqb c "+" then (1, r)
                else (1, s1)
    | [] => (1, [])
    end in
  let '(radix, s3) :=
    match s2 with
    | z :: x :: r =>
        if ascii_eqb z "0" && (ascii_eqb x "x" || ascii_eqb x "X")
        then (16, r) else (10, s2)
    | _ => (10, s2)
    end in
  option_map (Z.mul sign) (parse_digits radix s3 None).

(** [n || 0] for a number: [NaN] and [0] are falsy. *)
Definition or_zero (n : option Z) : Z := default 0 n.

(** [`${n}`] for an integer. *)
Definition string_of_Z (n : Z) : jstring :=
  list_ascii_of_string (NilZero.string_of_int (Z.to_int n)).

(** [`${b}`] for a boolean. *)
Definition string_of_bool (b : bool) : jstring :=
  if b then js "true" else js "false".

(** ** Record model ([src/types/inventory.ts]) *)

Record SizeVariant := mkVariant {
  v_id : jstring;
  v_size : jstring;
  v_inStock : bool;
  v_quantity : Z;
  v_location : jstring;
}.

Inductive FieldValue :=
| FText (s : jstring)
| FNumber (n : Z).

Inductive FieldType := TextField | NumberField.

Record CustomFieldDefinition := mkFieldDef {
  cf_id : jstring;
  cf_label : jstring;
  cf_type : FieldType;
}.

(** [InventoryFormData = Omit<InventoryItem, 'id'>] *)
Record InventoryFormData := mkFormData {
  fd_sku : jstring;
  fd_title : jstring;
  fd_imageUrl : option jstring;
  fd_variants : list SizeVariant;
  fd_customFields : option (list (jstring * FieldValue));
}.

Record InventoryItem := mkItem {
  it_id : jstring;
  it_sku : jstring;
  it_title : jstring;
  it_imageUrl : option jstring;
  it_variants : list SizeVariant;
  it_customFields : option (list (jstring * FieldValue));
}.

(** ** The import parser ([parseCSV]) *)

(** What the dialog reports.  The source uses the message texts
    'CSV文件为空或格式不正确' (empty or malformed), '未找到有效数据'
    (no valid data) and '请先选择文件' (no file selected). *)
Inductive ImportError :=
| EmptyOrMalformed
| NoValidData
| NoFileSelected.

(** A line written to the console: the warning for a skipped row carries
    [index + 2], where [index] counts the data rows from 0 after the blank
    lines have been filtered away: the row's position among the non-blank
    lines of the file, the header being number 1. *)
Inductive ConsoleLine :=
| WarnRowSkipped (lineNo : nat).

(** [itemsMap], a [Map] from SKU to item: keys in insertion order. *)
Abbreviation ItemsMap := (list (jstring * InventoryFormData)).

Fixpoint map_get (key : jstring) (m : ItemsMap) : option InventoryFormData :=
  match m with
  | [] => None
  | (k, it) :: r => if jstring_eqb k key then Some it else map_get key r
  end.

Definition map_has (key : jstring) (m : ItemsMap) : bool :=
  match map_get key m with Some _ => true | None => false end.

(** [m.set(key, it)]: a present key keeps its position. *)
Fixpoint map_set (key : jstring) (it : InventoryFormData) (m : ItemsMap) : ItemsMap :=
  match m with
  | [] => [(key, it)]
  | (k, old) :: r =>
      if jstring_eqb k key then (k, it) :: r else (k, old) :: map_set key it r
  end.

(** [existingItem.variants.push(v)] for each new variant, on the item object
    that the map holds under [key]. *)
Definition push_variants (it : InventoryFormData) (vs : list SizeVariant) : InventoryFormData :=
  mkFormData (fd_sku it) (fd_title it) (fd_imageUrl it)
             (fd_variants it ++ vs) (fd_customFields it).

Fixpoint map_push (key : jstring) (vs : list SizeVariant) (m : ItemsMap) : ItemsMap :=
  match m with
  | [] => []
  | (k, it) :: r =>
      if jstring_eqb k key then (k, push_variants it vs) :: r
      else (k, it) :: map_push key vs r
  end.

Record ParseState := mkParseState {
  itemsMap : ItemsMap;
  idsUsed : nat;
  console : list ConsoleLine;
}.

Section Codec.

(** The k-th identifier synthesized by [`${Date.now()}-${Math.random()}`]. *)
Variable variantId : nat -> jstring.

(** [sizes.map(size => ({ id, size, inStock, quantity, location }))] *)
Fixpoint make_variants (k : nat) (sizes : list jstring) (inStock : bool)
    (quantity : Z) (location : jstring) : list SizeVariant :=
  match sizes with
  | [] => []
  | size :: r =>
      mkVariant (variantId k) size inStock quantity location
      :: make_variants (S k) r inStock quantity location
  end.

(** The body of [dataLines.forEach((line, index) => ...)].  Nothing in the
    [try] block can throw once [fields] has six entries, so the [catch] is
    not modelled. *)
Definition parseRow (st : ParseState) (index : nat) (line : jstring) : ParseState :=
  let fields := tokenize line in
  if (length fields <? 6)%nat then
    mkParseState (itemsMap st) (idsUsed st)
                 (console st ++ [WarnRowSkipped (index + 2)])
  else
    match fields with
    | sku :: title :: sizeStr :: inStockStr :: quantityStr :: location :: more =>
        let imageUrl := head more in
        let sizes := List.filter truthy (map trim (split chr_comma sizeStr)) in
        let inStock := jstring_eqb (toLowerCase inStockStr) (js "true")
                       || jstring_eqb inStockStr (js "1") in
        let quantity := or_zero (parseInt quantityStr) in
        let skuKey := trim sku in
        let variants := make_variants (idsUsed st) sizes inStock quantity (trim location) in
        let ids := (idsUsed st + length sizes)%nat in
        if map_has skuKey (itemsMap st) then
          mkParseState (map_push skuKey variants (itemsMap st)) ids (console st)
        else
          let newItem :=
            mkFormData skuKey (trim title)
                       (match imageUrl with
                        | Some u => if truthy (trim u) then Some (trim u) else None
                        | None => None
                        end)
                       variants None in
          mkParseState (map_set skuKey newItem (itemsMap st)) ids (console st)
    | _ => st
    end.

Fixpoint parseRows (st : ParseState) (index : nat) (dataLines : list jstring) : ParseState :=
  match dataLines with
  | [] => st
  | line :: r => parseRows (parseRow st index line) (S index) r
  end.

(** [text.split('\n').filter(line => line.trim())] *)
Definition nonblank_lines (text : jstring) : list jstring :=
  List.filter (fun line => truthy (trim line)) (split chr_newline text).

(** The run of the parser: [inl] is the thrown error, [inr] the final loop
    state. *)
Definition parseCSV_run (text : jstring) : ImportError + ParseState :=
  let lines := nonblank_lines text in
  if (length lines <? 2)%nat then inl EmptyOrMalformed
  else inr (parseRows (mkParseState [] 0 []) 0 (tl lines)).

(** [parseCSV(text)]: [Array.from(itemsMap.values())], or the thrown error. *)
Definition parseCSV (text : jstring) : ImportError + list InventoryFormData :=
  match parseCSV_run text with
  | inl e => inl e
  | inr st => inr (map snd (itemsMap st))
  end.

(** What [parseCSV(text)] writes to the console. *)
Definition parseCSV_console (text : jstring) : list ConsoleLine :=
  match parseCSV_run text with
  | inl _ => []
  | inr st => console st
  end.

End Codec.

(** ** The export serializer ([handleExportCSV]) *)

Definition export_headers : jstring :=
  js "SKU,TITLE,SIZE,IN STOCK,QUANTITY,LOCATION,IMAGE_URL".

(** One row per variant:
    [`${item.sku},${item.title},${variant.size},${variant.inStock},${variant.quantity},${variant.location},${item.imageUrl || ""}`] *)
Definition export_row (item : InventoryItem) (variant : SizeVariant) : jstring :=
  it_sku item ++ chr_comma ::
  it_title item ++ chr_comma ::
  v_size variant ++ chr_comma ::
  string_of_bool (v_inStock variant) ++ chr_comma ::
  string_of_Z (v_quantity variant) ++ chr_comma ::
  v_location variant ++ chr_comma ::
  match it_imageUrl item with
  | Some u => if truthy u then u else []
  | None => []
  end.

Definition export_rows (items : list InventoryItem) : list jstring :=
  flat_map (fun item => map (export_row item) (it_variants item)) items.

(** [csvContent], or [None] when the handler returns early because there is
    nothing to export. *)
Definition exportCSV (items : list InventoryItem) : option jstring :=
  match items with
  | [] => None
  | _ => Some (join chr_newline (export_headers :: export_rows items))
  end.

(** ** Application state ([App]) *)

Inductive ToastTitle :=
| SaveFailed        (* 保存失败 *)
| LoadFailed        (* 加载失败 *)
| AddSucceeded      (* 添加成功 *)
| UpdateSucceeded   (* 更新成功 *)
| DeleteSucceeded   (* 删除成功 *)
| CannotDelete      (* 无法删除 *)
| ImportSucceeded   (* 导入成功 *)
| NoData            (* 无数据 *)
| ExportSucceeded.  (* 导出成功 *)

Inductive ToastVariant := DefaultToast | Destructive.

(** A toast, without its description text. *)
Record Toast := mkToast {
  toast_title : ToastTitle;
  toast_variant : ToastVariant;
}.

(** What the callbacks of one render close over: [user?.id], [items] and
    [customFields] as they were when the component function ran. *)
Record Render := mkRender {
  r_user : option jstring;
  r_items : list InventoryItem;
  r_customFields : list CustomFieldDefinition;
}.

Inductive SaveReason :=
| Debounced | Visibility | BeforeUnload
| ReasonAddItem | ReasonEditItem | ReasonDeleteItem
| ReasonAddVariant | ReasonDeleteVariant | ReasonCsvImport
| ReasonCustomFieldsClose | ReasonCustomFieldsUpdate.

(** A pending [setTimeout(() => void saveNow(reason), ms)]: the [saveNow] it
    calls is the one of the render that armed it. *)
Record TimerCallback := mkCallback {
  cb_closure : Render;
  cb_reason : SaveReason;
  cb_delay : nat;
}.

Record CacheSnapshot := mkCache {
  cache_inventory : list InventoryItem;
  cache_custom_fields : list CustomFieldDefinition;
  cached_at : nat;
}.

(** A row of the table [inventory_data], keyed by [user_id]. *)
Record Row := mkRow {
  row_inventory : list InventoryItem;
  row_custom_fields : list CustomFieldDefinition;
  row_updated_at : nat;
}.

(** A [saveInventoryData(userId, inventory, customFields)] request. *)
Record SaveCall := mkSaveCall {
  call_user : jstring;
  call_inventory : list InventoryItem;
  call_custom_fields : list CustomFieldDefinition;
}.

(** How the remote store answers a request. *)
Inductive RemoteOutcome :=
| RemoteOk
| RemoteError (message : jstring).

(** The browser and the network around the component. *)
Record Env := mkEnv {
  timers : list (positive * TimerCallback);
  nextHandle : positive;
  localStorage : gmap jstring CacheSnapshot;
  storageFails : bool;
  remoteTable : gmap jstring Row;
  remoteCalls : list SaveCall;
  toasts : list Toast;
  clock : nat;
}.

(** The component's state hooks and refs. *)
Record App := mkApp {
  user : option jstring;
  items : list InventoryItem;
  customFields : list CustomFieldDefinition;
  editingItem : option InventoryItem;
  isSaving : bool;
  hasLoadedRef : bool;
  dirtyRef : bool;
  saveTimerRef : option positive;
  env : Env;
}.

Definition set_items (f : list InventoryItem -> list InventoryItem) (s : App) : App :=
  mkApp (user s) (f (items s)) (customFields s) (editingItem s) (isSaving s)
        (hasLoadedRef s) (dirtyRef s) (saveTimerRef s) (env s).

Definition set_customFields (next : list CustomFieldDefinition) (s : App) : App :=
  mkApp (user s) (items s) next (editingItem s) (isSaving s)
        (hasLoadedRef s) (dirtyRef s) (saveTimerRef s) (env s).

Definition set_editingItem (e : option InventoryItem) (s : App) : App :=
  mkApp (user s) (items s) (customFields s) e (isSaving s)
        (hasLoadedRef s) (dirtyRef s) (saveTimerRef s) (env s).

Definition set_isSaving (b : bool) (s : App) : App :=
  mkApp (user s) (items s) (customFields s) (editingItem s) b
        (hasLoadedRef s) (dirtyRef s) (saveTimerRef s) (env s).

Definition set_dirtyRef (b : bool) (s : App) : App :=
  mkApp (user s) (items s) (customFields s) (editingItem s) (isSaving s)
        (hasLoadedRef s) b (saveTimerRef s) (env s).

Definition set_saveTimerRef (h : option positive) (s : App) : App :=
  mkApp (user s) (items s) (customFields s) (editingItem s) (isSaving s)
        (hasLoadedRef s) (dirtyRef s) h (env s).

Definition set_env (f : Env -> Env) (s : App) : App :=
  mkApp (user s) (items s) (customFields s) (editingItem s) (isSaving s)
        (hasLoadedRef s) (dirtyRef s) (saveTimerRef s) (f (env s)).

(** [toast({ title, variant })] *)
Definition toast (t : Toast) (s : App) : App :=
  set_env (fun e => mkEnv (timers e) (nextHandle e) (localStorage e) (storageFails e)
                          (remoteTable e) (remoteCalls e) (toasts e ++ [t]) (clock e)) s.

(** [window.setTimeout(cb, ms)]: the new handle, and the callback pending. *)
Definition setTimeout (cb : TimerCallback) (s : App) : positive * App :=
  let h := nextHandle (env s) in
  (h, set_env (fun e => mkEnv (timers e ++ [(h, cb)]) (Pos.succ (nextHandle e))
                              (localStorage e) (storageFails e)
                              (remoteTable e) (remoteCalls e) (toasts e) (clock e)) s).

(** [window.clearTimeout(h)] *)
Definition clearTimeout (h : positive) (s : App) : App :=
  set_env (fun e => mkEnv (List.filter (fun t => negb (Pos.eqb (fst t) h)) (timers e))
                          (nextHandle e) (localStorage e) (storageFails e)
                          (remoteTable e) (remoteCalls e) (toasts e) (clock e)) s.

(** [!user?.id] is false: there is a user and the id is not empty. *)
Definition has_user (u : option jstring) : bool :=
  match u with
  | Some id => truthy id
  | None => false
  end.

Definition render (s : App) : Render :=
  mkRender (user s) (items s) (customFields s).

(** ** The remote store client ([src/lib/inventoryApi.ts]) *)

Record UpsertOptions := mkUpsertOptions {
  onConflict : jstring;
  ignoreDuplicates : bool;
}.

(** Modelled from the spec: the table's [upsert] is the remote store's, not
    part of the sources.  Section 6 gives its contract: with conflict target
    = identity, an upsert inserts the row when the identity has none; when it
    has one, "ignore if a row already exists" leaves the stored row alone,
    and otherwise the stored row is overwritten with the given values.  The
    table is keyed by the conflict target of both callers, [user_id]. *)
Definition upsert (userId : jstring) (row : Row) (opts : UpsertOptions)
    (tbl : gmap jstring Row) : option jstring * gmap jstring Row :=
  match tbl !! userId with
  | None => (None, <[userId := row]> tbl)
  | Some _ =>
      if ignoreDuplicates opts then (None, tbl)
      else (None, <[userId := row]> tbl)
  end.

(** A request that does not reach the store changes nothing and reports the
    error; one that does is the upsert. *)
Definition request (outcome : RemoteOutcome) (userId : jstring) (row : Row)
    (opts : UpsertOptions) (tbl : gmap jstring Row) : option jstring * gmap jstring Row :=
  match outcome with
  | RemoteError message => (Some message, tbl)
  | RemoteOk => upsert userId row opts tbl
  end.

(** [ensureUserRow(userId)]: the first component is the thrown error. *)
Definition ensureUserRow (now : nat) (outcome : RemoteOutcome) (userId : jstring)
    (tbl : gmap jstring Row) : option jstring * gmap jstring Row :=
  request outcome userId (mkRow [] [] now) (mkUpsertOptions (js "user_id") true) tbl.

(** [saveInventoryData(userId, inventory, customFields)] *)
Definition saveInventoryData (now : nat) (outcome : RemoteOutcome) (userId : jstring)
    (inventory : list InventoryItem) (fields : list CustomFieldDefinition)
    (tbl : gmap jstring Row) : option jstring * gmap jstring Row :=
  request outcome userId (mkRow inventory fields now) (mkUpsertOptions (js "user_id") false) tbl.

(** [InventoryData], what a load returns; [updated_at] may be [null]. *)
Record InventoryData := mkInventoryData {
  data_inventory : list InventoryItem;
  data_custom_fields : list CustomFieldDefinition;
  data_updated_at : option nat;
}.

(** [loadInventoryData(userId)]: the thrown error, or the row's contents
    (empty when there is no row). *)
Definition loadInventoryData (outcome : RemoteOutcome) (userId : jstring)
    (tbl : gmap jstring Row) : jstring + InventoryData :=
  match outcome with
  | RemoteError message => inl message
  | RemoteOk =>
      match tbl !! userId with
      | None => inr (mkInventoryData [] [] None)
      | Some row =>
          inr (mkInventoryData (row_inventory row) (row_custom_fields row)
                               (Some (row_updated_at row)))
      end
  end.

(** ** Local cache store ([writeCache], [readCache]) *)

Definition storageKey (u : option jstring) : jstring :=
  match u with
  | Some id => if truthy id then js "inventory_cache_" ++ id
               else js "inventory_cache_guest"
  | None => js "inventory_cache_guest"
  end.

(** [writeCache(nextItems, nextFields)], as created by the render [c].  A
    failing [localStorage.setItem] is swallowed. *)
Definition writeCache (c : Render) (nextItems : list InventoryItem)
    (nextFields : list CustomFieldDefinition) (s : App) : App :=
  if negb (has_user (r_user c)) then s
  else if storageFails (env s) then s
  else set_env (fun e =>
         mkEnv (timers e) (nextHandle e)
               (<[storageKey (r_user c) := mkCache nextItems nextFields (clock e)]>
                  (localStorage e))
               (storageFails e) (remoteTable e) (remoteCalls e) (toasts e) (clock e)) s.

Definition readCache (c : Render) (s : App) : option CacheSnapshot :=
  if negb (has_user (r_user c)) then None
  else localStorage (env s) !! storageKey (r_user c).

(** ** Save scheduler ([saveNow], [scheduleSave]) *)

(** [saveNow(reason)] up to its [await]: the two guards, the timer cleared,
    [setIsSaving(true)], and the request issued with the [items] and
    [customFields] of the render [c] that created this [saveNow].  The second
    component is the request, if one was issued. *)
Definition saveNow_begin (c : Render) (s : App) : App * option SaveCall :=
  match r_user c with
  | Some uid =>
      if negb (truthy uid) || negb (hasLoadedRef s) then (s, None)
      else if negb (dirtyRef s) then (s, None)
      else
        let s1 := match saveTimerRef s with
                  | Some h => set_saveTimerRef None (clearTimeout h s)
                  | None => s
                  end in
        let call := mkSaveCall uid (r_items c) (r_customFields c) in
        let s2 := set_isSaving true s1 in
        (set_env (fun e => mkEnv (timers e) (nextHandle e) (localStorage e)
                                 (storageFails e) (remoteTable e)
                                 (remoteCalls e ++ [call]) (toasts e) (clock e)) s2,
         Some call)
  | None => (s, None)
  end.

(** The remote store handles the request. *)
Definition deliver (outcome : RemoteOutcome) (call : SaveCall) (s : App) : option jstring * App :=
  let '(err, tbl) := saveInventoryData (clock (env s)) outcome (call_user call)
                       (call_inventory call) (call_custom_fields call)
                       (remoteTable (env s)) in
  (err, set_env (fun e => mkEnv (timers e) (nextHandle e) (localStorage e)
                                (storageFails e) tbl (remoteCalls e) (toasts e) (clock e)) s).

(** [saveNow] after its [await]: [dirtyRef.current = false] on success, the
    destructive toast in the [catch], [setIsSaving(false)] in the [finally]. *)
Definition saveNow_end (err : option jstring) (s : App) : App :=
  match err with
  | None => set_isSaving false (set_dirtyRef false s)
  | Some _ => set_isSaving false (toast (mkToast SaveFailed Destructive) s)
  end.

(** A whole [saveNow] call, when nothing else runs during the [await]. *)
Definition saveNow (c : Render) (outcome : RemoteOutcome) (s : App) : App :=
  match saveNow_begin c s with
  | (s1, Some call) =>
      let '(err, s2) := deliver outcome call s1 in saveNow_end err s2
  | (s1, None) => s1
  end.

(** [scheduleSave(ms)], as created by the render [c]. *)
Definition scheduleSave (c : Render) (ms : nat) (s : App) : App :=
  if negb (has_user (r_user c)) || negb (hasLoadedRef s) then s
  else
    let s1 := set_dirtyRef true s in
    let s2 := match saveTimerRef s1 with
              | Some h => clearTimeout h s1
              | None => s1
              end in
    let '(h, s3) := setTimeout (mkCallback c Debounced ms) s2 in
    set_saveTimerRef (Some h) s3.

(** [setTimeout(() => void saveNow(reason), 0)] in a handler of render [c]. *)
Definition saveSoon (c : Render) (reason : SaveReason) (s : App) : App :=
  snd (setTimeout (mkCallback c reason 0) s).

Fixpoint timer_lookup (h : positive) (ts : list (positive * TimerCallback)) : option TimerCallback :=
  match ts with
  | [] => None
  | (k, cb) :: r => if Pos.eqb k h then Some cb else timer_lookup h r
  end.

(** The timer [h] expires: it leaves the pending list and its callback runs
    [saveNow]. *)
Definition fireTimer (h : positive) (outcome : RemoteOutcome) (s : App) : App :=
  match timer_lookup h (timers (env s)) with
  | Some cb => saveNow (cb_closure cb) outcome (clearTimeout h s)
  | None => s
  end.

(** The effect on [items, customFields]: it runs after each render in which
    they changed, with that render's [writeCache] and [scheduleSave]. *)
Definition changeEffect (s : App) : App :=
  if negb (has_user (user s)) || negb (hasLoadedRef s) then s
  else scheduleSave (render s) 300
         (writeCache (render s) (items s) (customFields s) s).

(** The [visibilitychange] (to hidden) and [beforeunload] listeners. *)
Definition flushNow (outcome : RemoteOutcome) (s : App) : App :=
  saveNow (render s) outcome s.

(** ** Record mutations (the handlers of [App]) *)

Definition with_variants (item : InventoryItem) (vs : list SizeVariant) : InventoryItem :=
  mkItem (it_id item) (it_sku item) (it_title item) (it_imageUrl item) vs
         (it_customFields item).

(** [handleAddItem(data)]; [now] is [Date.now().toString()]. *)
Definition addItem_new (now : jstring) (data : InventoryFormData) : InventoryItem :=
  mkItem now (fd_sku data) (fd_title data) (fd_imageUrl data) (fd_variants data)
         (Some (default [] (fd_customFields data))).

Definition handleAddItem (now : jstring) (data : InventoryFormData) (s : App) : App :=
  let c := render s in
  let s1 := set_items (fun prev => prev ++ [addItem_new now data]) s in
  let s2 := toast (mkToast AddSucceeded DefaultToast) s1 in
  saveSoon c ReasonAddItem s2.

(** [{ ...it, ...data }]: [data] always carries [sku], [title], [imageUrl]
    and [variants]; [customFields] only when the form set it. *)
Definition merge_data (it : InventoryItem) (data : InventoryFormData) : InventoryItem :=
  mkItem (it_id it) (fd_sku data) (fd_title data) (fd_imageUrl data) (fd_variants data)
         (match fd_customFields data with
          | Some cf => Some cf
          | None => it_customFields it
          end).

Definition handleEditItem (data : InventoryFormData) (s : App) : App :=
  match editingItem s with
  | None => s
  | Some editing =>
      let c := render s in
      let s1 := set_items (map (fun it =>
                   if jstring_eqb (it_id it) (it_id editing) then merge_data it data else it)) s in
      let s2 := toast (mkToast UpdateSucceeded DefaultToast) s1 in
      let s3 := set_editingItem None s2 in
      saveSoon c ReasonEditItem s3
  end.

Definition handleDeleteItem (id : jstring) (s : App) : App :=
  let c := render s in
  let s1 := set_items (List.filter (fun x => negb (jstring_eqb (it_id x) id))) s in
  let s2 := toast (mkToast DeleteSucceeded Destructive) s1 in
  saveSoon c ReasonDeleteItem s2.

Definition handleImageUpload (itemId imageUrl : jstring) (s : App) : App :=
  let c := render s in
  let s1 := set_items (map (fun it =>
               if jstring_eqb (it_id it) itemId
               then mkItem (it_id it) (it_sku it) (it_title it) (Some imageUrl)
                           (it_variants it) (it_customFields it)
               else it)) s in
  scheduleSave c 300 s1.

(** The updater of [handleUpdateQuantity], with [quantity] already clamped. *)
Definition updateQuantity (itemId variantId : jstring) (quantity : Z)
    (prev : list InventoryItem) : list InventoryItem :=
  map (fun item =>
         if negb (jstring_eqb (it_id item) itemId) then item
         else with_variants item
                (map (fun v =>
                        if jstring_eqb (v_id v) variantId
                        then mkVariant (v_id v) (v_size v) (0 <? quantity) quantity (v_location v)
                        else v)
                     (it_variants item)))
      prev.

Definition handleUpdateQuantity (itemId variantId : jstring) (newQuantity : Z) (s : App) : App :=
  let c := render s in
  let quantity := Z.max 0 newQuantity in
  let s1 := set_items (updateQuantity itemId variantId quantity) s in
  scheduleSave c 250 s1.

(** [handleQuantityChange] of the table: the +1 and -1 buttons. *)
Definition handleQuantityChange (itemId variantId : jstring) (delta currentQuantity : Z)
    (s : App) : App :=
  handleUpdateQuantity itemId variantId (currentQuantity + delta) s.

(** [finishEditingQuantity] of the table: the typed value. *)
Definition finishEditingQuantity (itemId variantId tempQuantity : jstring) (s : App) : App :=
  handleUpdateQuantity itemId variantId (or_zero (parseInt tempQuantity)) s.

Definition updateLocation (itemId variantId newLocation : jstring)
    (prev : list InventoryItem) : list InventoryItem :=
  map (fun item =>
         if negb (jstring_eqb (it_id item) itemId) then item
         else with_variants item
                (map (fun v =>
                        if jstring_eqb (v_id v) variantId
                        then mkVariant (v_id v) (v_size v) (v_inStock v) (v_quantity v) newLocation
                        else v)
                     (it_variants item)))
      prev.

Definition handleUpdateLocation (itemId variantId newLocation : jstring) (s : App) : App :=
  let c := render s in
  scheduleSave c 250 (set_items (updateLocation itemId variantId newLocation) s).

Definition updateSKU (itemId newSKU : jstring) (prev : list InventoryItem) : list InventoryItem :=
  map (fun it =>
         if jstring_eqb (it_id it) itemId
         then mkItem (it_id it) newSKU (it_title it) (it_imageUrl it) (it_variants it)
                     (it_customFields it)
         else it) prev.

Definition handleUpdateSKU (itemId newSKU : jstring) (s : App) : App :=
  let c := render s in
  scheduleSave c 250 (set_items (updateSKU itemId newSKU) s).

Definition updateTitle (itemId newTitle : jstring) (prev : list InventoryItem) : list InventoryItem :=
  map (fun it =>
         if jstring_eqb (it_id it) itemId
         then mkItem (it_id it) (it_sku it) newTitle (it_imageUrl it) (it_variants it)
                     (it_customFields it)
         else it) prev.

Definition handleUpdateTitle (itemId newTitle : jstring) (s : App) : App :=
  let c := render s in
  scheduleSave c 250 (set_items (updateTitle itemId newTitle) s).

(** The updater of [handleAddVariant]; [now] is [Date.now()] as text. *)
Definition addVariant (now itemId size : jstring) (prev : list InventoryItem) : list InventoryItem :=
  map (fun item =>
         if negb (jstring_eqb (it_id item) itemId) then item
         else with_variants item
                (it_variants item ++ [mkVariant (itemId ++ js "-" ++ now) size false 0 []]))
      prev.

Definition handleAddVariant (now itemId size : jstring) (s : App) : App :=
  let c := render s in
  let s1 := set_items (addVariant now itemId size) s in
  let s2 := toast (mkToast AddSucceeded DefaultToast) s1 in
  saveSoon c ReasonAddVariant s2.

(** The callback that [handleDeleteVariant] maps over the items. *)
Definition deleteVariant_item (itemId variantId : jstring) (item : InventoryItem) : InventoryItem :=
  if negb (jstring_eqb (it_id item) itemId) then item
  else if (length (it_variants item) <=? 1)%nat then item
  else with_variants item
         (List.filter (fun v => negb (jstring_eqb (v_id v) variantId)) (it_variants item)).

(** The toast that callback raises for an item, if any. *)
Definition deleteVariant_toast (itemId : jstring) (item : InventoryItem) : list Toast :=
  if negb (jstring_eqb (it_id item) itemId) then []
  else if (length (it_variants item) <=? 1)%nat then [mkToast CannotDelete Destructive]
  else [mkToast DeleteSucceeded DefaultToast].

Definition deleteVariant (itemId variantId : jstring) (prev : list InventoryItem) : list InventoryItem :=
  map (deleteVariant_item itemId variantId) prev.

Definition handleDeleteVariant (itemId variantId : jstring) (s : App) : App :=
  let c := render s in
  let raised := flat_map (deleteVariant_toast itemId) (items s) in
  let s1 := set_items (deleteVariant itemId variantId) s in
  let s2 := fold_left (fun acc t => toast t acc) raised s1 in
  saveSoon c ReasonDeleteVariant s2.

(** [importedItems.map((item, index) => ({ ...item, id }))]; [importId index]
    is the synthesized [`${Date.now()}-${index}-${...}`]. *)
Fixpoint assign_ids (importId : nat -> jstring) (index : nat)
    (imported : list InventoryFormData) : list InventoryItem :=
  match imported with
  | [] => []
  | item :: r =>
      mkItem (importId index) (fd_sku item) (fd_title item) (fd_imageUrl item)
             (fd_variants item) (fd_customFields item)
      :: assign_ids importId (S index) r
  end.

Definition handleCSVImport (importId : nat -> jstring) (importedItems : list InventoryFormData)
    (s : App) : App :=
  let c := render s in
  let newItems := assign_ids importId 0 importedItems in
  let s1 := set_items (fun prev => prev ++ newItems) s in
  let s2 := toast (mkToast ImportSucceeded DefaultToast) s1 in
  saveSoon c ReasonCsvImport s2.

(** ** The item forms ([handleSubmit] of [InventoryForm] and [QuickAddRow]) *)

Record VariantFormData := mkVariantForm {
  vf_size : jstring;
  vf_inStock : bool;
  vf_quantity : Z;
  vf_location : jstring;
}.

(** [validVariants.map((v, index) => ({ id: editingItem?.variants[index]?.id
    || `${Date.now()}-${index}`, ... }))] *)
Fixpoint form_variants (now : jstring) (editing : option InventoryItem) (index : nat)
    (valid : list VariantFormData) : list SizeVariant :=
  match valid with
  | [] => []
  | v :: r =>
      let kept := match editing with
                  | Some e => match nth_error (it_variants e) index with
                              | Some old => if truthy (v_id old) then Some (v_id old) else None
                              | None => None
                              end
                  | None => None
                  end in
      mkVariant (default (now ++ js "-" ++ string_of_Z (Z.of_nat index)) kept)
                (vf_size v) (vf_inStock v) (vf_quantity v) (vf_location v)
      :: form_variants now editing (S index) r
  end.

(** [InventoryForm.handleSubmit]: [None] when the form returns without
    calling [onSubmit]. *)
Definition InventoryForm_handleSubmit (now : jstring) (editing : option InventoryItem)
    (sku title imageUrl : jstring) (variants : list VariantFormData)
    : option InventoryFormData :=
  let validVariants :=
    List.filter (fun v => negb (jstring_eqb (trim (vf_size v)) [])) variants in
  if (length validVariants =? 0)%nat then None
  else Some (mkFormData sku title (if truthy imageUrl then Some imageUrl else None)
                        (form_variants now editing 0 validVariants) None).

Record QuickSize := mkQuickSize {
  qs_size : jstring;
  qs_quantity : jstring;
  qs_location : jstring;
}.

(** [validSizes.map((s, index) => ({ id: `temp-${index}`, ... }))] *)
Fixpoint quick_variants (index : nat) (valid : list QuickSize) : list SizeVariant :=
  match valid with
  | [] => []
  | s :: r =>
      mkVariant (js "temp-" ++ string_of_Z (Z.of_nat index))
                (trim (qs_size s))
                (0 <? or_zero (parseInt (qs_quantity s)))
                (or_zero (parseInt (qs_quantity s)))
                (trim (qs_location s))
      :: quick_variants (S index) r
  end.

(** [QuickAddRow.handleSubmit]: [None] on each of the three validation
    errors. *)
Definition QuickAddRow_handleSubmit (sku title imageUrl : jstring) (sizes : list QuickSize)
    (customFieldValues : list (jstring * FieldValue)) : option InventoryFormData :=
  if negb (truthy (trim sku)) then None
  else if negb (truthy (trim title)) then None
  else
    let validSizes := List.filter (fun s => truthy (trim (qs_size s))) sizes in
    if (length validSizes =? 0)%nat then None
    else Some (mkFormData (trim sku) (trim title)
                          (if truthy imageUrl then Some imageUrl else None)
                          (quick_variants 0 validSizes) (Some customFieldValues)).

(** ** The import dialog ([handleImport]) *)

Record Dialog := mkDialog {
  selectedFile : option jstring;   (* the text of the chosen file *)
  error : option ImportError;
  isOpen : bool;
}.

Section ImportDialog.

Variable variantId : nat -> jstring.
Variable importId : nat -> jstring.

(** [handleImport]: the dialog afterwards, and the application afterwards
    ([onImport] is [handleCSVImport]). *)
Definition handleImport (d : Dialog) (s : App) : Dialog * App :=
  match selectedFile d with
  | None => (mkDialog (selectedFile d) (Some NoFileSelected) (isOpen d), s)
  | Some text =>
      match parseCSV variantId text with
      | inl e => (mkDialog (selectedFile d) (Some e) (isOpen d), s)
      | inr items =>
          if (length items =? 0)%nat
          then (mkDialog (selectedFile d) (Some NoValidData) (isOpen d), s)
          else (mkDialog None None false, handleCSVImport importId items s)
      end
  end.

End ImportDialog.

(** ** Public operations on the inventory *)

(** The operations a user can perform on the item list, with the inputs the
    forms and the table pass on. *)
Inductive Op :=
| OpFormSubmit (formNow itemNow sku title imageUrl : jstring)
               (variants : list VariantFormData)
| OpQuickAdd (itemNow sku title imageUrl : jstring) (sizes : list QuickSize)
             (values : list (jstring * FieldValue))
| OpDeleteItem (id : jstring)
| OpImageUpload (itemId imageUrl : jstring)
| OpUpdateQuantity (itemId variantId : jstring) (newQuantity : Z)
| OpUpdateLocation (itemId variantId newLocation : jstring)
| OpUpdateSKU (itemId newSKU : jstring)
| OpUpdateTitle (itemId newTitle : jstring)
| OpAddVariant (now itemId size : jstring)
| OpDeleteVariant (itemId variantId : jstring).

(** The handler an operation reaches, followed by the change effect of the
    render that the state update causes.  The form submits to
    [handleEditItem] while an item is being edited and to [handleAddItem]
    otherwise; [formNow] and [itemNow] are the readings of [Date.now()] in
    the form and in [handleAddItem]. *)
Definition run_op (op : Op) (s : App) : App :=
  match op with
  | OpFormSubmit formNow itemNow sku title imageUrl variants =>
      match InventoryForm_handleSubmit formNow (editingItem s) sku title imageUrl variants with
      | Some data =>
          match editingItem s with
          | Some _ => changeEffect (handleEditItem data s)
          | None => changeEffect (handleAddItem itemNow data s)
          end
      | None => s
      end
  | OpQuickAdd itemNow sku title imageUrl sizes values =>
      match QuickAddRow_handleSubmit sku title imageUrl sizes values with
      | Some data => changeEffect (handleAddItem itemNow data s)
      | None => s
      end
  | OpDeleteItem id => changeEffect (handleDeleteItem id s)
  | OpImageUpload itemId imageUrl => changeEffect (handleImageUpload itemId imageUrl s)
  | OpUpdateQuantity itemId variantId q => changeEffect (handleUpdateQuantity itemId variantId q s)
  | OpUpdateLocation itemId variantId l => changeEffect (handleUpdateLocation itemId variantId l s)
  | OpUpdateSKU itemId sku => changeEffect (handleUpdateSKU itemId sku s)
  | OpUpdateTitle itemId title => changeEffect (handleUpdateTitle itemId title s)
  | OpAddVariant now itemId size => changeEffect (handleAddVariant now itemId size s)
  | OpDeleteVariant itemId variantId => changeEffect (handleDeleteVariant itemId variantId s)
  end.

(** The mutations that only go through the debounced scheduler. *)
Definition is_debounced (op : Op) : bool :=
  match op with
  | OpImageUpload _ _ | OpUpdateQuantity _ _ _ | OpUpdateLocation _ _ _
  | OpUpdateSKU _ _ | OpUpdateTitle _ _ => true
  | _ => false
  end.

(** [onUpdateFields] of the custom-field manager, as wired in [App]. *)
Definition handleUpdateFields (next : list CustomFieldDefinition) (s : App) : App :=
  let c := render s in
  saveSoon c ReasonCustomFieldsUpdate (set_customFields next s).

(** The signed-out branch of the [onAuthStateChange] listener. *)
Definition handleSignedOut (s : App) : App :=
  mkApp None [] [] (editingItem s) (isSaving s) false false (saveTimerRef s) (env s).

(** ** Events *)

(** What can happen to the running component between two renders: a user
    operation, an import through the dialog, a change of the custom fields,
    the expiry of a pending timer, or a flush signal from the host. *)
Inductive Event :=
| EvOp (op : Op)
| EvImport (variantId importId : nat -> jstring) (d : Dialog)
| EvUpdateFields (next : list CustomFieldDefinition)
| EvTimer (h : positive) (outcome : RemoteOutcome)
| EvFlush (outcome : RemoteOutcome).

Definition run_event (ev : Event) (s : App) : App :=
  match ev with
  | EvOp op => run_op op s
  | EvImport variantId importId d =>
      let s' := snd (handleImport variantId importId d s) in
      match error (fst (handleImport variantId importId d s)) with
      | Some _ => s'
      | None => changeEffect s'
      end
  | EvUpdateFields next => changeEffect (handleUpdateFields next s)
  | EvTimer h outcome => fireTimer h outcome s
  | EvFlush outcome => flushNow outcome s
  end.

Definition run_events (evs : list Event) (s : App) : App :=
  fold_left (fun acc ev => run_event ev acc) evs s.

(** A burst of operations, with no timer expiring in between. *)
Definition run_ops (ops : list Op) (s : App) : App :=
  fold_left (fun acc op => run_op op acc) ops s.

(** [ensureUserRow] called once per element of [calls], in order: each call
    has its own clock reading and its own answer from the store. *)
Fixpoint ensure_many (calls : list (nat * RemoteOutcome)) (userId : jstring)
    (tbl : gmap jstring Row) : gmap jstring Row :=
  match calls with
  | [] => tbl
  | (now, outcome) :: r =>
      ensure_many r userId (snd (ensureUserRow now outcome userId tbl))
  end.

(** What the save scheduler and the remote store hold: the three refs, the
    requests issued so far and the table. *)
Definition sched_view (s : App)
    : bool * bool * option positive * list SaveCall * gmap jstring Row :=
  (hasLoadedRef s, dirtyRef s, saveTimerRef s, remoteCalls (env s), remoteTable (env s)).

(** Every pending timer is the debounce timer that [saveTimerRef] holds:
    no immediate save of a key mutation is waiting. *)
Definition timers_wf (s : App) : Prop :=
  forall h cb, In (h, cb) (timers (env s)) -> saveTimerRef s = Some h.

(** The state update of a debounced operation on the item list. *)
Definition op_items (op : Op) (prev : list InventoryItem) : list InventoryItem :=
  match op with
  | OpImageUpload itemId imageUrl =>
      map (fun it =>
             if jstring_eqb (it_id it) itemId
             then mkItem (it_id it) (it_sku it) (it_title it) (Some imageUrl)
                         (it_variants it) (it_customFields it)
             else it) prev
  | OpUpdateQuantity itemId variantId q => updateQuantity itemId variantId (Z.max 0 q) prev
  | OpUpdateLocation itemId variantId l => updateLocation itemId variantId l prev
  | OpUpdateSKU itemId sku => updateSKU itemId sku prev
  | OpUpdateTitle itemId title => updateTitle itemId title prev
  | _ => prev
  end.

(** The debounce timer is armed for the current snapshot: the user's data
    is loaded and marked dirty, and the only pending timer is the one in
    [saveTimerRef], created by the current render. *)
Definition armed (uid : jstring) (s : App) : Prop :=
  user s = Some uid /\
  hasLoadedRef s = true /\
  dirtyRef s = true /\
  exists h, saveTimerRef s = Some h /\
            timers (env s) = [(h, mkCallback (render s) Debounced 300)].

(** ** The variant floor *)

Definition variant_floor (inventory : list InventoryItem) : Prop :=
  Forall (fun it => it_variants it <> []) inventory.

Definition distinct_variant_ids (inventory : list InventoryItem) : Prop :=
  Forall (fun it => NoDup (map v_id (it_variants it))) inventory.

(** ** Export followed by import *)

(** What the round trip is about: one tuple per variant. *)
Abbreviation VariantTuple := (jstring * jstring * Z * jstring * bool)%type.

Definition variant_tuple (sku : jstring) (v : SizeVariant) : VariantTuple :=
  (sku, v_size v, v_quantity v, v_location v, v_inStock v).

Definition inventory_tuples (inventory : list InventoryItem) : list VariantTuple :=
  flat_map (fun it => map (variant_tuple (it_sku it)) (it_variants it)) inventory.

Definition imported_tuples (imported : list InventoryFormData) : list VariantTuple :=
  flat_map (fun d => map (variant_tuple (fd_sku d)) (fd_variants d)) imported.

(** A field that the tokenizer and the line splitter read back as written:
    no comma, no double quote, no line feed. *)
Definition plain_char (c : ascii) : bool :=
  negb (ascii_eqb c chr_comma) && negb (ascii_eqb c chr_quote)
  && negb (ascii_eqb c chr_newline).

Definition plain (s : jstring) : bool := forallb plain_char s.

(** A field without white space at either end. *)
Definition trimmed (s : jstring) : bool := jstring_eqb (trim s) s.

Definition no_newline (s : jstring) : bool :=
  forallb (fun c => negb (ascii_eqb c chr_newline)) s.

(** A quantity that a JavaScript number holds exactly and prints in plain
    decimal notation. *)
Definition safe_integer (n : Z) : bool :=
  (- 2 ^ 53 <? n) && (n <? 2 ^ 53).

Definition exportable_variant (v : SizeVariant) : bool :=
  plain (v_size v) && trimmed (v_size v) && truthy (v_size v)
  && plain (v_location v) && trimmed (v_location v)
  && safe_integer (v_quantity v).

Definition exportable_item (it : InventoryItem) : bool :=
  plain (it_sku it) && trimmed (it_sku it)
  && plain (it_title it)
  && no_newline (default [] (it_imageUrl it))
  && forallb exportable_variant (it_variants it).

(** The value of a decimal numeral read from the left, continuing from
    [acc]. *)
Fixpoint uint_val (d : Decimal.uint) (acc : Z) : Z :=
  match d with
  | Decimal.Nil => acc
  | Decimal.D0 l => uint_val l (10 * acc + 0)
  | Decimal.D1 l => uint_val l (10 * acc + 1)
  | Decimal.D2 l => uint_val l (10 * acc + 2)
  | Decimal.D3 l => uint_val l (10 * acc + 3)
  | Decimal.D4 l => uint_val l (10 * acc + 4)
  | Decimal.D5 l => uint_val l (10 * acc + 5)
  | Decimal.D6 l => uint_val l (10 * acc + 6)
  | Decimal.D7 l => uint_val l (10 * acc + 7)
  | Decimal.D8 l => uint_val l (10 * acc + 8)
  | Decimal.D9 l => uint_val l (10 * acc + 9)
  end.

(** The characters of a decimal numeral. *)
Definition uint_chars (d : Decimal.uint) : jstring :=
  list_ascii_of_string (NilEmpty.string_of_uint d).

(** The variant that an exported row is read back as: the same size, stock
    flag, quantity and location, under the identifier the parser gives it. *)
Definition reimported (id : jstring) (v : SizeVariant) : SizeVariant :=
  mkVariant id (v_size v) (v_inStock v) (v_quantity v) (v_location v).

(** The (item, variant) pairs in export order. *)
Definition export_pairs (inventory : list InventoryItem) : list (InventoryItem * SizeVariant) :=
  flat_map (fun it => map (pair it) (it_variants it)) inventory.

(** What makes one pair exportable: the part of [exportable_item] that its
    row depends on. *)
Definition exportable_pair (p : InventoryItem * SizeVariant) : bool :=
  plain (it_sku (fst p)) && trimmed (it_sku (fst p))
  && plain (it_title (fst p))
  && no_newline (default [] (it_imageUrl (fst p)))
  && exportable_variant (snd p).

(** The state of [itemsMap] against the tuples of the rows read so far:
    distinct keys, each item filed under its own SKU, and the same tuples. *)
Definition merged (m : ItemsMap) (seen : list VariantTuple) : Prop :=
  NoDup (map fst m) /\
  Forall (fun kd => fd_sku (snd kd) = fst kd) m /\
  Permutation (imported_tuples (map snd m)) seen.

(** Export, then import of the exported text: [None] when nothing is
    exported. *)
Definition export_then_import (variantId : nat -> jstring) (inventory : list InventoryItem)
    : option (ImportError + list InventoryFormData) :=
  option_map (parseCSV variantId) (exportCSV inventory).

(** Two products, the first one stored as two items with the same SKU. *)
Definition sample_inventory : list InventoryItem :=
  [mkItem (js "i1") (js "A1") (js "Shirt") None
          [mkVariant (js "v1") (js "M") true 4 (js "R1");
           mkVariant (js "v2") (js "L") false 0 []] None;
   mkItem (js "i2") (js "B2") (js "Long coat") (Some (js "data:image/png;base64,AA"))
          [] None;
   mkItem (js "i3") (js "B2") (js "Coat") None
          [mkVariant (js "v3") (js "S") true (-2) (js "R 2")] None;
   mkItem (js "i4") (js "A1") (js "Shirt") None
          [mkVariant (js "v4") (js "XL") true 12 (js "R1")] None].

(** An item whose title holds a comma. *)
Definition comma_item : InventoryItem :=
  mkItem (js "i1") (js "A") (js "x,y") None
         [mkVariant (js "v1") (js "M") true 1 (js "R")] None.

(** ** Inputs used in the examples *)

(** The import text of the specification's example: the header, then
    [A1,Shirt,"M,L",true,10,R1,] and [A1,Shirt,XL,false,0,R2,]. *)
Definition example_text : jstring :=
  js "SKU,TITLE,SIZE,IN STOCK,QUANTITY,LOCATION,IMAGE_URL" ++ chr_newline ::
  js "A1,Shirt," ++ chr_quote :: js "M,L" ++ chr_quote :: js ",true,10,R1," ++ chr_newline ::
  js "A1,Shirt,XL,false,0,R2,".

(** An identifier supply: [id0], [id00], [id000], ... *)
Definition sample_id (k : nat) : jstring := js "id" ++ repeat "0"%char (S k).

Definition empty_env : Env :=
  mkEnv [] 1%positive ∅ false ∅ [] [] 0.

(** The component as first rendered: nobody signed in, nothing loaded. *)
Definition initial_app : App :=
  mkApp None [] [] None false false false None empty_env.

Definition sample_variant : SizeVariant :=
  mkVariant (js "v1") (js "M") true 4 (js "R1").

Definition sample_item : InventoryItem :=
  mkItem (js "i1") (js "A1") (js "Shirt") None [sample_variant] None.

(** A signed-in user whose data has been loaded. *)
Definition loaded_app : App :=
  mkApp (Some (js "u1")) [sample_item] [] None false true false None empty_env.

(** The same, with an edit not yet saved. *)
Definition dirty_app : App :=
  mkApp (Some (js "u1")) [sample_item] [] None false true true None empty_env.

(** A file with a good row and one malformed row, and the same file with a
    second malformed row. *)
Definition skip_text_one : jstring :=
  export_headers ++ chr_newline ::
  js "A1,Shirt,M,true,10,R1," ++ chr_newline ::
  js "A2,Coat,L,true".

Definition skip_text_two : jstring :=
  skip_text_one ++ chr_newline :: js "A3,Hat".

(** A file whose only data row has an empty SIZE column. *)
Definition no_size_text : jstring :=
  export_headers ++ chr_newline :: js "A1,Shirt,,true,10,R1,".

(** A data row with fewer than six fields. *)
Definition is_short (line : jstring) : bool :=
  (length (tokenize line) <? 6)%nat.

(** ** Further inputs of the codec *)

Definition chr_cr : ascii := "013"%char.

(** A line as a Windows editor writes it: with a carriage return before the
    line feed. *)
Definition with_cr (line : jstring) : jstring := line ++ [chr_cr].

(** All the variants that [itemsMap] holds, item after item. *)
Definition map_variants (m : ItemsMap) : list SizeVariant :=
  flat_map (fun kd => fd_variants (snd kd)) m.

(** All the variants of a list of imported items. *)
Definition imported_variants (imported : list InventoryFormData) : list SizeVariant :=
  flat_map fd_variants imported.

(** What the parser guarantees of a variant it creates: a size that is not
    empty, and a size and a location without white space at the ends. *)
Definition well_formed_variant (v : SizeVariant) : Prop :=
  truthy (v_size v) = true /\
  trim (v_size v) = v_size v /\
  trim (v_location v) = v_location v.

(** ** Search ([filteredItems] of [App]) *)

(** [hay.startsWith(needle)] *)
Fixpoint starts_with (needle hay : jstring) : bool :=
  match needle, hay with
  | [], _ => true
  | _ :: _, [] => false
  | a :: n, b :: h => ascii_eqb a b && starts_with n h
  end.

(** [hay.includes(needle)] *)
Fixpoint includes (hay needle : jstring) : bool :=
  starts_with needle hay
  || match hay with
     | [] => false
     | _ :: r => includes r needle
     end.

(** The predicate of the [filter], for the lower-cased query [q]. *)
Definition matches_query (q : jstring) (item : InventoryItem) : bool :=
  includes (toLowerCase (it_sku item)) q
  || includes (toLowerCase (it_title item)) q
  || existsb (fun v => includes (toLowerCase (v_size v)) q
                       || includes (toLowerCase (v_location v)) q)
             (it_variants item).

Definition filteredItems (searchQuery : jstring) (inventory : list InventoryItem)
    : list InventoryItem :=
  if negb (truthy searchQuery) then inventory
  else List.filter (matches_query (toLowerCase searchQuery)) inventory.

(** ** Statistics ([stats] of [App]) *)

Record Stats := mkStats {
  totalItems : nat;
  lowStockItems : nat;
  totalQuantity : Z;
  uniqueLocations : nat;
}.

Definition allVariants (inventory : list InventoryItem) : list SizeVariant :=
  flat_map it_variants inventory.

(** [totalQuantity] is the exact sum of the quantities.  The source adds
    floating-point numbers, so its total is this sum where every quantity
    and every running sum is an integer that such a number holds exactly
    ([exact_total] below); beyond that its additions round. *)
Definition stats (inventory : list InventoryItem) : Stats :=
  mkStats
    (length inventory)
    (length (List.filter (fun v => (0 <? v_quantity v) && (v_quantity v <? 10))
                         (allVariants inventory)))
    (fold_left (fun sum v => sum + v_quantity v) (allVariants inventory) 0)
    (length (remove_dups (List.filter truthy (map v_location (allVariants inventory))))).

(** The running sums of [allVariants.reduce((sum, v) => sum + v.quantity, 0)]. *)
Fixpoint running_sums (sum : Z) (vs : list SizeVariant) : list Z :=
  match vs with
  | [] => []
  | v :: r => (sum + v_quantity v) :: running_sums (sum + v_quantity v) r
  end.

(** The inventories whose total the source computes without rounding: every
    quantity and every running sum of the [reduce] is a safe integer. *)
Definition exact_total (inventory : list InventoryItem) : Prop :=
  Forall (fun v => safe_integer (v_quantity v) = true) (allVariants inventory) /\
  Forall (fun n => safe_integer n = true) (running_sums 0 (allVariants inventory)).

(** ** Custom field definitions ([CustomFieldsManager]) *)

(** [s.replace(/\s+/g, '_')]: every run of white space becomes one
    underscore; [inRun] tells whether the previous character was white
    space. *)
Fixpoint replace_ws_runs (s : jstring) (inRun : bool) : jstring :=
  match s with
  | [] => []
  | c :: r =>
      if is_ws c then
        if inRun then replace_ws_runs r true
        else "_"%char :: replace_ws_runs r true
      else c :: replace_ws_runs r false
  end.

(** [newFieldName.toLowerCase().replace(/\s+/g, '_')] *)
Definition field_id (newFieldName : jstring) : jstring :=
  replace_ws_runs (toLowerCase newFieldName) false.

(** The two error toasts of [handleAddField]: '请输入字段名称' (no name)
    and '该字段已存在' (the field exists). *)
Inductive FieldError :=
| FieldNameMissing
| FieldExists.

(** [handleAddField]: the error toast, or the list passed to
    [onUpdateFields]. *)
Definition handleAddField (fields : list CustomFieldDefinition)
    (newFieldName : jstring) (newFieldType : FieldType)
    : FieldError + list CustomFieldDefinition :=
  if negb (truthy (trim newFieldName)) then inl FieldNameMissing
  else
    let fieldId := field_id newFieldName in
    if existsb (fun f => jstring_eqb (cf_id f) fieldId) fields then inl FieldExists
    else inr (fields ++ [mkFieldDef fieldId (trim newFieldName) newFieldType]).

(** [handleDeleteField]: the list passed to [onUpdateFields]. *)
Definition handleDeleteField (fields : list CustomFieldDefinition) (fieldId : jstring)
    : list CustomFieldDefinition :=
  List.filter (fun f => negb (jstring_eqb (cf_id f) fieldId)) fields.

(** ** Inline edits of the table ([InventoryTable]) *)

Definition finishEditingSKU (itemId tempSKU : jstring) (s : App) : App :=
  if truthy (trim tempSKU) then handleUpdateSKU itemId (trim tempSKU) s else s.

Definition finishEditingTitle (itemId tempTitle : jstring) (s : App) : App :=
  if truthy (trim tempTitle) then handleUpdateTitle itemId (trim tempTitle) s else s.

Definition finishEditingLocation (itemId variantId tempLocation : jstring) (s : App) : App :=
  handleUpdateLocation itemId variantId tempLocation s.

Definition finishAddingVariant (now itemId newVariantSize : jstring) (s : App) : App :=
  if truthy (trim newVariantSize)
  then handleAddVariant now itemId (trim newVariantSize) s
  else s.

(** ** The state of the item form ([InventoryForm]) *)

Record FormState := mkFormState {
  fs_sku : jstring;
  fs_title : jstring;
  fs_imageUrl : jstring;
  fs_variants : list VariantFormData;
}.

Definition blank_variant : VariantFormData := mkVariantForm [] true 0 [].

Definition to_form (v : SizeVariant) : VariantFormData :=
  mkVariantForm (v_size v) (v_inStock v) (v_quantity v) (v_location v).

(** The effect on [editingItem, isOpen]: the form is filled from the item
    being edited, or reset. *)
Definition form_open (editing : option InventoryItem) : FormState :=
  match editing with
  | Some e =>
      mkFormState (it_sku e) (it_title e)
                  (match it_imageUrl e with
                   | Some u => if truthy u then u else []
                   | None => []
                   end)
                  (map to_form (it_variants e))
  | None => mkFormState [] [] [] [blank_variant]
  end.

(** [list.filter((_, i) => i !== index)] *)
Fixpoint remove_at {A : Type} (index : nat) (l : list A) : list A :=
  match l, index with
  | [], _ => []
  | _ :: r, O => r
  | x :: r, S i => x :: remove_at i r
  end.

Definition form_addVariant (f : FormState) : FormState :=
  mkFormState (fs_sku f) (fs_title f) (fs_imageUrl f)
              (fs_variants f ++ [blank_variant]).

Definition form_removeVariant (index : nat) (f : FormState) : FormState :=
  if (1 <? length (fs_variants f))%nat
  then mkFormState (fs_sku f) (fs_title f) (fs_imageUrl f)
                   (remove_at index (fs_variants f))
  else f.

(** [handleSubmit] on the form's state. *)
Definition form_submit (now : jstring) (editing : option InventoryItem) (f : FormState)
    : option InventoryFormData :=
  InventoryForm_handleSubmit now editing (fs_sku f) (fs_title f)
                             (fs_imageUrl f) (fs_variants f).

(** [handleAddSize] and [handleRemoveSize] of [QuickAddRow]. *)
Definition quick_addSize (sizes : list QuickSize) : list QuickSize :=
  sizes ++ [mkQuickSize [] (js "0") []].

Definition quick_removeSize (index : nat) (sizes : list QuickSize) : list QuickSize :=
  if (1 <? length sizes)%nat then remove_at index sizes else sizes.

(** What [readCache] hands to its caller: the inventory and the custom
    fields of the stored snapshot, without its time stamp. *)
Definition cached_data (c : Render) (s : App)
    : option (list InventoryItem * list CustomFieldDefinition) :=
  option_map (fun snapshot => (cache_inventory snapshot, cache_custom_fields snapshot))
             (readCache c s).

(** ** Loading ([loadUserData] and the auth listener of [App]) *)

Definition set_hasLoadedRef (b : bool) (s : App) : App :=
  mkApp (user s) (items s) (customFields s) (editingItem s) (isSaving s)
        b (dirtyRef s) (saveTimerRef s) (env s).

Definition set_user (u : option jstring) (s : App) : App :=
  mkApp u (items s) (customFields s) (editingItem s) (isSaving s)
        (hasLoadedRef s) (dirtyRef s) (saveTimerRef s) (env s).

(** The signed-in branch of the [onAuthStateChange] listener, up to its
    call of [loadUserData]. *)
Definition handleSignedIn (userId : jstring) (s : App) : App :=
  set_hasLoadedRef false (set_user (Some userId) s).

(** [loadUserData(userId)], as created by the render [c] (whose [readCache]
    and [writeCache] it calls), when nothing else runs during its two
    [await]s.  [ensured] and [loaded] are the store's answers to
    [ensureUserRow] and [loadInventoryData]; either error goes to the
    [catch], which raises the "load failed" toast. *)
Definition loadUserData (c : Render) (userId : jstring)
    (ensured loaded : RemoteOutcome) (s : App) : App :=
  let s1 := match readCache c s with
            | Some cached =>
                set_customFields (cache_custom_fields cached)
                  (set_items (fun _ => cache_inventory cached) s)
            | None => s
            end in
  match ensureUserRow (clock (env s1)) ensured userId (remoteTable (env s1)) with
  | (Some _, _) => toast (mkToast LoadFailed Destructive) s1
  | (None, tbl) =>
      let s2 := set_env (fun e => mkEnv (timers e) (nextHandle e) (localStorage e)
                                        (storageFails e) tbl (remoteCalls e)
                                        (toasts e) (clock e)) s1 in
      match loadInventoryData loaded userId tbl with
      | inl _ => toast (mkToast LoadFailed Destructive) s2
      | inr remote =>
          let s3 := set_customFields (data_custom_fields remote)
                      (set_items (fun _ => data_inventory remote) s2) in
          let s4 := writeCache c (data_inventory remote) (data_custom_fields remote) s3 in
          set_dirtyRef false (set_hasLoadedRef true s4)
      end
  end.

(** A signed-in user with a cached inventory and a different row in the
    remote table; nothing loaded yet. *)
Definition stale_cache_app : App :=
  mkApp (Some (js "u1")) [] [] None false false false None
        (mkEnv [] 1%positive
               {[ storageKey (Some (js "u1")) := mkCache [comma_item] [] 3 ]}
               false
               {[ js "u1" := mkRow [sample_item] [] 5 ]}
               [] [] 9).

(** ** Key mutations *)

(** The handlers of [App] that end in
    [setTimeout(() => void saveNow(reason), 0)]. *)
Inductive KeyMutation :=
| KeyAddItem (now : jstring) (data : InventoryFormData)
| KeyEditItem (data : InventoryFormData)
| KeyDeleteItem (id : jstring)
| KeyAddVariant (now itemId size : jstring)
| KeyDeleteVariant (itemId variantId : jstring)
| KeyCSVImport (importId : nat -> jstring) (importedItems : list InventoryFormData)
| KeyUpdateFields (next : list CustomFieldDefinition).

Definition key_handler (k : KeyMutation) (s : App) : App :=
  match k with
  | KeyAddItem now data => handleAddItem now data s
  | KeyEditItem data => handleEditItem data s
  | KeyDeleteItem id => handleDeleteItem id s
  | KeyAddVariant now itemId size => handleAddVariant now itemId size s
  | KeyDeleteVariant itemId variantId => handleDeleteVariant itemId variantId s
  | KeyCSVImport importId importedItems => handleCSVImport importId importedItems s
  | KeyUpdateFields next => handleUpdateFields next s
  end.

(** The argument of [saveNow] in the handler's timeout. *)
Definition key_reason (k : KeyMutation) : SaveReason :=
  match k with
  | KeyAddItem _ _ => ReasonAddItem
  | KeyEditItem _ => ReasonEditItem
  | KeyDeleteItem _ => ReasonDeleteItem
  | KeyAddVariant _ _ _ => ReasonAddVariant
  | KeyDeleteVariant _ _ => ReasonDeleteVariant
  | KeyCSVImport _ _ => ReasonCsvImport
  | KeyUpdateFields _ => ReasonCustomFieldsUpdate
  end.

(** [handleEditItem] returns at once when no item is being edited; the other
    handlers always run to their timeout. *)
Definition key_applies (k : KeyMutation) (s : App) : bool :=
  match k, editingItem s with
  | KeyEditItem _, None => false
  | _, _ => true
  end.

(** The events that change neither the items nor the custom fields: a timer
    expiry and a flush signal. *)
Definition is_passive (ev : Event) : bool :=
  match ev with
  | EvTimer _ _ | EvFlush _ => true
  | _ => false
  end.

(** ** Names *)

(** A text with something other than white space in it. *)
Definition non_blank (x : jstring) : Prop := truthy (trim x) = true.

(** An item with a SKU, a title and variant sizes that are not blank. *)
Definition named_item (it : InventoryItem) : Prop :=
  non_blank (it_sku it) /\ non_blank (it_title it) /\
  Forall (fun v => non_blank (v_size v)) (it_variants it).

(** ** The console of the import *)

(** The warnings of the rows with fewer than six fields among [dataLines],
    the first of which has the index [index]. *)
Fixpoint skipped_warnings (index : nat) (dataLines : list jstring) : list ConsoleLine :=
  match dataLines with
  | [] => []
  | line :: r =>
      (if is_short line then [WarnRowSkipped (index + 2)] else [])
      ++ skipped_warnings (S index) r
  end.

(** A file whose malformed row, on its fourth line, comes after a blank
    line; and a file whose data rows are all malformed. *)
Definition blank_then_short_text : jstring :=
  export_headers ++ chr_newline ::
  js "A1,Shirt,M,true,10,R1," ++ chr_newline ::
  chr_newline ::
  js "A2,Coat,L,true".

Definition all_short_text : jstring :=
  export_headers ++ chr_newline :: js "A2,Coat,L,true".

(** ** The answer to a save request *)


(** ** A burst of inline edits *)






(** * Properties *)

(** ** Strings *)

Lemma ascii_eqb_true (a b : ascii) : ascii_eqb a b = true <-> a = b.
Proof. unfold ascii_eqb. apply Ascii.eqb_eq. Qed.

Lemma ascii_eqb_false (a b : ascii) : ascii_eqb a b = false <-> a <> b.
Proof. unfold ascii_eqb. apply Ascii.eqb_neq. Qed.

Lemma ascii_eqb_refl (a : ascii) : ascii_eqb a a = true.
Proof. apply ascii_eqb_true; reflexivity. Qed.

Lemma jstring_eqb_true (a b : jstring) : jstring_eqb a b = true <-> a = b.
Proof. unfold jstring_eqb. apply bool_decide_eq_true. Qed.

Lemma jstring_eqb_false (a b : jstring) : jstring_eqb a b = false <-> a <> b.
Proof. unfold jstring_eqb. apply bool_decide_eq_false. Qed.

Lemma jstring_eqb_refl (a : jstring) : jstring_eqb a a = true.
Proof. apply jstring_eqb_true; reflexivity. Qed.

(** [trimStart] returns a suffix, [trim] a segment of its argument. *)
Lemma trimStart_suffix (s : jstring) : exists p, s = p ++ trimStart s.
Proof.
  induction s as [|c r [p Hp]]; simpl.
  - exists []; reflexivity.
  - destruct (is_ws c).
    + exists (c :: p). simpl. congruence.
    + exists []. reflexivity.
Qed.

Lemma In_trimStart (x : ascii) (s : jstring) : In x (trimStart s) -> In x s.
Proof.
  destruct (trimStart_suffix s) as [p Hp]. intros H.
  rewrite Hp. apply in_or_app. right; exact H.
Qed.

Lemma In_trimEnd (x : ascii) (s : jstring) : In x (trimEnd s) -> In x s.
Proof.
  unfold trimEnd. intros H.
  apply in_rev in H. apply In_trimStart in H. apply in_rev in H. exact H.
Qed.

Lemma In_trim (x : ascii) (s : jstring) : In x (trim s) -> In x s.
Proof. unfold trim. intros H. apply In_trimStart, In_trimEnd, H. Qed.

(** ** The tokenizer *)

Lemma tokenize_loop_no_quote (line : jstring) :
  forall fields current inQuotes,
    Forall (fun f => ~ In chr_quote f) fields ->
    ~ In chr_quote current ->
    Forall (fun f => ~ In chr_quote f) (tokenize_loop line fields current inQuotes).
Proof.
  induction line as [|char rest IH]; intros fields current inQuotes Hf Hc;
    cbn [tokenize_loop].
  - apply Forall_app. split; [exact Hf|].
    constructor; [|constructor]. intros H; apply Hc, In_trim, H.
  - destruct (ascii_eqb char chr_quote) eqn:Eq.
    + apply IH; assumption.
    + destruct (ascii_eqb char chr_comma && negb inQuotes).
      * apply IH.
        -- apply Forall_app. split; [exact Hf|].
           constructor; [|constructor]. intros H; apply Hc, In_trim, H.
        -- intros [].
      * apply IH; [exact Hf|].
        intros H. apply in_app_or in H. destruct H as [H|[H|[]]].
        -- apply Hc, H.
        -- apply ascii_eqb_false in Eq. congruence.
Qed.

(** Two quotes in a row toggle the quoting state twice and add nothing. *)
Lemma tokenize_loop_double_quote (a b : jstring) :
  forall fields current inQuotes,
    tokenize_loop (a ++ chr_quote :: chr_quote :: b) fields current inQuotes
    = tokenize_loop (a ++ b) fields current inQuotes.
Proof.
  induction a as [|char rest IH]; intros fields current inQuotes;
    cbn [tokenize_loop app].
  - rewrite ascii_eqb_refl, negb_involutive. reflexivity.
  - destruct (ascii_eqb char chr_quote); [apply IH|].
    destruct (ascii_eqb char chr_comma && negb inQuotes); apply IH.
Qed.

(** Inside quotes, and with no further quote, the rest of the line goes
    into the current field, delimiters included. *)
Lemma tokenize_loop_in_quotes (rest : jstring) :
  forall fields current,
    ~ In chr_quote rest ->
    tokenize_loop rest fields current true = fields ++ [trim (current ++ rest)].
Proof.
  induction rest as [|char rest IH]; intros fields current Hq;
    cbn [tokenize_loop].
  - rewrite app_nil_r. reflexivity.
  - destruct (ascii_eqb char chr_quote) eqn:Eq.
    + apply ascii_eqb_true in Eq. exfalso. apply Hq. left. exact Eq.
    + rewrite andb_false_r. rewrite IH.
      * rewrite <- app_assoc. reflexivity.
      * intros H. apply Hq. right; exact H.
Qed.

(** C10 (tokenizer quote erasure).  No field the import tokenizer produces
    contains a double quote; a doubled quote inside a line contributes
    nothing to any field; and after an opening quote that is never closed,
    the rest of the line, commas included, is absorbed into the current
    field, the tokenizer still returning its fields. *)
Theorem tokenizer_quote_erasure :
  (forall line f, In f (tokenize line) -> ~ In chr_quote f) /\
  (forall a b, tokenize (a ++ chr_quote :: chr_quote :: b) = tokenize (a ++ b)) /\
  (forall fields current rest,
      ~ In chr_quote rest ->
      tokenize_loop (chr_quote :: rest) fields current false
      = fields ++ [trim (current ++ rest)]).
Proof.
  split; [|split].
  - intros line f Hin.
    pose proof (tokenize_loop_no_quote line [] [] false) as H.
    assert (Hall : Forall (fun f => ~ In chr_quote f) (tokenize line)).
    { apply H; [constructor | intros []]. }
    rewrite List.Forall_forall in Hall. apply Hall, Hin.
  - intros a b. apply tokenize_loop_double_quote.
  - intros fields current rest Hq. cbn [tokenize_loop].
    rewrite ascii_eqb_refl. apply tokenize_loop_in_quotes, Hq.
Qed.

Lemma tokenizer_quote_erasure_witness :
  ~ In chr_quote (js "M,L") /\
  tokenize (js "a,x" ++ chr_quote :: chr_quote :: js "y,b") = tokenize (js "a,x" ++ js "y,b") /\
  tokenize_loop (chr_quote :: js "M,L,true,10") [js "A1"] [] false
  = [js "A1"] ++ [trim ([] ++ js "M,L,true,10")].
Proof.
  destruct tokenizer_quote_erasure as (H1 & H2 & H3).
  split; [|split].
  - apply (H1 (js "A1," ++ chr_quote :: js "M,L" ++ chr_quote :: js ",true") (js "M,L")).
    vm_compute. right; left; reflexivity.
  - apply H2.
  - apply H3. vm_compute.
    intros H. repeat (destruct H as [H|H]; [discriminate H|]). exact H.
Defined.

(** ** The merge example *)

(** C2 (merge example).  The example import text yields exactly one item,
    [A1]/[Shirt], whose variants are, in order, [M] (10, [R1], in stock),
    [L] (10, [R1], in stock) and [XL] (0, [R2], not in stock). *)
Theorem merge_example (variantId : nat -> jstring) :
  parseCSV variantId example_text
  = inr [mkFormData (js "A1") (js "Shirt") None
           [mkVariant (variantId 0%nat) (js "M") true 10 (js "R1");
            mkVariant (variantId 1%nat) (js "L") true 10 (js "R1");
            mkVariant (variantId 2%nat) (js "XL") false 0 (js "R2")]
           None].
Proof. vm_compute. reflexivity. Qed.

(** ** State bookkeeping *)

Lemma items_set_env f s : items (set_env f s) = items s.
Proof. reflexivity. Qed.

Lemma items_scheduleSave c ms s : items (scheduleSave c ms s) = items s.
Proof.
  unfold scheduleSave.
  destruct (negb (has_user (r_user c)) || negb (hasLoadedRef s)); [reflexivity|].
  cbn. destruct (saveTimerRef s); reflexivity.
Qed.

Lemma In_updateQuantity itemId variantId quantity prev item v :
  In item (updateQuantity itemId variantId quantity prev) ->
  it_id item = itemId -> In v (it_variants item) -> v_id v = variantId ->
  v_quantity v = quantity /\ v_inStock v = (0 <? quantity).
Proof.
  unfold updateQuantity. intros Hin Hid Hv Hvid.
  apply in_map_iff in Hin. destruct Hin as (old & Hold & _).
  destruct (jstring_eqb (it_id old) itemId) eqn:Eitem; cbn in Hold.
  - subst item. cbn in Hv.
    apply in_map_iff in Hv. destruct Hv as (v0 & Hv0 & _).
    destruct (jstring_eqb (v_id v0) variantId) eqn:Ev.
    + subst v. cbn. split; reflexivity.
    + subst v. apply jstring_eqb_false in Ev. contradiction.
  - subst item. apply jstring_eqb_false in Eitem. contradiction.
Qed.

(** C4 (quantity clamp).  After [handleUpdateQuantity], the targeted variant
    holds the requested quantity clamped below at 0: its quantity is not
    negative, it is 0 when the input was negative, and its stock flag says
    whether the quantity is positive. *)
Theorem quantity_clamp (itemId variantId : jstring) (newQuantity : Z) (s : App)
    (item : InventoryItem) (v : SizeVariant) :
  In item (items (handleUpdateQuantity itemId variantId newQuantity s)) ->
  it_id item = itemId ->
  In v (it_variants item) ->
  v_id v = variantId ->
  v_quantity v = Z.max 0 newQuantity /\
  0 <= v_quantity v /\
  (newQuantity < 0 -> v_quantity v = 0) /\
  v_inStock v = (0 <? v_quantity v).
Proof.
  unfold handleUpdateQuantity. rewrite items_scheduleSave. cbn [set_items items].
  intros Hin Hid Hv Hvid.
  destruct (In_updateQuantity _ _ _ _ _ _ Hin Hid Hv Hvid) as [Hq Hs].
  rewrite Hq, Hs. repeat split; lia.
Qed.

Lemma quantity_clamp_witness :
  In (mkItem (js "i1") (js "A1") (js "Shirt") None
             [mkVariant (js "v1") (js "M") false 0 (js "R1")] None)
     (items (handleUpdateQuantity (js "i1") (js "v1") (-3) loaded_app)) /\
  v_quantity (mkVariant (js "v1") (js "M") false 0 (js "R1")) = Z.max 0 (-3) /\
  0 <= v_quantity (mkVariant (js "v1") (js "M") false 0 (js "R1")) /\
  (-3 < 0 -> v_quantity (mkVariant (js "v1") (js "M") false 0 (js "R1")) = 0) /\
  v_inStock (mkVariant (js "v1") (js "M") false 0 (js "R1"))
  = (0 <? v_quantity (mkVariant (js "v1") (js "M") false 0 (js "R1"))).
Proof.
  assert (Hin : In (mkItem (js "i1") (js "A1") (js "Shirt") None
                           [mkVariant (js "v1") (js "M") false 0 (js "R1")] None)
                   (items (handleUpdateQuantity (js "i1") (js "v1") (-3) loaded_app))).
  { vm_compute. left; reflexivity. }
  split; [exact Hin|].
  apply (quantity_clamp (js "i1") (js "v1") (-3) loaded_app _ _ Hin).
  - reflexivity.
  - left; reflexivity.
  - reflexivity.
Defined.

(** The two callers in the table: a +1/-1 step and a typed value. *)
Corollary quantity_clamp_delta itemId variantId delta current s item v :
  In item (items (handleQuantityChange itemId variantId delta current s)) ->
  it_id item = itemId -> In v (it_variants item) -> v_id v = variantId ->
  0 <= v_quantity v /\ v_inStock v = (0 <? v_quantity v).
Proof.
  unfold handleQuantityChange, handleUpdateQuantity.
  rewrite items_scheduleSave. cbn [set_items items].
  intros Hin Hid Hv Hvid.
  destruct (In_updateQuantity _ _ _ _ _ _ Hin Hid Hv Hvid) as [Hq Hs].
  rewrite Hq, Hs. split; lia.
Qed.

Corollary quantity_clamp_typed itemId variantId text s item v :
  In item (items (finishEditingQuantity itemId variantId text s)) ->
  it_id item = itemId -> In v (it_variants item) -> v_id v = variantId ->
  0 <= v_quantity v /\ v_inStock v = (0 <? v_quantity v).
Proof.
  unfold finishEditingQuantity, handleUpdateQuantity.
  rewrite items_scheduleSave. cbn [set_items items].
  intros Hin Hid Hv Hvid.
  destruct (In_updateQuantity _ _ _ _ _ _ Hin Hid Hv Hvid) as [Hq Hs].
  rewrite Hq, Hs. split; lia.
Qed.

(** ** The remote store *)

Lemma ensureUserRow_present now outcome userId tbl row :
  tbl !! userId = Some row ->
  snd (ensureUserRow now outcome userId tbl) = tbl.
Proof.
  intros Hrow. unfold ensureUserRow, request, upsert.
  destruct outcome; [|reflexivity].
  rewrite Hrow. reflexivity.
Qed.

Lemma ensureUserRow_absent now userId tbl :
  tbl !! userId = None ->
  ensureUserRow now RemoteOk userId tbl = (None, <[userId := mkRow [] [] now]> tbl).
Proof.
  intros Hrow. unfold ensureUserRow, request, upsert.
  rewrite Hrow. reflexivity.
Qed.

Lemma ensure_many_present calls : forall userId tbl row,
  tbl !! userId = Some row -> ensure_many calls userId tbl = tbl.
Proof.
  induction calls as [|[now outcome] r IH]; intros userId tbl row Hrow; cbn [ensure_many].
  - reflexivity.
  - rewrite (ensureUserRow_present _ _ _ _ _ Hrow). apply (IH _ _ _ Hrow).
Qed.

(** By contrast, a save overwrites the stored row. *)
Lemma saveInventoryData_overwrites now userId inventory fields tbl :
  snd (saveInventoryData now RemoteOk userId inventory fields tbl) !! userId
  = Some (mkRow inventory fields now).
Proof.
  unfold saveInventoryData, request, upsert.
  destruct (tbl !! userId); cbn; apply lookup_insert_eq.
Qed.

(** C9 (ensure-row idempotence).  [ensureUserRow] inserts the empty row
    [{user_id, inventory: [], custom_fields: [], updated_at: now}] only when
    the identity has no row; when a row exists, whatever it holds, one call
    or any number of calls in succession leave the whole table, and so that
    row, unchanged; and after the insertion further calls change nothing. *)
Theorem ensure_row_idempotence (userId : jstring) (tbl : gmap jstring Row) :
  (tbl !! userId = None ->
   forall now, ensureUserRow now RemoteOk userId tbl
               = (None, <[userId := mkRow [] [] now]> tbl)) /\
  (forall row now outcome,
      tbl !! userId = Some row ->
      snd (ensureUserRow now outcome userId tbl) = tbl) /\
  (forall row calls,
      tbl !! userId = Some row ->
      ensure_many calls userId tbl = tbl /\
      ensure_many calls userId tbl !! userId = Some row) /\
  (tbl !! userId = None ->
   forall now calls,
     ensure_many ((now, RemoteOk) :: calls) userId tbl
     = <[userId := mkRow [] [] now]> tbl).
Proof.
  split; [|split; [|split]].
  - intros Hnone now. apply ensureUserRow_absent, Hnone.
  - intros row now outcome Hrow. apply (ensureUserRow_present _ _ _ _ _ Hrow).
  - intros row calls Hrow.
    rewrite (ensure_many_present calls _ _ _ Hrow). split; [reflexivity|exact Hrow].
  - intros Hnone now calls. cbn [ensure_many].
    rewrite (ensureUserRow_absent _ _ _ Hnone). cbn [snd].
    apply (ensure_many_present calls _ _ (mkRow [] [] now)).
    apply lookup_insert_eq.
Qed.

Lemma ensure_row_idempotence_witness :
  let tbl : gmap jstring Row := {[ js "u1" := mkRow [sample_item] [] 7 ]} in
  tbl !! js "u1" = Some (mkRow [sample_item] [] 7) /\
  ensure_many [(8%nat, RemoteOk); (9%nat, RemoteOk)] (js "u1") tbl = tbl /\
  ensure_many [(8%nat, RemoteOk); (9%nat, RemoteOk)] (js "u1") tbl !! js "u1"
  = Some (mkRow [sample_item] [] 7).
Proof.
  intros tbl.
  assert (Hrow : tbl !! js "u1" = Some (mkRow [sample_item] [] 7)).
  { apply lookup_singleton_eq. }
  split; [exact Hrow|].
  destruct (ensure_row_idempotence (js "u1") tbl) as (_ & _ & H & _).
  apply (H _ [(8%nat, RemoteOk); (9%nat, RemoteOk)] Hrow).
Defined.

(** ** Load gating *)

Lemma scheduleSave_not_loaded c ms s :
  hasLoadedRef s = false -> scheduleSave c ms s = s.
Proof.
  intros H. unfold scheduleSave. rewrite H. cbn [negb].
  rewrite orb_true_r. reflexivity.
Qed.

Lemma scheduleSave_no_user c ms s :
  has_user (r_user c) = false -> scheduleSave c ms s = s.
Proof. intros H. unfold scheduleSave. rewrite H. reflexivity. Qed.

Lemma saveNow_begin_not_loaded c s :
  hasLoadedRef s = false -> saveNow_begin c s = (s, None).
Proof.
  intros H. unfold saveNow_begin. destruct (r_user c); [|reflexivity].
  rewrite H. cbn [negb]. rewrite orb_true_r. reflexivity.
Qed.

Lemma saveNow_begin_no_user c s :
  has_user (r_user c) = false -> saveNow_begin c s = (s, None).
Proof.
  unfold saveNow_begin, has_user. destruct (r_user c) as [uid|]; [|reflexivity].
  intros H. rewrite H. reflexivity.
Qed.

Lemma saveNow_not_loaded c outcome s :
  hasLoadedRef s = false -> saveNow c outcome s = s.
Proof. intros H. unfold saveNow. rewrite (saveNow_begin_not_loaded _ _ H). reflexivity. Qed.

Lemma saveNow_no_user c outcome s :
  has_user (r_user c) = false -> saveNow c outcome s = s.
Proof. intros H. unfold saveNow. rewrite (saveNow_begin_no_user _ _ H). reflexivity. Qed.

Lemma changeEffect_not_loaded s :
  hasLoadedRef s = false -> changeEffect s = s.
Proof.
  intros H. unfold changeEffect. rewrite H. cbn [negb].
  rewrite orb_true_r. reflexivity.
Qed.

Lemma sched_view_toasts ts : forall s,
  sched_view (fold_left (fun acc t => toast t acc) ts s) = sched_view s.
Proof.
  induction ts as [|t r IH]; intros s; cbn [fold_left]; [reflexivity|].
  rewrite IH. reflexivity.
Qed.

Lemma sched_view_loaded s s' :
  sched_view s' = sched_view s -> hasLoadedRef s' = hasLoadedRef s.
Proof. unfold sched_view. congruence. Qed.

(** Before the load, a handler leaves the scheduler's state as it was. *)
Ltac skip_schedule H :=
  repeat match goal with
         | |- context [scheduleSave ?c ?ms ?s] =>
             rewrite (scheduleSave_not_loaded c ms s) by exact H
         end;
  try reflexivity.

Lemma sched_view_run_op op s :
  hasLoadedRef s = false -> sched_view (run_op op s) = sched_view s.
Proof.
  intros H.
  assert (Heff : forall s', sched_view s' = sched_view s ->
                            sched_view (changeEffect s') = sched_view s).
  { intros s' Hv. rewrite changeEffect_not_loaded; [exact Hv|].
    rewrite (sched_view_loaded _ _ Hv). exact H. }
  destruct op; cbn [run_op].
  - destruct (InventoryForm_handleSubmit _ _ _ _ _ _); [|reflexivity].
    destruct (editingItem s) as [e|] eqn:Ee.
    + apply Heff. unfold handleEditItem. rewrite Ee. reflexivity.
    + apply Heff. reflexivity.
  - destruct (QuickAddRow_handleSubmit _ _ _ _ _); [|reflexivity].
    apply Heff. reflexivity.
  - apply Heff. reflexivity.
  - apply Heff. unfold handleImageUpload. skip_schedule H.
  - apply Heff. unfold handleUpdateQuantity. skip_schedule H.
  - apply Heff. unfold handleUpdateLocation. skip_schedule H.
  - apply Heff. unfold handleUpdateSKU. skip_schedule H.
  - apply Heff. unfold handleUpdateTitle. skip_schedule H.
  - apply Heff. reflexivity.
  - apply Heff. unfold handleDeleteVariant, saveSoon, setTimeout. cbn [snd].
    change (sched_view (set_env ?f ?x)) with (sched_view x).
    rewrite sched_view_toasts. reflexivity.
Qed.

Lemma sched_view_run_event ev s :
  hasLoadedRef s = false -> sched_view (run_event ev s) = sched_view s.
Proof.
  intros H. destruct ev; cbn [run_event].
  - apply sched_view_run_op, H.
  - unfold handleImport.
    destruct (selectedFile d) as [text|]; [|reflexivity].
    destruct (parseCSV variantId text) as [e|imported]; [reflexivity|].
    destruct (length imported =? 0)%nat; [reflexivity|]. cbn [fst snd error].
    rewrite changeEffect_not_loaded; [reflexivity|exact H].
  - rewrite changeEffect_not_loaded; [reflexivity|exact H].
  - unfold fireTimer. destruct (timer_lookup h (timers (env s))); [|reflexivity].
    rewrite saveNow_not_loaded; [reflexivity|exact H].
  - unfold flushNow. rewrite saveNow_not_loaded; [reflexivity|exact H].
Qed.

Lemma sched_view_run_events evs : forall s,
  hasLoadedRef s = false -> sched_view (run_events evs s) = sched_view s.
Proof.
  unfold run_events.
  induction evs as [|ev r IH]; intros s H; cbn [fold_left]; [reflexivity|].
  rewrite IH.
  - apply sched_view_run_event, H.
  - rewrite (sched_view_loaded _ _ (sched_view_run_event ev s H)). exact H.
Qed.

(** C8 (load gating).  While [hasLoadedRef] is false, and likewise for a
    callback created while nobody was signed in, [scheduleSave] and [saveNow]
    return the state they were given: no timer is armed and no request is
    issued.  Hence over any sequence of events that starts before the load
    has completed, the flag stays false, the debounce timer and the dirty
    flag stay as they were, no save request is issued and the remote table
    is not written.  Signing out puts the component back into that state. *)
Theorem load_gating :
  (forall c ms outcome s,
      hasLoadedRef s = false \/ has_user (r_user c) = false ->
      scheduleSave c ms s = s /\
      saveNow c outcome s = s /\
      saveNow_begin c s = (s, None)) /\
  (forall evs s,
      hasLoadedRef s = false ->
      hasLoadedRef (run_events evs s) = false /\
      dirtyRef (run_events evs s) = dirtyRef s /\
      saveTimerRef (run_events evs s) = saveTimerRef s /\
      remoteCalls (env (run_events evs s)) = remoteCalls (env s) /\
      remoteTable (env (run_events evs s)) = remoteTable (env s)) /\
  (forall s ms outcome,
      hasLoadedRef (handleSignedOut s) = false /\
      scheduleSave (render (handleSignedOut s)) ms (handleSignedOut s) = handleSignedOut s /\
      flushNow outcome (handleSignedOut s) = handleSignedOut s /\
      changeEffect (handleSignedOut s) = handleSignedOut s).
Proof.
  split; [|split].
  - intros c ms outcome s [H|H].
    + repeat split.
      * apply scheduleSave_not_loaded, H.
      * apply saveNow_not_loaded, H.
      * apply saveNow_begin_not_loaded, H.
    + repeat split.
      * apply scheduleSave_no_user, H.
      * apply saveNow_no_user, H.
      * apply saveNow_begin_no_user, H.
  - intros evs s H.
    pose proof (sched_view_run_events evs s H) as Hv.
    unfold sched_view in Hv. inversion Hv as [[H1 H2 H3 H4 H5]].
    rewrite H1, H2, H3, H4, H5. repeat split. exact H.
  - intros s ms outcome. split; [reflexivity|].
    split; [apply scheduleSave_not_loaded; reflexivity|].
    split; [apply saveNow_not_loaded; reflexivity|].
    apply changeEffect_not_loaded; reflexivity.
Qed.

Lemma load_gating_witness :
  hasLoadedRef initial_app = false /\
  (scheduleSave (render loaded_app) 250 initial_app = initial_app /\
   saveNow (render loaded_app) RemoteOk initial_app = initial_app /\
   saveNow_begin (render loaded_app) initial_app = (initial_app, None)) /\
  remoteCalls (env (run_events
                      [EvOp (OpUpdateTitle (js "i1") (js "Coat")); EvFlush RemoteOk;
                       EvTimer 1%positive RemoteOk] initial_app)) = [].
Proof.
  destruct load_gating as (Hcall & Htrace & _).
  assert (H : hasLoadedRef initial_app = false) by reflexivity.
  split; [exact H|]. split.
  - apply Hcall. left; exact H.
  - destruct (Htrace [EvOp (OpUpdateTitle (js "i1") (js "Coat")); EvFlush RemoteOk;
                      EvTimer 1%positive RemoteOk] initial_app H) as (_ & _ & _ & Hc & _).
    exact Hc.
Defined.

(** ** The save scheduler after the load *)

(** When [saveNow] gets past its guards. *)
Lemma saveNow_begin_issues c s uid :
  r_user c = Some uid -> truthy uid = true ->
  hasLoadedRef s = true -> dirtyRef s = true ->
  saveNow_begin c s =
    (let s1 := match saveTimerRef s with
               | Some h => set_saveTimerRef None (clearTimeout h s)
               | None => s
               end in
     set_env (fun e => mkEnv (timers e) (nextHandle e) (localStorage e)
                             (storageFails e) (remoteTable e)
                             (remoteCalls e ++ [mkSaveCall uid (r_items c) (r_customFields c)])
                             (toasts e) (clock e)) (set_isSaving true s1),
     Some (mkSaveCall uid (r_items c) (r_customFields c))).
Proof.
  intros Hu Ht Hl Hd. unfold saveNow_begin. rewrite Hu, Ht, Hl, Hd. reflexivity.
Qed.

Lemma saveNow_begin_inv c s s1 call :
  saveNow_begin c s = (s1, Some call) ->
  exists uid, r_user c = Some uid /\ truthy uid = true /\
              hasLoadedRef s = true /\ dirtyRef s = true /\
              call = mkSaveCall uid (r_items c) (r_customFields c).
Proof.
  unfold saveNow_begin. destruct (r_user c) as [uid|]; [|discriminate].
  destruct (truthy uid) eqn:Ht; [|discriminate].
  destruct (hasLoadedRef s); [|discriminate].
  destruct (dirtyRef s); [|discriminate].
  cbn. intros H. inversion H; subst. exists uid.
  repeat split; try reflexivity. exact Ht.
Qed.








(** The continuation of [saveNow] after a failed request touches only the
    toasts and the saving indicator, whatever happened during the wait. *)
Lemma saveNow_end_failure message s :
  items (saveNow_end (Some message) s) = items s /\
  customFields (saveNow_end (Some message) s) = customFields s /\
  dirtyRef (saveNow_end (Some message) s) = dirtyRef s /\
  localStorage (env (saveNow_end (Some message) s)) = localStorage (env s) /\
  remoteTable (env (saveNow_end (Some message) s)) = remoteTable (env s).
Proof. repeat split. Qed.

(** ** Debounce *)

Lemma timers_wf_cleared s :
  timers_wf s ->
  timers (env (match saveTimerRef s with
               | Some h => clearTimeout h s
               | None => s
               end)) = [].
Proof.
  unfold timers_wf. intros Hwf.
  destruct (saveTimerRef s) as [h|] eqn:Eh.
  - cbn. destruct (List.filter _ _) as [|[k cb] r] eqn:Ef; [reflexivity|].
    assert (Hin : In (k, cb) (List.filter (fun t => negb (Pos.eqb (fst t) h)) (timers (env s)))).
    { rewrite Ef. left; reflexivity. }
    apply filter_In in Hin. destruct Hin as [Hin Hne].
    apply Hwf in Hin. inversion Hin; subst. cbn in Hne.
    rewrite Pos.eqb_refl in Hne. discriminate.
  - destruct (timers (env s)) as [|[k cb] r]; [reflexivity|].
    specialize (Hwf k cb (or_introl eq_refl)). discriminate.
Qed.

(** [scheduleSave] after the load: the flag is set, and the one pending
    timer is the new one, which will call the [saveNow] of render [c]. *)
Lemma scheduleSave_loaded c ms s :
  has_user (r_user c) = true -> hasLoadedRef s = true -> timers_wf s ->
  scheduleSave c ms s =
  mkApp (user s) (items s) (customFields s) (editingItem s) (isSaving s) true true
        (Some (nextHandle (env s)))
        (mkEnv [(nextHandle (env s), mkCallback c Debounced ms)]
               (Pos.succ (nextHandle (env s))) (localStorage (env s))
               (storageFails (env s)) (remoteTable (env s)) (remoteCalls (env s))
               (toasts (env s)) (clock (env s))).
Proof.
  intros Hu Hl Hwf. unfold scheduleSave. rewrite Hu, Hl. cbn [negb orb].
  pose proof (timers_wf_cleared s Hwf) as Hc.
  destruct s as [u its cfs ed sv ld dr ref e]. cbn in *. subst ld.
  destruct ref as [h|]; cbn in *;
    unfold set_saveTimerRef, set_env, clearTimeout, set_dirtyRef; cbn;
    rewrite Hc; reflexivity.
Qed.

Lemma writeCache_view c its cfs s :
  user (writeCache c its cfs s) = user s /\
  items (writeCache c its cfs s) = items s /\
  customFields (writeCache c its cfs s) = customFields s /\
  hasLoadedRef (writeCache c its cfs s) = hasLoadedRef s /\
  dirtyRef (writeCache c its cfs s) = dirtyRef s /\
  saveTimerRef (writeCache c its cfs s) = saveTimerRef s /\
  timers (env (writeCache c its cfs s)) = timers (env s) /\
  remoteCalls (env (writeCache c its cfs s)) = remoteCalls (env s).
Proof.
  unfold writeCache. destruct (negb (has_user (r_user c))); [repeat split|].
  destruct (storageFails (env s)); repeat split.
Qed.

Lemma timers_wf_writeCache c its cfs s :
  timers_wf s -> timers_wf (writeCache c its cfs s).
Proof.
  unfold timers_wf. intros Hwf h cb.
  destruct (writeCache_view c its cfs s) as (_ & _ & _ & _ & _ & Hr & Ht & _).
  rewrite Hr, Ht. apply Hwf.
Qed.


Lemma armed_wf uid s : armed uid s -> timers_wf s.
Proof.
  intros (_ & _ & _ & h & Hr & Ht) k cb Hin. rewrite Ht in Hin.
  destruct Hin as [Hin|[]]. inversion Hin; subst. exact Hr.
Qed.

Lemma changeEffect_loaded uid s :
  user s = Some uid -> truthy uid = true -> hasLoadedRef s = true -> timers_wf s ->
  armed uid (changeEffect s) /\
  items (changeEffect s) = items s /\
  customFields (changeEffect s) = customFields s /\
  remoteCalls (env (changeEffect s)) = remoteCalls (env s).
Proof.
  intros Hu Ht Hl Hwf.
  assert (Hhas : has_user (user s) = true) by (rewrite Hu; exact Ht).
  unfold changeEffect. rewrite Hhas, Hl. cbn [negb orb].
  destruct (writeCache_view (render s) (items s) (customFields s) s)
    as (Wu & Wi & Wc & Wl & _ & _ & _ & Wr).
  rewrite scheduleSave_loaded.
  - cbn. rewrite Wu, Wi, Wc, Wr. unfold armed. cbn.
    repeat split; try assumption.
    eexists. split; [reflexivity|].
    unfold render. cbn. reflexivity.
  - exact Hhas.
  - rewrite Wl. exact Hl.
  - apply timers_wf_writeCache, Hwf.
Qed.

Lemma run_op_debounced_shape op s :
  is_debounced op = true ->
  exists ms, run_op op s
             = changeEffect (scheduleSave (render s) ms (set_items (op_items op) s)).
Proof.
  destruct op; try discriminate; intros _; cbn [run_op op_items].
  - exists 300%nat. reflexivity.
  - exists 250%nat. reflexivity.
  - exists 250%nat. reflexivity.
  - exists 250%nat. reflexivity.
  - exists 250%nat. reflexivity.
Qed.

(** One debounced operation: the handler re-arms the timer with the
    callback of the render it ran in, and the effect of the next render
    replaces that timer by one that carries the new snapshot. *)
Lemma run_op_debounced op s uid :
  is_debounced op = true ->
  user s = Some uid -> truthy uid = true -> hasLoadedRef s = true -> timers_wf s ->
  armed uid (run_op op s) /\
  items (run_op op s) = op_items op (items s) /\
  customFields (run_op op s) = customFields s /\
  remoteCalls (env (run_op op s)) = remoteCalls (env s).
Proof.
  intros Hop Hu Ht Hl Hwf.
  destruct (run_op_debounced_shape op s Hop) as [ms Hshape]. rewrite Hshape.
  assert (Hhas : has_user (r_user (render s)) = true) by (cbn; rewrite Hu; exact Ht).
  assert (Hwf1 : timers_wf (set_items (op_items op) s)) by exact Hwf.
  rewrite (scheduleSave_loaded (render s) ms (set_items (op_items op) s) Hhas Hl Hwf1).
  match goal with |- context [changeEffect ?x] => set (s1 := x) end.
  assert (Hwf2 : timers_wf s1).
  { intros k cb Hin. cbn in Hin. destruct Hin as [Hin|[]].
    inversion Hin; subst. reflexivity. }
  destruct (changeEffect_loaded uid s1 Hu Ht eq_refl Hwf2) as (Ha & Hi & Hc & Hr).
  split; [exact Ha|]. split; [exact Hi|]. split; [exact Hc|exact Hr].
Qed.

Lemma run_ops_debounced ops : forall s uid,
  Forall (fun op => is_debounced op = true) ops ->
  user s = Some uid -> truthy uid = true -> hasLoadedRef s = true -> timers_wf s ->
  user (run_ops ops s) = Some uid /\
  hasLoadedRef (run_ops ops s) = true /\
  timers_wf (run_ops ops s) /\
  (ops <> [] -> armed uid (run_ops ops s)) /\
  items (run_ops ops s) = fold_left (fun its op => op_items op its) ops (items s) /\
  customFields (run_ops ops s) = customFields s /\
  remoteCalls (env (run_ops ops s)) = remoteCalls (env s).
Proof.
  unfold run_ops.
  induction ops as [|op r IH]; intros s uid Hall Hu Ht Hl Hwf; cbn [fold_left].
  - split; [exact Hu|]. split; [exact Hl|]. split; [exact Hwf|].
    split; [intros Hne; contradiction|]. repeat split.
  - inversion Hall as [|? ? Hop Hrest]; subst.
    destruct (run_op_debounced op s uid Hop Hu Ht Hl Hwf) as (Ha & Hi & Hc & Hr).
    pose proof Ha as (Hu1 & Hl1 & _).
    destruct (IH (run_op op s) uid Hrest Hu1 Ht Hl1 (armed_wf _ _ Ha))
      as (Ju & Jl & Jwf & Ja & Ji & Jc & Jr).
    split; [exact Ju|]. split; [exact Jl|]. split; [exact Jwf|].
    split.
    + intros _. destruct r as [|op' r'].
      * cbn [fold_left]. exact Ha.
      * apply Ja. discriminate.
    + rewrite Ji, Jc, Jr, Hi, Hc, Hr. repeat split.
Qed.

(** When the armed timer expires, one request goes out, with the current
    snapshot, and nothing is left pending. *)
Lemma fireTimer_armed uid s h outcome :
  armed uid s -> truthy uid = true -> saveTimerRef s = Some h ->
  remoteCalls (env (fireTimer h outcome s))
  = remoteCalls (env s) ++ [mkSaveCall uid (items s) (customFields s)] /\
  timers (env (fireTimer h outcome s)) = [] /\
  saveTimerRef (fireTimer h outcome s) = None.
Proof.
  intros (Hu & Hl & Hd & h' & Hr & Htm) Ht Hh.
  rewrite Hr in Hh. inversion Hh; subst h'.
  unfold fireTimer. rewrite Htm. cbn [timer_lookup]. rewrite Pos.eqb_refl.
  cbn [cb_closure]. unfold saveNow.
  rewrite (saveNow_begin_issues (render s) (clearTimeout h s) uid); try assumption.
  destruct s as [u its cfs ed sv ld dr ref [tm nh ls sf rt rc ts ck]].
  unfold render in *. cbn in *. subst.
  unfold deliver, saveInventoryData, request, upsert.
  destruct outcome; cbn; [destruct (rt !! uid)|];
    cbn; rewrite ?Pos.eqb_refl; cbn; repeat split.
Qed.

(** *** A burst with failed answers in between *)








(** The concrete run: three edits, one request, with the last title. *)
Example debounce_run :
  map call_inventory
    (remoteCalls (env (run_events
       [EvOp (OpUpdateQuantity (js "i1") (js "v1") 5);
        EvOp (OpUpdateQuantity (js "i1") (js "v1") 6);
        EvOp (OpUpdateTitle (js "i1") (js "Coat"));
        EvTimer 6%positive RemoteOk] loaded_app)))
  = [[mkItem (js "i1") (js "A1") (js "Coat") None
             [mkVariant (js "v1") (js "M") true 6 (js "R1")] None]].
Proof. vm_compute. reflexivity. Qed.

(** ** Import errors *)

Section ImportPolicy.

Variable variantId : nat -> jstring.
Variable importId : nat -> jstring.

Lemma parseRow_short st index line :
  is_short line = true ->
  parseRow variantId st index line
  = mkParseState (itemsMap st) (idsUsed st)
                 (console st ++ [WarnRowSkipped (index + 2)]).
Proof. unfold is_short, parseRow. intros H. rewrite H. reflexivity. Qed.

(** The items and the identifiers used do not depend on the row index or on
    what was logged before. *)
Lemma parseRow_items st st' i j line :
  itemsMap st = itemsMap st' -> idsUsed st = idsUsed st' ->
  itemsMap (parseRow variantId st i line) = itemsMap (parseRow variantId st' j line) /\
  idsUsed (parseRow variantId st i line) = idsUsed (parseRow variantId st' j line).
Proof.
  intros Hm Hn. unfold parseRow.
  destruct (length (tokenize line) <? 6)%nat; [split; assumption|].
  destruct (tokenize line) as [|sku [|title [|sizeStr [|inStockStr [|quantityStr [|location more]]]]]];
    try (split; assumption).
  rewrite <- Hm, <- Hn.
  destruct (map_has (trim sku) (itemsMap st)); split; reflexivity.
Qed.

Lemma parseRows_items lines : forall st st' i j,
  itemsMap st = itemsMap st' -> idsUsed st = idsUsed st' ->
  itemsMap (parseRows variantId st i lines) = itemsMap (parseRows variantId st' j lines).
Proof.
  induction lines as [|line r IH]; intros st st' i j Hm Hn; cbn [parseRows].
  - exact Hm.
  - destruct (parseRow_items st st' i j line Hm Hn) as [Hm' Hn'].
    apply IH; assumption.
Qed.

Lemma parseRows_app before : forall st index after,
  parseRows variantId st index (before ++ after)
  = parseRows variantId (parseRows variantId st index before)
              (index + length before) after.
Proof.
  induction before as [|line r IH]; intros st index after; cbn [parseRows app length].
  - rewrite Nat.add_0_r. reflexivity.
  - rewrite IH. f_equal. lia.
Qed.

(** A malformed row is dropped: the items are those of the file without it. *)
Lemma parseRows_skip before line after st index :
  is_short line = true ->
  itemsMap (parseRows variantId st index (before ++ line :: after))
  = itemsMap (parseRows variantId st index (before ++ after)).
Proof.
  intros Hshort. rewrite !parseRows_app. cbn [parseRows].
  apply parseRows_items; rewrite (parseRow_short _ _ _ Hshort); reflexivity.
Qed.

(** One warning per malformed row, and none for the others. *)
Lemma parseRow_console st index line :
  length (console (parseRow variantId st index line))
  = (length (console st) + (if is_short line then 1 else 0))%nat.
Proof.
  unfold parseRow, is_short.
  destruct (length (tokenize line) <? 6)%nat.
  - cbn. rewrite length_app. reflexivity.
  - destruct (tokenize line) as [|sku [|title [|sizeStr [|inStockStr [|quantityStr [|location more]]]]]];
      try (cbn; lia).
    destruct (map_has (trim sku) (itemsMap st)); cbn; lia.
Qed.

Lemma parseRows_console lines : forall st index,
  length (console (parseRows variantId st index lines))
  = (length (console st) + length (List.filter is_short lines))%nat.
Proof.
  induction lines as [|line r IH]; intros st index; cbn [parseRows List.filter].
  - cbn. lia.
  - rewrite IH, parseRow_console. destruct (is_short line); cbn; lia.
Qed.

(** The warnings themselves: each malformed row writes its position among
    the non-blank lines. *)
Lemma parseRow_warnings st index line :
  console (parseRow variantId st index line)
  = console st ++ (if is_short line then [WarnRowSkipped (index + 2)] else []).
Proof.
  unfold parseRow, is_short.
  destruct (length (tokenize line) <? 6)%nat; [reflexivity|].
  destruct (tokenize line) as [|sku [|title [|sizeStr [|inStockStr [|quantityStr [|location more]]]]]];
    try (symmetry; apply app_nil_r).
  destruct (map_has (trim sku) (itemsMap st)); cbn; symmetry; apply app_nil_r.
Qed.

Lemma parseRows_warnings lines : forall st index,
  console (parseRows variantId st index lines)
  = console st ++ skipped_warnings index lines.
Proof.
  induction lines as [|line r IH]; intros st index; cbn [parseRows skipped_warnings].
  - symmetry. apply app_nil_r.
  - rewrite IH, parseRow_warnings, <- app_assoc. reflexivity.
Qed.

Lemma parseRows_all_short lines : forall st index,
  forallb is_short lines = true ->
  itemsMap (parseRows variantId st index lines) = itemsMap st.
Proof.
  induction lines as [|line r IH]; intros st index Hall; cbn [parseRows].
  - reflexivity.
  - cbn in Hall. apply andb_true_iff in Hall. destruct Hall as [Hl Hr].
    rewrite IH by exact Hr. rewrite (parseRow_short _ _ _ Hl). reflexivity.
Qed.

(** C5, as amended (import error policy).  (a) A text with fewer than two
    non-blank lines makes [parseCSV] throw "empty or malformed", which the
    dialog reports, leaving the application as it was.  (b) A data row with
    fewer than six fields is skipped without a retained count: it adds one
    console warning and nothing else, the items are those of the same rows
    without it, and the console holds exactly one warning per such row, in
    order, each carrying the row's position among the non-blank lines of
    the file (the header being number 1), which is not its line number when
    a blank line comes before it.  (c) A text whose data rows produce no
    item, as one whose data rows are all malformed does, ends the import
    with the error "no valid data" and leaves the application as it was. *)
Theorem import_error_policy (text : jstring) (d : Dialog) (s : App) :
  selectedFile d = Some text ->
  ((length (nonblank_lines text) < 2)%nat ->
   parseCSV variantId text = inl EmptyOrMalformed /\
   handleImport variantId importId d s
   = (mkDialog (Some text) (Some EmptyOrMalformed) (isOpen d), s)) /\
  (forall st index before line after,
      is_short line = true ->
      parseRow variantId st index line
      = mkParseState (itemsMap st) (idsUsed st)
                     (console st ++ [WarnRowSkipped (index + 2)]) /\
      itemsMap (parseRows variantId st index (before ++ line :: after))
      = itemsMap (parseRows variantId st index (before ++ after))) /\
  ((2 <= length (nonblank_lines text))%nat ->
   length (parseCSV_console variantId text)
   = length (List.filter is_short (tl (nonblank_lines text)))) /\
  ((2 <= length (nonblank_lines text))%nat ->
   parseCSV_console variantId text
   = skipped_warnings 0 (tl (nonblank_lines text))) /\
  ((2 <= length (nonblank_lines text))%nat ->
   forallb is_short (tl (nonblank_lines text)) = true ->
   parseCSV variantId text = inr []) /\
  (parseCSV variantId text = inr [] ->
   handleImport variantId importId d s
   = (mkDialog (Some text) (Some NoValidData) (isOpen d), s)).
Proof.
  intros Hfile.
  split; [|split; [|split; [|split; [|split]]]].
  - intros Hlen.
    assert (Hp : parseCSV variantId text = inl EmptyOrMalformed).
    { unfold parseCSV, parseCSV_run.
      destruct (Nat.ltb_spec (length (nonblank_lines text)) 2); [reflexivity|lia]. }
    split; [exact Hp|].
    unfold handleImport. rewrite Hfile, Hp. reflexivity.
  - intros st index before line after Hshort. split.
    + apply parseRow_short, Hshort.
    + apply parseRows_skip, Hshort.
  - intros Hlen. unfold parseCSV_console, parseCSV_run.
    destruct (Nat.ltb_spec (length (nonblank_lines text)) 2); [lia|].
    rewrite parseRows_console. reflexivity.
  - intros Hlen. unfold parseCSV_console, parseCSV_run.
    destruct (Nat.ltb_spec (length (nonblank_lines text)) 2); [lia|].
    rewrite parseRows_warnings. reflexivity.
  - intros Hlen Hall. unfold parseCSV, parseCSV_run.
    destruct (Nat.ltb_spec (length (nonblank_lines text)) 2); [lia|].
    rewrite parseRows_all_short by exact Hall. reflexivity.
  - intros Hp. unfold handleImport. rewrite Hfile, Hp. reflexivity.
Qed.

End ImportPolicy.

Lemma import_error_policy_witness :
  (selectedFile (mkDialog (Some (js "SKU,TITLE")) None true) = Some (js "SKU,TITLE") /\
   (length (nonblank_lines (js "SKU,TITLE")) < 2)%nat /\
   parseCSV sample_id (js "SKU,TITLE") = inl EmptyOrMalformed /\
   handleImport sample_id sample_id (mkDialog (Some (js "SKU,TITLE")) None true) loaded_app
   = (mkDialog (Some (js "SKU,TITLE")) (Some EmptyOrMalformed) true, loaded_app)) /\
  (selectedFile (mkDialog (Some blank_then_short_text) None true)
   = Some blank_then_short_text /\
   (2 <= length (nonblank_lines blank_then_short_text))%nat /\
   nth_error (split chr_newline blank_then_short_text) 3 = Some (js "A2,Coat,L,true") /\
   is_short (js "A2,Coat,L,true") = true /\
   parseCSV_console sample_id blank_then_short_text = [WarnRowSkipped 3] /\
   itemsMap (parseRows sample_id (mkParseState [] 0 []) 0
               ([js "A1,Shirt,M,true,10,R1,"] ++ js "A2,Coat,L,true" :: []))
   = itemsMap (parseRows sample_id (mkParseState [] 0 []) 0
                 ([js "A1,Shirt,M,true,10,R1,"] ++ []))) /\
  (selectedFile (mkDialog (Some all_short_text) None true) = Some all_short_text /\
   (2 <= length (nonblank_lines all_short_text))%nat /\
   forallb is_short (tl (nonblank_lines all_short_text)) = true /\
   parseCSV sample_id all_short_text = inr [] /\
   handleImport sample_id sample_id (mkDialog (Some all_short_text) None true) loaded_app
   = (mkDialog (Some all_short_text) (Some NoValidData) true, loaded_app)).
Proof.
  split; [|split].
  - assert (Hf : selectedFile (mkDialog (Some (js "SKU,TITLE")) None true)
                 = Some (js "SKU,TITLE")) by reflexivity.
    assert (Hl : (length (nonblank_lines (js "SKU,TITLE")) < 2)%nat) by (vm_compute; lia).
    split; [exact Hf|]. split; [exact Hl|].
    destruct (import_error_policy sample_id sample_id (js "SKU,TITLE")
                (mkDialog (Some (js "SKU,TITLE")) None true) loaded_app Hf) as (Ha & _).
    exact (Ha Hl).
  - assert (Hf : selectedFile (mkDialog (Some blank_then_short_text) None true)
                 = Some blank_then_short_text) by reflexivity.
    assert (Hl : (2 <= length (nonblank_lines blank_then_short_text))%nat)
      by (vm_compute; lia).
    assert (Hs : is_short (js "A2,Coat,L,true") = true) by (vm_compute; reflexivity).
    split; [exact Hf|]. split; [exact Hl|].
    split; [vm_compute; reflexivity|]. split; [exact Hs|].
    destruct (import_error_policy sample_id sample_id blank_then_short_text
                (mkDialog (Some blank_then_short_text) None true) loaded_app Hf)
      as (_ & Hb & _ & Hw & _).
    split.
    + rewrite (Hw Hl). vm_compute. reflexivity.
    + exact (proj2 (Hb (mkParseState [] 0 []) 0%nat [js "A1,Shirt,M,true,10,R1,"]
                       (js "A2,Coat,L,true") [] Hs)).
  - assert (Hf : selectedFile (mkDialog (Some all_short_text) None true)
                 = Some all_short_text) by reflexivity.
    assert (Hl : (2 <= length (nonblank_lines all_short_text))%nat) by (vm_compute; lia).
    assert (Hs : forallb is_short (tl (nonblank_lines all_short_text)) = true)
      by (vm_compute; reflexivity).
    split; [exact Hf|]. split; [exact Hl|]. split; [exact Hs|].
    destruct (import_error_policy sample_id sample_id all_short_text
                (mkDialog (Some all_short_text) None true) loaded_app Hf)
      as (_ & _ & _ & _ & Hc & Hd).
    split; [exact (Hc Hl Hs) | exact (Hd (Hc Hl Hs))].
Defined.

(** C5 as stated asks for a retained count of the skipped rows.
    Two files that differ in how many rows are skipped (one against two, as
    the console shows) give the same items and leave the dialog and the
    application in the same state: nothing that is kept tells them apart. *)
Lemma import_retains_no_skip_count :
  parseCSV_console sample_id skip_text_one = [WarnRowSkipped 3] /\
  parseCSV_console sample_id skip_text_two = [WarnRowSkipped 3; WarnRowSkipped 4] /\
  parseCSV sample_id skip_text_one = parseCSV sample_id skip_text_two /\
  handleImport sample_id sample_id (mkDialog (Some skip_text_one) None true) loaded_app
  = handleImport sample_id sample_id (mkDialog (Some skip_text_two) None true) loaded_app.
Proof. vm_compute. repeat split. Qed.

(** ** The variant floor *)

(** A delete aimed at the only variant of an item returns the item as it
    is, and raises the "cannot delete" toast. *)
Lemma delete_sole_variant itemId variantId item :
  length (it_variants item) = 1%nat ->
  deleteVariant_item itemId variantId item = item /\
  (it_id item = itemId ->
   deleteVariant_toast itemId item = [mkToast CannotDelete Destructive]).
Proof.
  intros Hlen. unfold deleteVariant_item, deleteVariant_toast. rewrite Hlen. cbn.
  destruct (jstring_eqb (it_id item) itemId) eqn:E; cbn.
  - split; reflexivity.
  - split; [reflexivity|]. intros Hid. apply jstring_eqb_false in E. contradiction.
Qed.

(** With distinct variant identifiers, a delete leaves at least one. *)
Lemma deleteVariant_item_floor itemId variantId item :
  it_variants item <> [] ->
  NoDup (map v_id (it_variants item)) ->
  it_variants (deleteVariant_item itemId variantId item) <> [].
Proof.
  intros Hne Hnd. unfold deleteVariant_item.
  destruct (negb (jstring_eqb (it_id item) itemId)); [exact Hne|].
  destruct (length (it_variants item) <=? 1)%nat eqn:El; [exact Hne|].
  apply Nat.leb_gt in El. cbn.
  destruct (it_variants item) as [|a [|b r]]; cbn in El; try lia.
  cbn [map] in Hnd. inversion Hnd as [|? ? Ha Hnd']; subst.
  cbn [List.filter].
  destruct (jstring_eqb (v_id a) variantId) eqn:Ea; cbn [negb]; [|discriminate].
  destruct (jstring_eqb (v_id b) variantId) eqn:Eb; cbn [negb]; [|discriminate].
  apply jstring_eqb_true in Ea, Eb. exfalso. apply Ha.
  rewrite Ea, <- Eb. constructor.
Qed.

(** Both forms refuse to submit an item without a variant. *)
Lemma form_variants_length now editing valid : forall index,
  length (form_variants now editing index valid) = length valid.
Proof.
  induction valid as [|v r IH]; intros index; cbn; [reflexivity|].
  rewrite IH. reflexivity.
Qed.

Lemma quick_variants_length valid : forall index,
  length (quick_variants index valid) = length valid.
Proof.
  induction valid as [|v r IH]; intros index; cbn; [reflexivity|].
  rewrite IH. reflexivity.
Qed.

Lemma InventoryForm_handleSubmit_floor now editing sku title imageUrl variants data :
  InventoryForm_handleSubmit now editing sku title imageUrl variants = Some data ->
  fd_variants data <> [].
Proof.
  unfold InventoryForm_handleSubmit.
  destruct (length _ =? 0)%nat eqn:E; [discriminate|].
  intros H. inversion H; subst. cbn. apply Nat.eqb_neq in E.
  intros Hnil. apply E. rewrite <- (form_variants_length now editing _ 0%nat), Hnil.
  reflexivity.
Qed.

Lemma QuickAddRow_handleSubmit_floor sku title imageUrl sizes values data :
  QuickAddRow_handleSubmit sku title imageUrl sizes values = Some data ->
  fd_variants data <> [].
Proof.
  unfold QuickAddRow_handleSubmit.
  destruct (negb (truthy (trim sku))); [discriminate|].
  destruct (negb (truthy (trim title))); [discriminate|].
  destruct (length _ =? 0)%nat eqn:E; [discriminate|].
  intros H. inversion H; subst. cbn. apply Nat.eqb_neq in E.
  intros Hnil. apply E. rewrite <- (quick_variants_length _ 0%nat), Hnil.
  reflexivity.
Qed.

Lemma items_changeEffect s : items (changeEffect s) = items s.
Proof.
  unfold changeEffect.
  destruct (negb (has_user (user s)) || negb (hasLoadedRef s)); [reflexivity|].
  rewrite items_scheduleSave.
  destruct (writeCache_view (render s) (items s) (customFields s) s) as (_ & H & _).
  exact H.
Qed.

Lemma items_toasts ts : forall s,
  items (fold_left (fun acc t => toast t acc) ts s) = items s.
Proof.
  induction ts as [|t r IH]; intros s; cbn [fold_left]; [reflexivity|].
  rewrite IH. reflexivity.
Qed.

Lemma variant_floor_map f inventory :
  (forall it, it_variants it <> [] -> it_variants (f it) <> []) ->
  variant_floor inventory -> variant_floor (map f inventory).
Proof.
  unfold variant_floor. intros Hf Hall.
  induction Hall as [|it r Hit Hr IH]; cbn [map]; constructor; auto.
Qed.

Lemma variant_floor_filter f inventory :
  variant_floor inventory -> variant_floor (List.filter f inventory).
Proof.
  unfold variant_floor. intros Hall.
  induction Hall as [|it r Hit Hr IH]; cbn [List.filter]; [constructor|].
  destruct (f it); [constructor|]; assumption.
Qed.

(** Every operation on the table and the forms keeps the floor; the delete
    relies on the variant identifiers of an item being distinct. *)
Lemma variant_floor_run_op op s :
  variant_floor (items s) ->
  (forall itemId variantId, op = OpDeleteVariant itemId variantId ->
                            distinct_variant_ids (items s)) ->
  variant_floor (items (run_op op s)).
Proof.
  intros Hfloor Hids.
  assert (Hmap : forall f, (forall it, it_variants it <> [] -> it_variants (f it) <> []) ->
                           variant_floor (map f (items s))).
  { intros f Hf. apply variant_floor_map; assumption. }
  assert (Hnil : forall (A : Type) (l : list A) (x : A), l ++ [x] <> []).
  { intros A l x H. apply app_eq_nil in H. destruct H; discriminate. }
  assert (Hmapnil : forall (A B : Type) (g : A -> B) (l : list A), l <> [] -> map g l <> []).
  { intros A B g l Hl. destruct l; [contradiction|discriminate]. }
  assert (Hadd : forall now data, fd_variants data <> [] ->
                   variant_floor (items s ++ [addItem_new now data])).
  { intros now data Hd. unfold variant_floor. apply Forall_app. split; [exact Hfloor|].
    constructor; [exact Hd|constructor]. }
  destruct op; cbn [run_op].
  - destruct (InventoryForm_handleSubmit _ _ _ _ _ _) as [data|] eqn:Ef; [|exact Hfloor].
    apply InventoryForm_handleSubmit_floor in Ef.
    destruct (editingItem s) as [e|] eqn:Ee; rewrite items_changeEffect.
    + unfold handleEditItem. rewrite Ee. cbn.
      apply Hmap. intros it Hit. destruct (jstring_eqb _ _); [exact Ef|exact Hit].
    + cbn. apply Hadd, Ef.
  - destruct (QuickAddRow_handleSubmit _ _ _ _ _) as [data|] eqn:Ef; [|exact Hfloor].
    apply QuickAddRow_handleSubmit_floor in Ef.
    rewrite items_changeEffect. cbn. apply Hadd, Ef.
  - rewrite items_changeEffect. cbn. apply variant_floor_filter, Hfloor.
  - rewrite items_changeEffect. unfold handleImageUpload. rewrite items_scheduleSave. cbn.
    apply Hmap. intros it Hit. destruct (jstring_eqb _ _); exact Hit.
  - rewrite items_changeEffect. unfold handleUpdateQuantity.
    rewrite items_scheduleSave. cbn. unfold updateQuantity.
    apply Hmap. intros it Hit. destruct (negb _); [exact Hit|]. cbn.
    apply Hmapnil, Hit.
  - rewrite items_changeEffect. unfold handleUpdateLocation.
    rewrite items_scheduleSave. cbn. unfold updateLocation.
    apply Hmap. intros it Hit. destruct (negb _); [exact Hit|]. cbn.
    apply Hmapnil, Hit.
  - rewrite items_changeEffect. unfold handleUpdateSKU.
    rewrite items_scheduleSave. cbn. unfold updateSKU.
    apply Hmap. intros it Hit. destruct (jstring_eqb _ _); exact Hit.
  - rewrite items_changeEffect. unfold handleUpdateTitle.
    rewrite items_scheduleSave. cbn. unfold updateTitle.
    apply Hmap. intros it Hit. destruct (jstring_eqb _ _); exact Hit.
  - rewrite items_changeEffect. cbn. unfold addVariant.
    apply Hmap. intros it Hit. destruct (negb _); [exact Hit|]. cbn. apply Hnil.
  - rewrite items_changeEffect. unfold handleDeleteVariant, saveSoon, setTimeout.
    cbn [snd]. rewrite items_set_env, items_toasts. cbn. unfold deleteVariant.
    specialize (Hids _ _ eq_refl). unfold variant_floor, distinct_variant_ids in *.
    rewrite List.Forall_forall in Hfloor, Hids. apply List.Forall_forall.
    intros it Hin. apply in_map_iff in Hin. destruct Hin as (old & <- & Hold).
    apply deleteVariant_item_floor; [apply Hfloor|apply Hids]; exact Hold.
Qed.

(** C1 (variant floor) fails on the import path.  A file whose data row has
    an empty SIZE column is parsed into an item with no variant at all, and
    [handleImport] appends that item to the inventory. *)
Theorem csv_import_item_without_variants (variantId importId : nat -> jstring) :
  parseCSV variantId no_size_text
  = inr [mkFormData (js "A1") (js "Shirt") None [] None] /\
  error (fst (handleImport variantId importId
                (mkDialog (Some no_size_text) None true) loaded_app)) = None /\
  items (snd (handleImport variantId importId
                (mkDialog (Some no_size_text) None true) loaded_app))
  = [sample_item; mkItem (importId 0%nat) (js "A1") (js "Shirt") None [] None].
Proof. vm_compute. repeat split. Qed.

(** ** Printing and reading a quantity *)

Lemma parse_digits_uint d : forall acc,
  parse_digits 10 (uint_chars d) (Some acc) = Some (uint_val d acc).
Proof.
  unfold uint_chars.
  induction d; intros acc; cbn [NilEmpty.string_of_uint list_ascii_of_string uint_val];
    try reflexivity;
    cbn [parse_digits]; (cbv - [parse_digits uint_val Z.mul Z.add list_ascii_of_string NilEmpty.string_of_uint]; cbn [default];
    apply IHd).
Qed.

Lemma uint_val_of_uint_acc d : forall acc,
  uint_val d (Z.pos acc) = Z.pos (Pos.of_uint_acc d acc).
Proof.
  induction d; intros acc; cbn [uint_val Pos.of_uint_acc]; try reflexivity;
    rewrite <- IHd; f_equal; lia.
Qed.

Lemma uint_val_of_uint d : uint_val d 0 = Z.of_N (Pos.of_uint d).
Proof.
  induction d; cbn [uint_val Pos.of_uint]; try reflexivity;
    try exact IHd;
    cbn [Z.of_N]; rewrite <- uint_val_of_uint_acc; reflexivity.
Qed.

Lemma uint_val_to_uint p : uint_val (Pos.to_uint p) 0 = Z.pos p.
Proof. rewrite uint_val_of_uint, DecimalPos.Unsigned.of_to. reflexivity. Qed.

(** A numeral starts with a digit: [parseInt] finds no white space, no sign
    and no [0x] prefix in front of it. *)
Lemma parseInt_uint_chars d :
  d <> Decimal.Nil ->
  parseInt (uint_chars d) = Some (uint_val d 0) /\
  parseInt ("-"%char :: uint_chars d) = Some (- uint_val d 0).
Proof.
  intros Hd.
  assert (Hdigits : parse_digits 10 (uint_chars d) None = Some (uint_val d 0)).
  { destruct d; try contradiction;
      unfold uint_chars;
      cbn [NilEmpty.string_of_uint list_ascii_of_string parse_digits uint_val];
      apply (parse_digits_uint d). }
  assert (Hshape : parseInt (uint_chars d)
                   = option_map (Z.mul 1) (parse_digits 10 (uint_chars d) None) /\
                   parseInt ("-"%char :: uint_chars d)
                   = option_map (Z.mul (-1)) (parse_digits 10 (uint_chars d) None)).
  { unfold uint_chars.
    destruct d as [|l|l|l|l|l|l|l|l|l|l]; try contradiction;
      destruct l; split; reflexivity. }
  destruct Hshape as [H1 H2]. rewrite H1, H2, Hdigits. cbn [option_map].
  split; f_equal; lia.
Qed.

Lemma parseInt_string_of_Z (n : Z) : parseInt (string_of_Z n) = Some n.
Proof.
  unfold string_of_Z. destruct n as [|p|p]; cbn [Z.to_int NilZero.string_of_int].
  - reflexivity.
  - pose proof (DecimalPos.Unsigned.to_uint_nonnil p) as Hn.
    destruct (parseInt_uint_chars _ Hn) as [H _].
    unfold uint_chars in H. unfold NilZero.string_of_uint.
    destruct (Pos.to_uint p) eqn:E; try contradiction;
      rewrite H, <- E, uint_val_to_uint; reflexivity.
  - pose proof (DecimalPos.Unsigned.to_uint_nonnil p) as Hn.
    destruct (parseInt_uint_chars _ Hn) as [_ H].
    unfold uint_chars in H. unfold NilZero.string_of_uint.
    cbn [list_ascii_of_string].
    destruct (Pos.to_uint p) eqn:E; try contradiction;
      rewrite H, <- E, uint_val_to_uint; reflexivity.
Qed.

(** ** White space and separators *)

Lemma trimStart_id (s : jstring) :
  match s with [] => True | c :: _ => is_ws c = false end -> trimStart s = s.
Proof. destruct s as [|c r]; cbn; [reflexivity|]. intros H; rewrite H; reflexivity. Qed.

Lemma trim_id (s : jstring) :
  Forall (fun c => is_ws c = false) s -> trim s = s.
Proof.
  intros Hall. unfold trim, trimEnd.
  assert (H1 : trimStart s = s).
  { apply trimStart_id. destruct Hall; [exact I|assumption]. }
  rewrite H1.
  assert (H2 : trimStart (rev s) = rev s).
  { apply trimStart_id. apply List.Forall_rev in Hall.
    destruct Hall; [exact I|assumption]. }
  rewrite H2. apply rev_involutive.
Qed.

Lemma In_trimStart_keep (c : ascii) (s : jstring) :
  In c s -> is_ws c = false -> In c (trimStart s).
Proof.
  intros Hin Hc. induction s as [|a r IH]; [contradiction|]. cbn.
  destruct (is_ws a) eqn:Ea; [|exact Hin].
  destruct Hin as [->|Hin]; [congruence|]. apply IH, Hin.
Qed.

Lemma In_trim_keep (c : ascii) (s : jstring) :
  In c s -> is_ws c = false -> In c (trim s).
Proof.
  intros Hin Hc. unfold trim, trimEnd.
  rewrite <- in_rev. apply In_trimStart_keep; [|exact Hc].
  rewrite <- in_rev. apply In_trimStart_keep; assumption.
Qed.

Lemma truthy_trim_comma (s : jstring) : In chr_comma s -> truthy (trim s) = true.
Proof.
  intros Hin. pose proof (In_trim_keep chr_comma s Hin eq_refl) as H.
  destruct (trim s); [contradiction|reflexivity].
Qed.

Lemma plain_char_spec c :
  plain_char c = true -> c <> chr_comma /\ c <> chr_quote /\ c <> chr_newline.
Proof.
  unfold plain_char. rewrite !andb_true_iff, !negb_true_iff.
  intros [[H1 H2] H3]. repeat split; apply ascii_eqb_false; assumption.
Qed.

Lemma plain_no_newline s : plain s = true -> no_newline s = true.
Proof.
  unfold plain, no_newline. rewrite !forallb_forall. intros H c Hc.
  specialize (H c Hc). unfold plain_char in H.
  apply andb_true_iff in H. destruct H as [_ H]. exact H.
Qed.

Lemma no_newline_app a b :
  no_newline (a ++ b) = no_newline a && no_newline b.
Proof. unfold no_newline. apply forallb_app. Qed.

(** [split] on a text without the separator, and in front of a separator. *)
Lemma split_none sep (s : jstring) :
  forallb (fun c => negb (ascii_eqb c sep)) s = true -> split sep s = [s].
Proof.
  induction s as [|c r IH]; cbn; [reflexivity|].
  intros H. apply andb_true_iff in H. destruct H as [Hc Hr].
  apply negb_true_iff in Hc. rewrite Hc, (IH Hr). reflexivity.
Qed.

Lemma split_cons sep (p rest : jstring) :
  forallb (fun c => negb (ascii_eqb c sep)) p = true ->
  split sep (p ++ sep :: rest) = p :: split sep rest.
Proof.
  induction p as [|c r IH]; cbn [app split forallb].
  - intros _. rewrite ascii_eqb_refl. reflexivity.
  - intros H. apply andb_true_iff in H. destruct H as [Hc Hr].
    apply negb_true_iff in Hc. rewrite Hc, (IH Hr). reflexivity.
Qed.

Lemma split_join (ls : list jstring) :
  ls <> [] ->
  forallb no_newline ls = true ->
  split chr_newline (join chr_newline ls) = ls.
Proof.
  induction ls as [|p r IH]; [contradiction|]. intros _ Hall.
  cbn in Hall. apply andb_true_iff in Hall. destruct Hall as [Hp Hr].
  destruct r as [|q r'].
  - cbn [join]. apply split_none, Hp.
  - change (join chr_newline (p :: q :: r'))
      with (p ++ chr_newline :: join chr_newline (q :: r')).
    rewrite (split_cons _ _ _ Hp). f_equal. apply IH; [discriminate|exact Hr].
Qed.

(** ** The tokenizer on an exported row *)

Lemma tokenize_loop_prefix (line : jstring) : forall a fields current inQuotes,
  tokenize_loop line (a ++ fields) current inQuotes
  = a ++ tokenize_loop line fields current inQuotes.
Proof.
  induction line as [|char rest IH]; intros a fields current inQuotes;
    cbn [tokenize_loop].
  - rewrite app_assoc. reflexivity.
  - destruct (ascii_eqb char chr_quote); [apply IH|].
    destruct (ascii_eqb char chr_comma && negb inQuotes).
    + rewrite <- app_assoc. apply IH.
    + apply IH.
Qed.

Lemma tokenize_loop_field (f : jstring) : forall rest fields current,
  plain f = true ->
  tokenize_loop (f ++ chr_comma :: rest) fields current false
  = tokenize_loop rest (fields ++ [trim (current ++ f)]) [] false.
Proof.
  induction f as [|c r IH]; intros rest fields current Hp; cbn [app tokenize_loop].
  - rewrite app_nil_r. reflexivity.
  - cbn in Hp. apply andb_true_iff in Hp. destruct Hp as [Hc Hr].
    destruct (plain_char_spec c Hc) as (Hcomma & Hquote & _).
    apply ascii_eqb_false in Hcomma, Hquote. rewrite Hquote, Hcomma. cbn [andb].
    rewrite (IH rest fields (current ++ [c]) Hr).
    rewrite <- app_assoc. reflexivity.
Qed.

(** A plain field followed by a comma is the first field of the line. *)
Lemma tokenize_field (f rest : jstring) :
  plain f = true ->
  tokenize (f ++ chr_comma :: rest) = trim f :: tokenize rest.
Proof.
  intros Hp. unfold tokenize. rewrite (tokenize_loop_field f rest [] [] Hp).
  cbn [app]. apply (tokenize_loop_prefix rest [trim f] [] [] false).
Qed.

Lemma string_of_bool_field b :
  plain (string_of_bool b) = true /\
  trim (string_of_bool b) = string_of_bool b /\
  jstring_eqb (toLowerCase (string_of_bool b)) (js "true")
  || jstring_eqb (string_of_bool b) (js "1") = b.
Proof. destruct b; repeat split. Qed.

Lemma uint_chars_digits d :
  forallb (fun c => plain_char c && negb (is_ws c)) (uint_chars d) = true.
Proof.
  unfold uint_chars.
  induction d; cbn [NilEmpty.string_of_uint list_ascii_of_string forallb];
    try reflexivity; rewrite IHd; reflexivity.
Qed.

Lemma string_of_Z_digits n :
  forallb (fun c => plain_char c && negb (is_ws c)) (string_of_Z n) = true.
Proof.
  unfold string_of_Z.
  destruct n as [|p|p]; cbn [Z.to_int NilZero.string_of_int]; [reflexivity| |].
  - unfold NilZero.string_of_uint.
    destruct (Pos.to_uint p) eqn:E; try reflexivity; rewrite <- E; apply uint_chars_digits.
  - cbn [list_ascii_of_string forallb]. unfold NilZero.string_of_uint.
    destruct (Pos.to_uint p) eqn:E; try reflexivity; rewrite <- E;
      cbn [andb]; apply uint_chars_digits.
Qed.

Lemma string_of_Z_field n :
  plain (string_of_Z n) = true /\ trim (string_of_Z n) = string_of_Z n.
Proof.
  pose proof (string_of_Z_digits n) as H. rewrite forallb_forall in H. split.
  - unfold plain. apply forallb_forall. intros c Hc.
    specialize (H c Hc). apply andb_true_iff in H. apply H.
  - apply trim_id. apply List.Forall_forall. intros c Hc.
    specialize (H c Hc). apply andb_true_iff in H. destruct H as [_ H].
    apply negb_true_iff in H. exact H.
Qed.

Lemma tokenize_export_row item v :
  plain (it_sku item) = true -> plain (it_title item) = true ->
  plain (v_size v) = true -> plain (v_location v) = true ->
  exists more,
    tokenize (export_row item v)
    = trim (it_sku item) :: trim (it_title item) :: trim (v_size v)
      :: string_of_bool (v_inStock v) :: string_of_Z (v_quantity v)
      :: trim (v_location v) :: more.
Proof.
  intros Hsku Htitle Hsize Hloc. unfold export_row.
  destruct (string_of_bool_field (v_inStock v)) as (Hb & Hbt & _).
  destruct (string_of_Z_field (v_quantity v)) as (Hq & Hqt).
  rewrite (tokenize_field _ _ Hsku), (tokenize_field _ _ Htitle),
    (tokenize_field _ _ Hsize), (tokenize_field _ _ Hb),
    (tokenize_field _ _ Hq), (tokenize_field _ _ Hloc).
  rewrite Hbt, Hqt. eexists. reflexivity.
Qed.

(** ** Reading an exported row back *)

Lemma exportable_pair_spec p :
  exportable_pair p = true ->
  plain (it_sku (fst p)) = true /\ trim (it_sku (fst p)) = it_sku (fst p) /\
  plain (it_title (fst p)) = true /\
  no_newline (default [] (it_imageUrl (fst p))) = true /\
  plain (v_size (snd p)) = true /\ trim (v_size (snd p)) = v_size (snd p) /\
  truthy (v_size (snd p)) = true /\
  plain (v_location (snd p)) = true /\ trim (v_location (snd p)) = v_location (snd p).
Proof.
  unfold exportable_pair, exportable_variant, trimmed.
  rewrite !andb_true_iff, !jstring_eqb_true. tauto.
Qed.

Section RoundTrip.

Variable variantId : nat -> jstring.

Lemma parseRow_export st index item v :
  exportable_pair (item, v) = true ->
  exists newItem,
    fd_sku newItem = it_sku item /\
    fd_variants newItem = [reimported (variantId (idsUsed st)) v] /\
    parseRow variantId st index (export_row item v)
    = if map_has (it_sku item) (itemsMap st)
      then mkParseState
             (map_push (it_sku item) [reimported (variantId (idsUsed st)) v] (itemsMap st))
             (idsUsed st + 1) (console st)
      else mkParseState (map_set (it_sku item) newItem (itemsMap st))
                        (idsUsed st + 1) (console st).
Proof.
  intros Hp. apply exportable_pair_spec in Hp. cbn [fst snd] in Hp.
  destruct Hp as (Hsku & Hskut & Htitle & _ & Hsize & Hsizet & Hsizen & Hloc & Hloct).
  destruct (tokenize_export_row item v Hsku Htitle Hsize Hloc) as [more Htok].
  unfold parseRow. rewrite Htok. cbn [length Nat.ltb Nat.leb].
  rewrite Hskut, Hsizet, Hloct, Hskut, Hloct.
  assert (Hsizes : List.filter truthy (map trim (split chr_comma (v_size v))) = [v_size v]).
  { rewrite split_none.
    - cbn [map List.filter]. rewrite Hsizet, Hsizen. reflexivity.
    - unfold plain in Hsize. rewrite forallb_forall in Hsize.
      apply forallb_forall. intros c Hc. specialize (Hsize c Hc).
      destruct (plain_char_spec c Hsize) as (Hcomma & _).
      apply negb_true_iff, ascii_eqb_false, Hcomma. }
  rewrite Hsizes.
  destruct (string_of_bool_field (v_inStock v)) as (_ & _ & Hb). rewrite Hb.
  rewrite parseInt_string_of_Z. cbn [or_zero default from_option id make_variants length].
  eexists. split; [|split; [|reflexivity]]; reflexivity.
Qed.

(** The merge step on [itemsMap]. *)
Lemma map_has_In k (m : ItemsMap) :
  map_has k m = false -> ~ In k (map fst m).
Proof.
  unfold map_has. induction m as [|[k' d] r IH]; cbn; [tauto|].
  destruct (jstring_eqb k' k) eqn:E; [discriminate|].
  intros H [Hk|Hk].
  - apply jstring_eqb_false in E. contradiction.
  - apply IH; assumption.
Qed.

Lemma map_set_absent k d (m : ItemsMap) :
  map_has k m = false -> map_set k d m = m ++ [(k, d)].
Proof.
  unfold map_has. induction m as [|[k' d'] r IH]; cbn; [reflexivity|].
  destruct (jstring_eqb k' k) eqn:E; [discriminate|].
  intros H. rewrite (IH H). reflexivity.
Qed.

Lemma map_push_keys k vs (m : ItemsMap) :
  map fst (map_push k vs m) = map fst m.
Proof.
  induction m as [|[k' d] r IH]; cbn; [reflexivity|].
  destruct (jstring_eqb k' k); cbn; [reflexivity|]. rewrite IH. reflexivity.
Qed.

Lemma map_push_skus k vs (m : ItemsMap) :
  Forall (fun kd => fd_sku (snd kd) = fst kd) m ->
  Forall (fun kd => fd_sku (snd kd) = fst kd) (map_push k vs m).
Proof.
  induction 1 as [|[k' d] r Hd Hr IH]; cbn; [constructor|].
  destruct (jstring_eqb k' k); constructor; assumption.
Qed.

Lemma map_push_tuples k v (m : ItemsMap) :
  map_has k m = true ->
  Forall (fun kd => fd_sku (snd kd) = fst kd) m ->
  Permutation (imported_tuples (map snd (map_push k [v] m)))
              (imported_tuples (map snd m) ++ [variant_tuple k v]).
Proof.
  unfold map_has. induction m as [|[k' d] r IH]; cbn [map_get]; [discriminate|].
  intros Hhas Hall. inversion Hall as [|? ? Hd Hr]; subst. cbn [fst snd] in Hd.
  cbn [map_push]. destruct (jstring_eqb k' k) eqn:E.
  - apply jstring_eqb_true in E. subst k'.
    unfold imported_tuples. cbn [map snd flat_map push_variants fd_sku fd_variants].
    rewrite Hd, map_app. cbn [map].
    rewrite <- !app_assoc. apply Permutation_app_head. apply Permutation_app_comm.
  - unfold imported_tuples in *. cbn [map snd flat_map].
    rewrite <- app_assoc. apply Permutation_app_head. apply IH; assumption.
Qed.

Lemma merged_push k v m seen :
  map_has k m = true -> merged m seen ->
  merged (map_push k [v] m) (seen ++ [variant_tuple k v]).
Proof.
  intros Hhas (Hnd & Hall & Hperm). split; [|split].
  - rewrite map_push_keys. exact Hnd.
  - apply map_push_skus, Hall.
  - rewrite (map_push_tuples k v m Hhas Hall).
    apply Permutation_app_tail, Hperm.
Qed.

Lemma merged_set k d v m seen :
  map_has k m = false -> fd_sku d = k -> fd_variants d = [v] ->
  merged m seen ->
  merged (map_set k d m) (seen ++ [variant_tuple k v]).
Proof.
  intros Hhas Hsku Hvs (Hnd & Hall & Hperm).
  rewrite (map_set_absent k d m Hhas). split; [|split].
  - rewrite map_app. cbn [map fst].
    apply NoDup_app. split; [exact Hnd|]. split.
    + intros x Hx Hk. apply list_elem_of_In in Hx.
      apply list_elem_of_In in Hk. destruct Hk as [Hk|[]]. subst x.
      apply (map_has_In k m Hhas), Hx.
    + apply NoDup_singleton.
  - apply Forall_app. split; [exact Hall|]. constructor; [exact Hsku|constructor].
  - unfold imported_tuples in *. rewrite map_app, flat_map_app.
    cbn [map snd flat_map]. rewrite Hsku, Hvs, app_nil_r. cbn [map].
    apply Permutation_app_tail, Hperm.
Qed.

Lemma parseRows_export pairs : forall st index seen,
  forallb exportable_pair pairs = true ->
  merged (itemsMap st) seen ->
  merged (itemsMap (parseRows variantId st index
                      (map (fun p => export_row (fst p) (snd p)) pairs)))
         (seen ++ map (fun p => variant_tuple (it_sku (fst p)) (snd p)) pairs).
Proof.
  induction pairs as [|[item v] r IH]; intros st index seen Hall Hm;
    cbn [map parseRows fst snd].
  - rewrite app_nil_r. exact Hm.
  - cbn [forallb] in Hall. apply andb_true_iff in Hall. destruct Hall as [Hp Hr].
    destruct (parseRow_export st index item v Hp) as (newItem & Hsku & Hvs & Hrow).
    rewrite Hrow.
    change (seen ++ variant_tuple (it_sku item) v
                 :: map (fun p => variant_tuple (it_sku (fst p)) (snd p)) r)
      with (seen ++ [variant_tuple (it_sku item) v]
                 ++ map (fun p => variant_tuple (it_sku (fst p)) (snd p)) r).
    rewrite app_assoc.
    assert (Ht : forall id, variant_tuple (it_sku item) (reimported id v)
                            = variant_tuple (it_sku item) v) by reflexivity.
    destruct (map_has (it_sku item) (itemsMap st)) eqn:Ehas; apply IH; try exact Hr;
      cbn [itemsMap]; rewrite <- (Ht (variantId (idsUsed st))).
    + apply merged_push; assumption.
    + apply merged_set; assumption.
Qed.

End RoundTrip.

Lemma export_rows_pairs inventory :
  export_rows inventory = map (fun p => export_row (fst p) (snd p)) (export_pairs inventory).
Proof.
  unfold export_rows, export_pairs.
  induction inventory as [|it r IH]; cbn [flat_map]; [reflexivity|].
  rewrite map_app, IH, map_map. reflexivity.
Qed.

Lemma inventory_tuples_pairs inventory :
  inventory_tuples inventory
  = map (fun p => variant_tuple (it_sku (fst p)) (snd p)) (export_pairs inventory).
Proof.
  unfold inventory_tuples, export_pairs.
  induction inventory as [|it r IH]; cbn [flat_map]; [reflexivity|].
  rewrite map_app, IH, map_map. reflexivity.
Qed.

Lemma exportable_pairs inventory :
  forallb exportable_item inventory = true ->
  forallb exportable_pair (export_pairs inventory) = true.
Proof.
  unfold export_pairs.
  induction inventory as [|it r IH]; cbn [flat_map forallb]; [reflexivity|].
  intros H. apply andb_true_iff in H. destruct H as [Hit Hr].
  rewrite forallb_app, (IH Hr), andb_true_r.
  unfold exportable_item in Hit. rewrite !andb_true_iff in Hit.
  destruct Hit as ((((H1 & H2) & H3) & H4) & H5).
  apply forallb_forall. intros [it' v] Hin.
  apply in_map_iff in Hin. destruct Hin as (v' & Heq & Hv). inversion Heq; subst.
  rewrite forallb_forall in H5.
  unfold exportable_pair. cbn [fst snd]. rewrite H1, H2, H3, H4, (H5 _ Hv). reflexivity.
Qed.

Lemma export_row_line item v :
  exportable_pair (item, v) = true ->
  no_newline (export_row item v) = true /\ truthy (trim (export_row item v)) = true.
Proof.
  intros Hp. apply exportable_pair_spec in Hp. cbn [fst snd] in Hp.
  destruct Hp as (Hsku & _ & Htitle & Himg & Hsize & _ & _ & Hloc & _).
  destruct (string_of_bool_field (v_inStock v)) as (Hb & _).
  destruct (string_of_Z_field (v_quantity v)) as (Hq & _).
  split.
  - unfold export_row.
    repeat (rewrite no_newline_app;
            change (no_newline (chr_comma :: ?x)) with (no_newline x)).
    rewrite !plain_no_newline by assumption. cbn [andb].
    destruct (it_imageUrl item) as [u|]; [|reflexivity].
    cbn in Himg. destruct (truthy u); [exact Himg|reflexivity].
  - apply truthy_trim_comma. unfold export_row.
    apply in_or_app. right. left. reflexivity.
Qed.

Lemma nonblank_export_rows pairs :
  forallb exportable_pair pairs = true ->
  forallb no_newline (map (fun p => export_row (fst p) (snd p)) pairs) = true /\
  List.filter (fun line => truthy (trim line))
              (map (fun p => export_row (fst p) (snd p)) pairs)
  = map (fun p => export_row (fst p) (snd p)) pairs.
Proof.
  induction pairs as [|[item v] r IH]; cbn [map forallb List.filter fst snd];
    [split; reflexivity|].
  intros H. apply andb_true_iff in H. destruct H as [Hp Hr].
  destruct (export_row_line item v Hp) as [Hn Ht].
  destruct (IH Hr) as [IH1 IH2].
  rewrite Hn, Ht, IH1, IH2. split; reflexivity.
Qed.

(** ** Export followed by import *)

(** C3, as amended (merge round trip).  Take an inventory with at least one
    variant in which every SKU, size and location is free of commas, double
    quotes and line feeds and has no white space at either end, every title
    is free of commas, double quotes and line feeds, every size is non-empty,
    no image URL holds a line feed and every quantity is a safe integer.
    Then the export produces a text, the parser accepts it, the imported
    items have pairwise distinct SKUs, and their (sku, size, quantity,
    location, inStock) tuples are those of the inventory, up to order. *)
Theorem export_import_roundtrip (variantId : nat -> jstring) (inventory : list InventoryItem) :
  forallb exportable_item inventory = true ->
  export_pairs inventory <> [] ->
  exists imported,
    export_then_import variantId inventory = Some (inr imported) /\
    NoDup (map fd_sku imported) /\
    Permutation (imported_tuples imported) (inventory_tuples inventory).
Proof.
  intros Hall Hne.
  pose proof (exportable_pairs inventory Hall) as Hpairs.
  destruct (nonblank_export_rows _ Hpairs) as [Hnl Hkeep].
  set (rows := map (fun p => export_row (fst p) (snd p)) (export_pairs inventory)) in *.
  assert (Hinv : inventory <> []) by (intros ->; apply Hne; reflexivity).
  assert (Hlines : nonblank_lines (join chr_newline (export_headers :: rows))
                   = export_headers :: rows).
  { unfold nonblank_lines. rewrite split_join.
    - cbn [List.filter]. rewrite Hkeep. reflexivity.
    - discriminate.
    - cbn [forallb]. rewrite Hnl. reflexivity. }
  assert (Hrows : rows <> []).
  { unfold rows. destruct (export_pairs inventory); [contradiction|discriminate]. }
  pose proof (parseRows_export variantId (export_pairs inventory)
                (mkParseState [] 0 []) 0 [] Hpairs) as Hm.
  fold rows in Hm. cbn [app itemsMap] in Hm.
  assert (H0 : merged [] []).
  { split; [constructor|]. split; [constructor|]. reflexivity. }
  specialize (Hm H0). destruct Hm as (Hnd & Hsku & Hperm).
  exists (map snd (itemsMap (parseRows variantId (mkParseState [] 0 []) 0 rows))).
  split; [|split].
  - unfold export_then_import, exportCSV.
    destruct inventory as [|it r]; [contradiction|].
    cbn [option_map]. rewrite export_rows_pairs. fold rows.
    unfold parseCSV, parseCSV_run. rewrite Hlines. cbn [length tl].
    destruct rows; [contradiction|reflexivity].
  - assert (Hkeys : forall m : ItemsMap,
               Forall (fun kd => fd_sku (snd kd) = fst kd) m ->
               map fd_sku (map snd m) = map fst m).
    { induction 1 as [|kd m Hk Hm IH]; cbn; [reflexivity|]. rewrite Hk, IH. reflexivity. }
    rewrite (Hkeys _ Hsku). exact Hnd.
  - rewrite inventory_tuples_pairs. exact Hperm.
Qed.

Lemma export_import_roundtrip_witness :
  forallb exportable_item sample_inventory = true /\
  export_pairs sample_inventory <> [] /\
  exists imported,
    export_then_import sample_id sample_inventory = Some (inr imported) /\
    NoDup (map fd_sku imported) /\
    Permutation (imported_tuples imported) (inventory_tuples sample_inventory).
Proof.
  assert (H1 : forallb exportable_item sample_inventory = true) by reflexivity.
  assert (H2 : export_pairs sample_inventory <> []) by discriminate.
  split; [exact H1|]. split; [exact H2|].
  exact (export_import_roundtrip sample_id sample_inventory H1 H2).
Defined.

(** The sample inventory: the two [A1] items come back as one. *)
Example export_import_sample :
  option_map (fun r => match r with
                       | inr imported => map (fun d => (fd_sku d, map v_size (fd_variants d))) imported
                       | inl _ => []
                       end)
             (export_then_import sample_id sample_inventory)
  = Some [(js "A1", [js "M"; js "L"; js "XL"]); (js "B2", [js "S"])].
Proof. vm_compute. reflexivity. Qed.

(** C3 as stated covers every inventory.  An item whose title holds
    a comma is exported unquoted, so its row is read back with the fields
    shifted by one: the imported tuple is not the exported one.  And for an
    empty inventory nothing is exported at all. *)
Lemma export_import_comma_title :
  export_then_import sample_id [comma_item]
  = Some (inr [mkFormData (js "A") (js "x") (Some (js "R"))
                 [mkVariant (sample_id 0%nat) (js "y") false 0 (js "1")] None]) /\
  inventory_tuples [comma_item] = [(js "A", js "M", 1, js "R", true)] /\
  imported_tuples [mkFormData (js "A") (js "x") (Some (js "R"))
                     [mkVariant (sample_id 0%nat) (js "y") false 0 (js "1")] None]
  = [(js "A", js "y", 0, js "1", false)] /\
  export_then_import sample_id [] = None.
Proof. vm_compute. repeat split. Qed.

(** * Further properties of the codec *)

(** ** Trimming *)

Lemma trimStart_head (s : jstring) :
  match trimStart s with [] => True | c :: _ => is_ws c = false end.
Proof.
  induction s as [|c r IH]; cbn; [exact I|].
  destruct (is_ws c) eqn:E; [exact IH|exact E].
Qed.

Lemma trimStart_app (s t : jstring) :
  trimStart (s ++ t)
  = match trimStart s with [] => trimStart t | _ => trimStart s ++ t end.
Proof.
  induction s as [|c r IH]; cbn; [reflexivity|].
  destruct (is_ws c); [exact IH|reflexivity].
Qed.

Lemma trimEnd_snoc_ws (s : jstring) (c : ascii) :
  is_ws c = true -> trimEnd (s ++ [c]) = trimEnd s.
Proof.
  intros Hc. unfold trimEnd. rewrite rev_app_distr. cbn. rewrite Hc. reflexivity.
Qed.

Lemma trim_snoc_ws (s : jstring) (c : ascii) :
  is_ws c = true -> trim (s ++ [c]) = trim s.
Proof.
  intros Hc. unfold trim. rewrite trimStart_app.
  destruct (trimStart s) as [|a r] eqn:E.
  - cbn. rewrite Hc. reflexivity.
  - apply trimEnd_snoc_ws, Hc.
Qed.

(** A trimmed string starts and ends with a character that is not white
    space, so trimming it again changes nothing. *)
Lemma trim_ends (s : jstring) :
  match trim s with [] => True | c :: _ => is_ws c = false end /\
  match rev (trim s) with [] => True | c :: _ => is_ws c = false end.
Proof.
  unfold trim, trimEnd. split.
  - pose proof (trimStart_head s) as Hh.
    destruct (trimStart s) as [|c u] eqn:E; [exact I|].
    cbn [rev]. rewrite trimStart_app.
    destruct (trimStart (rev u)) as [|a q].
    + cbn. rewrite Hh. cbn. exact Hh.
    + rewrite rev_app_distr. cbn. exact Hh.
  - rewrite rev_involutive. apply trimStart_head.
Qed.

Lemma trim_idem (s : jstring) : trim (trim s) = trim s.
Proof.
  destruct (trim_ends s) as [Hh Hl].
  set (t := trim s) in *. unfold trim, trimEnd.
  rewrite (trimStart_id t Hh), (trimStart_id (rev t) Hl). apply rev_involutive.
Qed.

Lemma truthy_trim_snoc_ws (s : jstring) (c : ascii) :
  is_ws c = true -> truthy (trim (s ++ [c])) = truthy (trim s).
Proof. intros Hc. rewrite (trim_snoc_ws s c Hc). reflexivity. Qed.

(** ** The tokenizer and [split] *)

Lemma split_nonempty sep (s : jstring) : split sep s <> [].
Proof.
  induction s as [|c r IH]; cbn; [discriminate|].
  destruct (ascii_eqb c sep); [discriminate|].
  destruct (split sep r); discriminate.
Qed.

Lemma tokenize_loop_unquoted (line : jstring) : forall fields current,
  ~ In chr_quote line ->
  tokenize_loop line fields current false
  = fields ++ match split chr_comma line with
              | h :: t => trim (current ++ h) :: map trim t
              | [] => []
              end.
Proof.
  induction line as [|c r IH]; intros fields current Hq; cbn [tokenize_loop split].
  - rewrite app_nil_r. reflexivity.
  - assert (Hc : ascii_eqb c chr_quote = false).
    { apply ascii_eqb_false. intros ->. apply Hq. left; reflexivity. }
    assert (Hr : ~ In chr_quote r) by (intros H; apply Hq; right; exact H).
    rewrite Hc. cbn [negb]. rewrite andb_true_r.
    destruct (ascii_eqb c chr_comma).
    + rewrite (IH _ _ Hr). rewrite <- app_assoc. cbn [app]. rewrite app_nil_r.
      pose proof (split_nonempty chr_comma r) as Hne.
      destruct (split chr_comma r); [contradiction|reflexivity].
    + rewrite (IH _ _ Hr).
      pose proof (split_nonempty chr_comma r) as Hne.
      destruct (split chr_comma r); [contradiction|].
      rewrite <- app_assoc. reflexivity.
Qed.

(** X1.  On a line without a double quote the tokenizer is [split(',')]
    followed by [trim] on every piece. *)
Theorem tokenize_unquoted (line : jstring) :
  ~ In chr_quote line ->
  tokenize line = map trim (split chr_comma line).
Proof.
  intros Hq. unfold tokenize. rewrite (tokenize_loop_unquoted line [] [] Hq).
  cbn [app]. pose proof (split_nonempty chr_comma line) as Hne.
  destruct (split chr_comma line); [contradiction|reflexivity].
Qed.

Lemma tokenize_unquoted_witness :
  ~ In chr_quote (js " A1 ,Shirt,, M") /\
  tokenize (js " A1 ,Shirt,, M") = map trim (split chr_comma (js " A1 ,Shirt,, M")).
Proof.
  assert (H : ~ In chr_quote (js " A1 ,Shirt,, M")).
  { vm_compute. intros H. repeat (destruct H as [H|H]; [discriminate H|]). exact H. }
  split; [exact H|]. exact (tokenize_unquoted _ H).
Defined.

(** ** Blank lines and carriage returns *)

Lemma split_app sep (a b : jstring) :
  split sep (a ++ sep :: b) = split sep a ++ split sep b.
Proof.
  induction a as [|c r IH]; cbn [app split].
  - rewrite ascii_eqb_refl. reflexivity.
  - destruct (ascii_eqb c sep).
    + rewrite IH. reflexivity.
    + rewrite IH. pose proof (split_nonempty sep r) as Hne.
      destruct (split sep r); [contradiction|reflexivity].
Qed.

Lemma nonblank_lines_app (a b : jstring) :
  nonblank_lines (a ++ chr_newline :: b) = nonblank_lines a ++ nonblank_lines b.
Proof. unfold nonblank_lines. rewrite split_app. apply List.filter_app. Qed.

Lemma nonblank_lines_blank (blank : jstring) :
  no_newline blank = true -> truthy (trim blank) = false ->
  nonblank_lines blank = [].
Proof.
  intros Hn Hb. unfold nonblank_lines. rewrite (split_none _ _ Hn).
  cbn [List.filter]. rewrite Hb. reflexivity.
Qed.

Lemma parseCSV_run_lines variantId (t1 t2 : jstring) :
  nonblank_lines t1 = nonblank_lines t2 ->
  parseCSV_run variantId t1 = parseCSV_run variantId t2 /\
  parseCSV variantId t1 = parseCSV variantId t2.
Proof.
  intros H. unfold parseCSV, parseCSV_run. rewrite H. split; reflexivity.
Qed.

Lemma parseCSV_console_lines variantId (t1 t2 : jstring) :
  nonblank_lines t1 = nonblank_lines t2 ->
  parseCSV_console variantId t1 = parseCSV_console variantId t2.
Proof.
  intros H. unfold parseCSV_console, parseCSV_run. rewrite H. reflexivity.
Qed.

(** X2.  A line that holds only white space is ignored by the import
    wherever it stands: between two lines, before the first or after the
    last.  At each of the three places the whole run of the parser (the
    thrown error, or the final loop state with its items, identifier count
    and console), the value that [parseCSV] returns and the console output
    are those of the text without the line. *)
Theorem blank_lines_ignored (variantId : nat -> jstring) (before blank after : jstring) :
  no_newline blank = true ->
  truthy (trim blank) = false ->
  (parseCSV_run variantId (before ++ chr_newline :: blank ++ chr_newline :: after)
   = parseCSV_run variantId (before ++ chr_newline :: after) /\
   parseCSV variantId (before ++ chr_newline :: blank ++ chr_newline :: after)
   = parseCSV variantId (before ++ chr_newline :: after) /\
   parseCSV_console variantId (before ++ chr_newline :: blank ++ chr_newline :: after)
   = parseCSV_console variantId (before ++ chr_newline :: after)) /\
  (parseCSV_run variantId (blank ++ chr_newline :: after) = parseCSV_run variantId after /\
   parseCSV variantId (blank ++ chr_newline :: after) = parseCSV variantId after /\
   parseCSV_console variantId (blank ++ chr_newline :: after)
   = parseCSV_console variantId after) /\
  (parseCSV_run variantId (before ++ chr_newline :: blank) = parseCSV_run variantId before /\
   parseCSV variantId (before ++ chr_newline :: blank) = parseCSV variantId before /\
   parseCSV_console variantId (before ++ chr_newline :: blank)
   = parseCSV_console variantId before).
Proof.
  intros Hn Hb.
  pose proof (nonblank_lines_blank blank Hn Hb) as Hblank.
  assert (H1 : nonblank_lines (before ++ chr_newline :: blank ++ chr_newline :: after)
               = nonblank_lines (before ++ chr_newline :: after)).
  { rewrite !nonblank_lines_app, Hblank. reflexivity. }
  assert (H2 : nonblank_lines (blank ++ chr_newline :: after) = nonblank_lines after).
  { rewrite nonblank_lines_app, Hblank. reflexivity. }
  assert (H3 : nonblank_lines (before ++ chr_newline :: blank) = nonblank_lines before).
  { rewrite nonblank_lines_app, Hblank. apply app_nil_r. }
  split; [|split].
  - split; [apply (parseCSV_run_lines variantId _ _ H1)|].
    split; [apply (parseCSV_run_lines variantId _ _ H1)|].
    apply (parseCSV_console_lines variantId _ _ H1).
  - split; [apply (parseCSV_run_lines variantId _ _ H2)|].
    split; [apply (parseCSV_run_lines variantId _ _ H2)|].
    apply (parseCSV_console_lines variantId _ _ H2).
  - split; [apply (parseCSV_run_lines variantId _ _ H3)|].
    split; [apply (parseCSV_run_lines variantId _ _ H3)|].
    apply (parseCSV_console_lines variantId _ _ H3).
Qed.

Lemma blank_lines_ignored_witness :
  no_newline (js "  ") = true /\ truthy (trim (js "  ")) = false /\
  parseCSV sample_id (export_headers ++ chr_newline :: js "  " ++ chr_newline
                        :: js "A1,Shirt,M,true,10,R1,")
  = parseCSV sample_id (export_headers ++ chr_newline :: js "A1,Shirt,M,true,10,R1,") /\
  parseCSV_console sample_id (js "  " ++ chr_newline :: skip_text_one)
  = parseCSV_console sample_id skip_text_one /\
  parseCSV_console sample_id (skip_text_one ++ chr_newline :: js "  ")
  = parseCSV_console sample_id skip_text_one /\
  parseCSV_console sample_id skip_text_one = [WarnRowSkipped 3].
Proof.
  assert (H1 : no_newline (js "  ") = true) by reflexivity.
  assert (H2 : truthy (trim (js "  ")) = false) by reflexivity.
  split; [exact H1|]. split; [exact H2|].
  destruct (blank_lines_ignored sample_id export_headers (js "  ")
              (js "A1,Shirt,M,true,10,R1,") H1 H2) as ((_ & H & _) & _).
  split; [exact H|].
  destruct (blank_lines_ignored sample_id skip_text_one (js "  ") skip_text_one H1 H2)
    as (_ & (_ & _ & Hfirst) & (_ & _ & Hlast)).
  split; [exact Hfirst|]. split; [exact Hlast|].
  vm_compute. reflexivity.
Defined.

Lemma tokenize_loop_with_cr (line : jstring) : forall fields current inQuotes,
  tokenize_loop (with_cr line) fields current inQuotes
  = tokenize_loop line fields current inQuotes.
Proof.
  unfold with_cr.
  induction line as [|c r IH]; intros fields current inQuotes; cbn [app tokenize_loop].
  - change (ascii_eqb chr_cr chr_quote) with false.
    change (ascii_eqb chr_cr chr_comma) with false. cbn [andb].
    rewrite trim_snoc_ws by reflexivity. reflexivity.
  - destruct (ascii_eqb c chr_quote); [apply IH|].
    destruct (ascii_eqb c chr_comma && negb inQuotes); apply IH.
Qed.

Section CarriageReturns.

Variable variantId : nat -> jstring.

Lemma parseRow_with_cr st index line :
  parseRow variantId st index (with_cr line) = parseRow variantId st index line.
Proof.
  unfold parseRow, tokenize. rewrite tokenize_loop_with_cr. reflexivity.
Qed.

Lemma parseRows_with_cr lines : forall st index,
  parseRows variantId st index (map with_cr lines) = parseRows variantId st index lines.
Proof.
  induction lines as [|line r IH]; intros st index; cbn [map parseRows]; [reflexivity|].
  rewrite parseRow_with_cr. apply IH.
Qed.

Lemma filter_nonblank_with_cr lines :
  List.filter (fun line => truthy (trim line)) (map with_cr lines)
  = map with_cr (List.filter (fun line => truthy (trim line)) lines).
Proof.
  induction lines as [|line r IH]; cbn [map List.filter]; [reflexivity|].
  unfold with_cr at 1. rewrite truthy_trim_snoc_ws by reflexivity.
  destruct (truthy (trim line)); cbn [map]; rewrite IH; reflexivity.
Qed.

(** X3.  A file whose lines end in CR LF is read like the same file with
    LF line ends: same items or error, same console output. *)
Theorem crlf_lines_accepted (lines : list jstring) :
  lines <> [] ->
  forallb no_newline lines = true ->
  parseCSV_run variantId (join chr_newline (map with_cr lines))
  = parseCSV_run variantId (join chr_newline lines) /\
  parseCSV variantId (join chr_newline (map with_cr lines))
  = parseCSV variantId (join chr_newline lines).
Proof.
  intros Hne Hnl.
  assert (Hcr : forallb no_newline (map with_cr lines) = true).
  { rewrite forallb_forall in Hnl. apply forallb_forall. intros l Hl.
    apply in_map_iff in Hl. destruct Hl as (l0 & <- & Hl0).
    unfold with_cr. rewrite no_newline_app, (Hnl _ Hl0). reflexivity. }
  assert (Hne' : map with_cr lines <> []) by (destruct lines; [contradiction|discriminate]).
  assert (Hrun : parseCSV_run variantId (join chr_newline (map with_cr lines))
                 = parseCSV_run variantId (join chr_newline lines)).
  { unfold parseCSV_run, nonblank_lines.
    rewrite (split_join _ Hne' Hcr), (split_join _ Hne Hnl).
    rewrite filter_nonblank_with_cr, length_map.
    destruct (length _ <? 2)%nat; [reflexivity|].
    f_equal.
    destruct (List.filter _ lines) as [|h t]; [reflexivity|].
    cbn [map tl]. apply parseRows_with_cr. }
  split; [exact Hrun|]. unfold parseCSV. rewrite Hrun. reflexivity.
Qed.

End CarriageReturns.

Lemma crlf_lines_accepted_witness :
  [export_headers; js "A1,Shirt,M,true,10,R1,"] <> [] /\
  forallb no_newline [export_headers; js "A1,Shirt,M,true,10,R1,"] = true /\
  parseCSV sample_id (join chr_newline (map with_cr [export_headers; js "A1,Shirt,M,true,10,R1,"]))
  = parseCSV sample_id (join chr_newline [export_headers; js "A1,Shirt,M,true,10,R1,"]).
Proof.
  assert (H1 : [export_headers; js "A1,Shirt,M,true,10,R1,"] <> []) by discriminate.
  assert (H2 : forallb no_newline [export_headers; js "A1,Shirt,M,true,10,R1,"] = true)
    by reflexivity.
  split; [exact H1|]. split; [exact H2|].
  apply (crlf_lines_accepted sample_id _ H1 H2).
Defined.

(** ** What the parser guarantees for every text *)

Section ParserInvariants.

Variable variantId : nat -> jstring.

(** The three things a row can do to the loop state: nothing (a skipped
    row), add variants to the item filed under its SKU, or file a new item. *)
Lemma parseRow_cases st index line :
  (itemsMap (parseRow variantId st index line) = itemsMap st /\
   idsUsed (parseRow variantId st index line) = idsUsed st) \/
  exists key pieces inStock quantity location,
    let sizes := List.filter truthy (map trim pieces) in
    let variants := make_variants variantId (idsUsed st) sizes inStock quantity (trim location) in
    idsUsed (parseRow variantId st index line) = (idsUsed st + length sizes)%nat /\
    ((map_has (trim key) (itemsMap st) = true /\
      itemsMap (parseRow variantId st index line)
      = map_push (trim key) variants (itemsMap st)) \/
     (map_has (trim key) (itemsMap st) = false /\
      exists newItem,
        fd_sku newItem = trim key /\ fd_variants newItem = variants /\
        itemsMap (parseRow variantId st index line)
        = itemsMap st ++ [(trim key, newItem)])).
Proof.
  unfold parseRow.
  destruct (length (tokenize line) <? 6)%nat; [left; split; reflexivity|].
  destruct (tokenize line)
    as [|sku [|title [|sizeStr [|inStockStr [|quantityStr [|location more]]]]]];
    try (left; split; reflexivity).
  right.
  exists sku, (split chr_comma sizeStr),
    (jstring_eqb (toLowerCase inStockStr) (js "true") || jstring_eqb inStockStr (js "1")),
    (or_zero (parseInt quantityStr)), location.
  cbn zeta.
  destruct (map_has (trim sku) (itemsMap st)) eqn:Ehas; cbn [idsUsed itemsMap].
  - split; [reflexivity|]. left. split; reflexivity.
  - split; [reflexivity|]. right. split; [reflexivity|].
    eexists. split; [|split; [|apply (map_set_absent _ _ _ Ehas)]]; reflexivity.
Qed.

Lemma parseRows_inv (P : ParseState -> Prop) :
  (forall st index line, P st -> P (parseRow variantId st index line)) ->
  forall lines st index, P st -> P (parseRows variantId st index lines).
Proof.
  intros Hstep. induction lines as [|line r IH]; intros st index HP; cbn [parseRows].
  - exact HP.
  - apply IH, Hstep, HP.
Qed.

Lemma parseCSV_inv (P : ParseState -> Prop) text imported :
  P (mkParseState [] 0 []) ->
  (forall st index line, P st -> P (parseRow variantId st index line)) ->
  parseCSV variantId text = inr imported ->
  exists st, P st /\ imported = map snd (itemsMap st).
Proof.
  intros H0 Hstep. unfold parseCSV, parseCSV_run.
  destruct (length (nonblank_lines text) <? 2)%nat; [discriminate|].
  intros H. inversion H; subst. eexists. split; [|reflexivity].
  apply parseRows_inv; assumption.
Qed.

(** *** Distinct SKUs *)

Lemma parseRow_keys st index line :
  NoDup (map fst (itemsMap st)) /\
  Forall (fun kd => fd_sku (snd kd) = fst kd) (itemsMap st) ->
  NoDup (map fst (itemsMap (parseRow variantId st index line))) /\
  Forall (fun kd => fd_sku (snd kd) = fst kd) (itemsMap (parseRow variantId st index line)).
Proof.
  intros [Hnd Hall].
  destruct (parseRow_cases st index line)
    as [[Hm _]|(key & pieces & b & q & loc & _ & [[Hhas Hm]|(Hhas & d & Hsku & _ & Hm)])];
    rewrite Hm.
  - split; assumption.
  - split; [rewrite map_push_keys; exact Hnd|apply map_push_skus, Hall].
  - split.
    + rewrite map_app. cbn [map fst]. apply NoDup_app. split; [exact Hnd|]. split.
      * intros x Hx Hk. apply list_elem_of_In in Hx.
        apply list_elem_of_In in Hk. destruct Hk as [Hk|[]]. subst x.
        apply (map_has_In _ _ Hhas), Hx.
      * apply NoDup_singleton.
    + apply Forall_app. split; [exact Hall|]. constructor; [exact Hsku|constructor].
Qed.

(** X4.  Whatever the text, the items that [parseCSV] returns have pairwise
    distinct SKUs: rows are merged by SKU within one file. *)
Theorem parseCSV_distinct_skus (text : jstring) (imported : list InventoryFormData) :
  parseCSV variantId text = inr imported ->
  NoDup (map fd_sku imported).
Proof.
  intros H.
  destruct (parseCSV_inv
              (fun st => NoDup (map fst (itemsMap st)) /\
                         Forall (fun kd => fd_sku (snd kd) = fst kd) (itemsMap st))
              text imported) as (st & [Hnd Hall] & ->).
  - split; constructor.
  - intros st index line. apply parseRow_keys.
  - exact H.
  - assert (Hkeys : forall m : ItemsMap,
               Forall (fun kd => fd_sku (snd kd) = fst kd) m ->
               map fd_sku (map snd m) = map fst m).
    { induction 1 as [|kd m Hk Hm IH]; cbn; [reflexivity|]. rewrite Hk, IH. reflexivity. }
    rewrite (Hkeys _ Hall). exact Hnd.
Qed.

End ParserInvariants.

Lemma parseCSV_distinct_skus_witness :
  parseCSV sample_id example_text
  = inr [mkFormData (js "A1") (js "Shirt") None
           [mkVariant (sample_id 0%nat) (js "M") true 10 (js "R1");
            mkVariant (sample_id 1%nat) (js "L") true 10 (js "R1");
            mkVariant (sample_id 2%nat) (js "XL") false 0 (js "R2")]
           None] /\
  NoDup (map fd_sku
           [mkFormData (js "A1") (js "Shirt") None
              [mkVariant (sample_id 0%nat) (js "M") true 10 (js "R1");
               mkVariant (sample_id 1%nat) (js "L") true 10 (js "R1");
               mkVariant (sample_id 2%nat) (js "XL") false 0 (js "R2")]
              None]).
Proof.
  assert (H : parseCSV sample_id example_text
              = inr [mkFormData (js "A1") (js "Shirt") None
                       [mkVariant (sample_id 0%nat) (js "M") true 10 (js "R1");
                        mkVariant (sample_id 1%nat) (js "L") true 10 (js "R1");
                        mkVariant (sample_id 2%nat) (js "XL") false 0 (js "R2")]
                       None]) by (vm_compute; reflexivity).
  split; [exact H|]. exact (parseCSV_distinct_skus sample_id _ _ H).
Defined.

Section ParserVariants.

Variable variantId : nat -> jstring.

Lemma imported_variants_map (m : ItemsMap) :
  imported_variants (map snd m) = map_variants m.
Proof.
  unfold imported_variants, map_variants.
  induction m as [|kd r IH]; cbn; [reflexivity|]. rewrite IH. reflexivity.
Qed.

Lemma map_variants_app (m1 m2 : ItemsMap) :
  map_variants (m1 ++ m2) = map_variants m1 ++ map_variants m2.
Proof. unfold map_variants. apply flat_map_app. Qed.

Lemma map_variants_push k vs (m : ItemsMap) :
  map_has k m = true ->
  Permutation (map_variants (map_push k vs m)) (map_variants m ++ vs).
Proof.
  unfold map_has, map_variants.
  induction m as [|[k' d] r IH]; cbn [map_get]; [discriminate|].
  intros Hhas. cbn [map_push]. destruct (jstring_eqb k' k) eqn:E.
  - cbn [flat_map snd push_variants fd_variants].
    rewrite <- !app_assoc. apply Permutation_app_head, Permutation_app_comm.
  - cbn [flat_map snd]. rewrite <- app_assoc.
    apply Permutation_app_head, IH, Hhas.
Qed.

(** *** Sizes and locations *)

Lemma sizes_well_formed (pieces : list jstring) :
  Forall (fun s => truthy s = true /\ trim s = s)
         (List.filter truthy (map trim pieces)).
Proof.
  apply List.Forall_forall. intros s Hs.
  apply filter_In in Hs. destruct Hs as [Hin Ht]. split; [exact Ht|].
  apply in_map_iff in Hin. destruct Hin as (p & <- & _). apply trim_idem.
Qed.

Lemma make_variants_well_formed sizes : forall k inStock quantity location,
  Forall (fun s => truthy s = true /\ trim s = s) sizes ->
  Forall well_formed_variant
         (make_variants variantId k sizes inStock quantity (trim location)).
Proof.
  induction sizes as [|size r IH]; intros k b q loc Hall; cbn [make_variants].
  - constructor.
  - inversion Hall as [|? ? [Ht Hs] Hr]; subst. constructor.
    + repeat split; cbn; [exact Ht|exact Hs|apply trim_idem].
    + apply IH, Hr.
Qed.

Lemma parseRow_well_formed st index line :
  Forall well_formed_variant (map_variants (itemsMap st)) /\
  Forall (fun k => trim k = k) (map fst (itemsMap st)) ->
  Forall well_formed_variant
         (map_variants (itemsMap (parseRow variantId st index line))) /\
  Forall (fun k => trim k = k) (map fst (itemsMap (parseRow variantId st index line))).
Proof.
  intros [Hall Hkeys].
  destruct (parseRow_cases variantId st index line)
    as [[Hm _]|(key & pieces & b & q & loc & _ & [[Hhas Hm]|(Hhas & d & Hsku & Hvs & Hm)])];
    rewrite Hm.
  - split; assumption.
  - split.
    + rewrite (map_variants_push _ _ _ Hhas). apply Forall_app. split; [exact Hall|].
      apply make_variants_well_formed, sizes_well_formed.
    + rewrite map_push_keys. exact Hkeys.
  - split.
    + rewrite map_variants_app. apply Forall_app. split; [exact Hall|].
      unfold map_variants. cbn [flat_map snd]. rewrite app_nil_r, Hvs.
      apply make_variants_well_formed, sizes_well_formed.
    + rewrite map_app. apply Forall_app. split; [exact Hkeys|].
      constructor; [apply trim_idem|constructor].
Qed.

(** X5.  Whatever the text, every variant that [parseCSV] returns has a
    size that is not empty, and its size and location carry no white space
    at either end; every returned SKU is trimmed as well.  An empty entry of
    a size list never becomes a variant. *)
Theorem parseCSV_well_formed (text : jstring) (imported : list InventoryFormData) :
  parseCSV variantId text = inr imported ->
  Forall well_formed_variant (imported_variants imported) /\
  Forall (fun d => trim (fd_sku d) = fd_sku d) imported.
Proof.
  intros H.
  destruct (parseCSV_inv variantId
              (fun st =>
                 (Forall well_formed_variant (map_variants (itemsMap st)) /\
                  Forall (fun k => trim k = k) (map fst (itemsMap st))) /\
                 (NoDup (map fst (itemsMap st)) /\
                  Forall (fun kd => fd_sku (snd kd) = fst kd) (itemsMap st)))
              text imported) as (st & [[Hall Hkeys] [_ Hsku]] & ->).
  - repeat split; constructor.
  - intros st index line [H1 H2]. split.
    + apply parseRow_well_formed, H1.
    + apply parseRow_keys, H2.
  - exact H.
  - split; [rewrite imported_variants_map; exact Hall|].
    apply List.Forall_forall. intros d Hd.
    apply in_map_iff in Hd. destruct Hd as ([k d'] & <- & Hin). cbn [snd].
    rewrite List.Forall_forall in Hsku, Hkeys.
    pose proof (Hsku _ Hin) as E. cbn [fst snd] in E. rewrite E.
    apply Hkeys. apply in_map_iff. exists (k, d'). split; [reflexivity|exact Hin].
Qed.

(** *** Identifiers *)

Lemma make_variants_ids sizes : forall k inStock quantity location,
  map v_id (make_variants variantId k sizes inStock quantity location)
  = map variantId (seq k (length sizes)).
Proof.
  induction sizes as [|size r IH]; intros k b q loc; cbn; [reflexivity|].
  rewrite IH. reflexivity.
Qed.

Lemma parseRow_ids st index line :
  Permutation (map v_id (map_variants (itemsMap st)))
              (map variantId (seq 0 (idsUsed st))) ->
  Permutation (map v_id (map_variants (itemsMap (parseRow variantId st index line))))
              (map variantId (seq 0 (idsUsed (parseRow variantId st index line)))).
Proof.
  intros Hperm.
  destruct (parseRow_cases variantId st index line)
    as [[Hm Hn]|(key & pieces & b & q & loc & Hn & [[Hhas Hm]|(Hhas & d & Hsku & Hvs & Hm)])];
    rewrite Hm, Hn; [exact Hperm| |].
  - rewrite (map_variants_push _ _ _ Hhas), seq_app, !map_app, make_variants_ids.
    cbn [Nat.add]. apply Permutation_app_tail, Hperm.
  - rewrite map_variants_app, seq_app, !map_app. unfold map_variants at 2.
    cbn [flat_map snd]. rewrite app_nil_r, Hvs, make_variants_ids.
    cbn [Nat.add]. apply Permutation_app_tail, Hperm.
Qed.

(** X6.  When the identifier supply never repeats itself, all the variants
    that [parseCSV] returns, across all items, carry pairwise distinct
    identifiers. *)
Theorem parseCSV_distinct_variant_ids (text : jstring) (imported : list InventoryFormData) :
  (forall a b, variantId a = variantId b -> a = b) ->
  parseCSV variantId text = inr imported ->
  NoDup (map v_id (imported_variants imported)).
Proof.
  intros Hinj H.
  destruct (parseCSV_inv variantId
              (fun st => Permutation (map v_id (map_variants (itemsMap st)))
                                     (map variantId (seq 0 (idsUsed st))))
              text imported) as (st & Hperm & ->).
  - reflexivity.
  - intros st index line. apply parseRow_ids.
  - exact H.
  - rewrite imported_variants_map, Hperm.
    apply (NoDup_fmap_2 (Inj0 := Hinj) variantId), NoDup_seq.
Qed.

End ParserVariants.

Lemma sample_id_injective (a b : nat) : sample_id a = sample_id b -> a = b.
Proof.
  unfold sample_id. intros H. apply app_inv_head in H.
  apply (f_equal (@length ascii)) in H. rewrite !repeat_length in H. lia.
Qed.

Lemma parseCSV_well_formed_witness :
  parseCSV sample_id example_text
  = inr [mkFormData (js "A1") (js "Shirt") None
           [mkVariant (sample_id 0%nat) (js "M") true 10 (js "R1");
            mkVariant (sample_id 1%nat) (js "L") true 10 (js "R1");
            mkVariant (sample_id 2%nat) (js "XL") false 0 (js "R2")]
           None] /\
  Forall well_formed_variant
         [mkVariant (sample_id 0%nat) (js "M") true 10 (js "R1");
          mkVariant (sample_id 1%nat) (js "L") true 10 (js "R1");
          mkVariant (sample_id 2%nat) (js "XL") false 0 (js "R2")].
Proof.
  assert (H : parseCSV sample_id example_text
              = inr [mkFormData (js "A1") (js "Shirt") None
                       [mkVariant (sample_id 0%nat) (js "M") true 10 (js "R1");
                        mkVariant (sample_id 1%nat) (js "L") true 10 (js "R1");
                        mkVariant (sample_id 2%nat) (js "XL") false 0 (js "R2")]
                       None]) by (vm_compute; reflexivity).
  split; [exact H|].
  destruct (parseCSV_well_formed sample_id _ _ H) as [Hv _]. exact Hv.
Defined.

Lemma parseCSV_distinct_variant_ids_witness :
  (forall a b, sample_id a = sample_id b -> a = b) /\
  NoDup (map v_id
           [mkVariant (sample_id 0%nat) (js "M") true 10 (js "R1");
            mkVariant (sample_id 1%nat) (js "L") true 10 (js "R1");
            mkVariant (sample_id 2%nat) (js "XL") false 0 (js "R2")]).
Proof.
  assert (H : parseCSV sample_id example_text
              = inr [mkFormData (js "A1") (js "Shirt") None
                       [mkVariant (sample_id 0%nat) (js "M") true 10 (js "R1");
                        mkVariant (sample_id 1%nat) (js "L") true 10 (js "R1");
                        mkVariant (sample_id 2%nat) (js "XL") false 0 (js "R2")]
                       None]) by (vm_compute; reflexivity).
  split; [exact sample_id_injective|].
  exact (parseCSV_distinct_variant_ids sample_id _ _ sample_id_injective H).
Defined.

(** * Search *)

Lemma lower_char_idem (c : ascii) : lower_char (lower_char c) = lower_char c.
Proof. destruct c as [[] [] [] [] [] [] [] []]; reflexivity. Qed.

Lemma toLowerCase_idem (s : jstring) : toLowerCase (toLowerCase s) = toLowerCase s.
Proof.
  unfold toLowerCase. rewrite map_map. apply map_ext. intros c. apply lower_char_idem.
Qed.

Lemma toLowerCase_app (a b : jstring) :
  toLowerCase (a ++ b) = toLowerCase a ++ toLowerCase b.
Proof. apply map_app. Qed.

Lemma truthy_toLowerCase (s : jstring) : truthy (toLowerCase s) = truthy s.
Proof. destruct s; reflexivity. Qed.

Lemma starts_with_app (q rest : jstring) : starts_with q (q ++ rest) = true.
Proof.
  induction q as [|c r IH]; cbn; [reflexivity|].
  rewrite ascii_eqb_refl, IH. reflexivity.
Qed.

Lemma includes_fragment (before q after : jstring) :
  includes (before ++ q ++ after) q = true.
Proof.
  induction before as [|c r IH]; cbn [app].
  - destruct (q ++ after) eqn:E; cbn [includes]; rewrite <- E, starts_with_app; reflexivity.
  - cbn [includes]. rewrite IH. apply orb_true_r.
Qed.

Lemma filter_idem {A : Type} (f : A -> bool) (l : list A) :
  List.filter f (List.filter f l) = List.filter f l.
Proof.
  induction l as [|x r IH]; cbn; [reflexivity|].
  destruct (f x) eqn:E; cbn; rewrite ?E, IH; reflexivity.
Qed.

(** X7.  The search shows exactly items of the inventory, all of them for
    an empty query; it does not depend on the letter case of the query;
    searching the result again changes nothing; and an item is found by any
    fragment of its SKU, title, sizes or locations, typed in any letter
    case. *)
Theorem search_filter (searchQuery : jstring) (inventory : list InventoryItem) :
  filteredItems [] inventory = inventory /\
  (forall item, In item (filteredItems searchQuery inventory) -> In item inventory) /\
  filteredItems (toLowerCase searchQuery) inventory = filteredItems searchQuery inventory /\
  filteredItems searchQuery (filteredItems searchQuery inventory)
  = filteredItems searchQuery inventory /\
  (forall item text before after,
      In item inventory ->
      (text = it_sku item \/ text = it_title item \/
       exists v, In v (it_variants item) /\ (text = v_size v \/ text = v_location v)) ->
      toLowerCase text = before ++ toLowerCase searchQuery ++ after ->
      In item (filteredItems searchQuery inventory)).
Proof.
  split; [reflexivity|]. split; [|split; [|split]].
  - intros item. unfold filteredItems.
    destruct (negb (truthy searchQuery)); [tauto|].
    intros H. apply filter_In in H. apply H.
  - unfold filteredItems. rewrite truthy_toLowerCase, toLowerCase_idem. reflexivity.
  - unfold filteredItems. destruct (negb (truthy searchQuery)); [reflexivity|].
    apply filter_idem.
  - intros item text before after Hin Htext Hfrag. unfold filteredItems.
    destruct (negb (truthy searchQuery)); [exact Hin|].
    apply filter_In. split; [exact Hin|].
    assert (Hinc : includes (toLowerCase text) (toLowerCase searchQuery) = true).
    { rewrite Hfrag. apply includes_fragment. }
    unfold matches_query.
    destruct Htext as [->|[->|(v & Hv & Hvt)]].
    + rewrite Hinc. reflexivity.
    + rewrite Hinc. rewrite orb_true_r. reflexivity.
    + apply orb_true_iff. right. apply existsb_exists. exists v. split; [exact Hv|].
      destruct Hvt as [->| ->]; rewrite Hinc; [reflexivity|apply orb_true_r].
Qed.

Lemma search_filter_witness :
  In sample_item [sample_item] /\
  toLowerCase (it_title sample_item) = js "s" ++ toLowerCase (js "HIR") ++ js "t" /\
  In sample_item (filteredItems (js "HIR") [sample_item]).
Proof.
  assert (H1 : In sample_item [sample_item]) by (left; reflexivity).
  assert (H2 : toLowerCase (it_title sample_item)
               = js "s" ++ toLowerCase (js "HIR") ++ js "t") by reflexivity.
  split; [exact H1|]. split; [exact H2|].
  destruct (search_filter (js "HIR") [sample_item]) as (_ & _ & _ & _ & H).
  apply (H sample_item (it_title sample_item) (js "s") (js "t") H1); [|exact H2].
  right; left; reflexivity.
Defined.

(** * Custom field definitions *)

Lemma replace_ws_runs_no_ws (s : jstring) : forall inRun,
  Forall (fun c => is_ws c = false) (replace_ws_runs s inRun).
Proof.
  induction s as [|c r IH]; intros inRun; cbn [replace_ws_runs]; [constructor|].
  destruct (is_ws c) eqn:E.
  - destruct inRun; [apply IH|]. constructor; [reflexivity|apply IH].
  - constructor; [exact E|apply IH].
Qed.

Lemma existsb_id_false (fields : list CustomFieldDefinition) (fieldId : jstring) :
  existsb (fun f => jstring_eqb (cf_id f) fieldId) fields = false ->
  ~ In fieldId (map cf_id fields).
Proof.
  induction fields as [|f r IH]; cbn; [tauto|].
  intros H. apply orb_false_iff in H. destruct H as [Hf Hr].
  intros [Hin|Hin]; [|exact (IH Hr Hin)].
  apply jstring_eqb_false in Hf. contradiction.
Qed.

(** X8.  [handleAddField] keeps the field identifiers pairwise distinct:
    when it accepts a name it appends one field, whose identifier is the
    lower-cased name with every run of white space turned into one
    underscore, holds no white space and is not yet in use; a name that was
    just added is refused when it is entered again, in any letter case; and
    a blank name is refused. *)
Theorem handleAddField_unique (fields : list CustomFieldDefinition)
    (newFieldName : jstring) (newFieldType : FieldType) :
  NoDup (map cf_id fields) ->
  (truthy (trim newFieldName) = false ->
   handleAddField fields newFieldName newFieldType = inl FieldNameMissing) /\
  (forall next,
      handleAddField fields newFieldName newFieldType = inr next ->
      next = fields ++ [mkFieldDef (field_id newFieldName) (trim newFieldName) newFieldType] /\
      NoDup (map cf_id next) /\
      Forall (fun c => is_ws c = false) (field_id newFieldName) /\
      forall otherType,
        handleAddField next newFieldName otherType = inl FieldExists /\
        handleAddField next (toLowerCase newFieldName) otherType = inl FieldExists).
Proof.
  intros Hnd. split.
  - intros Hblank. unfold handleAddField. rewrite Hblank. reflexivity.
  - intros next. unfold handleAddField.
    destruct (truthy (trim newFieldName)) eqn:Et; cbn [negb]; [|discriminate].
    destruct (existsb _ fields) eqn:Ee; [discriminate|].
    intros H. inversion H; subst. clear H.
    split; [reflexivity|]. split; [|split].
    + rewrite map_app. cbn [map cf_id]. apply NoDup_app. split; [exact Hnd|]. split.
      * intros x Hx Hk. apply list_elem_of_In in Hx. apply list_elem_of_In in Hk.
        destruct Hk as [Hk|[]]. subst x. exact (existsb_id_false _ _ Ee Hx).
      * apply NoDup_singleton.
    + apply replace_ws_runs_no_ws.
    + intros otherType.
      assert (Hfound : existsb (fun f => jstring_eqb (cf_id f) (field_id newFieldName))
                         (fields ++ [mkFieldDef (field_id newFieldName) (trim newFieldName)
                                                newFieldType]) = true).
      { rewrite existsb_app. cbn. rewrite jstring_eqb_refl. apply orb_true_r. }
      split.
      * rewrite Hfound. reflexivity.
      * assert (Hlow : truthy (trim (toLowerCase newFieldName)) = true \/
                       truthy (trim (toLowerCase newFieldName)) = false)
          by (destruct (truthy (trim (toLowerCase newFieldName)));
              [left|right]; reflexivity).
        unfold field_id. rewrite toLowerCase_idem. fold (field_id newFieldName).
        rewrite Hfound.
        destruct Hlow as [Hl|Hl]; rewrite Hl; cbn [negb]; [reflexivity|].
        exfalso.
        assert (Hws : forall c, is_ws (lower_char c) = is_ws c)
          by (intros c; destruct c as [[] [] [] [] [] [] [] []]; reflexivity).
        assert (Hts : forall s, truthy (trimStart (toLowerCase s)) = truthy (trimStart s)).
        { induction s as [|c r IH]; cbn; [reflexivity|]. rewrite Hws.
          destruct (is_ws c); [exact IH|reflexivity]. }
        assert (Htr : forall s, truthy (trim s) = truthy (trimStart s)).
        { intros s. unfold trim, trimEnd.
          pose proof (trimStart_head s) as Hh.
          destruct (trimStart s) as [|c u]; [reflexivity|].
          cbn [rev]. rewrite trimStart_app.
          destruct (trimStart (rev u)) as [|a q].
          - cbn. rewrite Hh. reflexivity.
          - rewrite rev_app_distr. reflexivity. }
        rewrite Htr, Hts, <- Htr, Et in Hl. discriminate.
Qed.

Lemma handleAddField_unique_witness :
  NoDup (map cf_id [mkFieldDef (js "cost") (js "Cost") NumberField]) /\
  handleAddField [mkFieldDef (js "cost") (js "Cost") NumberField] (js "Unit  Price") TextField
  = inr [mkFieldDef (js "cost") (js "Cost") NumberField;
         mkFieldDef (js "unit_price") (js "Unit  Price") TextField] /\
  NoDup (map cf_id [mkFieldDef (js "cost") (js "Cost") NumberField;
                    mkFieldDef (js "unit_price") (js "Unit  Price") TextField]).
Proof.
  assert (H1 : NoDup (map cf_id [mkFieldDef (js "cost") (js "Cost") NumberField])).
  { cbn. apply NoDup_singleton. }
  assert (H2 : handleAddField [mkFieldDef (js "cost") (js "Cost") NumberField]
                 (js "Unit  Price") TextField
               = inr [mkFieldDef (js "cost") (js "Cost") NumberField;
                      mkFieldDef (js "unit_price") (js "Unit  Price") TextField])
    by (vm_compute; reflexivity).
  split; [exact H1|]. split; [exact H2|].
  destruct (handleAddField_unique _ (js "Unit  Price") TextField H1) as [_ H].
  destruct (H _ H2) as (_ & Hnd & _). exact Hnd.
Defined.

(** X9.  Deleting the field that [handleAddField] has just added gives the
    previous list back; and after [handleDeleteField] no field carries the
    deleted identifier, the other fields staying in place. *)
Theorem handleDeleteField_undoes_add (fields : list CustomFieldDefinition)
    (newFieldName : jstring) (newFieldType : FieldType) (next : list CustomFieldDefinition) :
  handleAddField fields newFieldName newFieldType = inr next ->
  handleDeleteField next (field_id newFieldName) = fields /\
  (forall fieldId,
      ~ In fieldId (map cf_id (handleDeleteField next fieldId)) /\
      forall f, In f next -> cf_id f <> fieldId ->
                In f (handleDeleteField next fieldId)).
Proof.
  unfold handleAddField.
  destruct (truthy (trim newFieldName)); cbn [negb]; [|discriminate].
  destruct (existsb _ fields) eqn:Ee; [discriminate|].
  intros H. inversion H; subst. clear H. split.
  - unfold handleDeleteField. rewrite List.filter_app. cbn [List.filter cf_id].
    rewrite jstring_eqb_refl. cbn [negb]. rewrite app_nil_r.
    pose proof (existsb_id_false _ _ Ee) as Hnot.
    clear Ee. induction fields as [|f r IH]; cbn [List.filter]; [reflexivity|].
    destruct (jstring_eqb (cf_id f) (field_id newFieldName)) eqn:E.
    + exfalso. apply Hnot. left. apply jstring_eqb_true, E.
    + cbn [negb]. f_equal. apply IH. intros Hin. apply Hnot. right. exact Hin.
  - intros fieldId. unfold handleDeleteField. split.
    + intros Hin. apply in_map_iff in Hin. destruct Hin as (f & Hid & Hf).
      apply filter_In in Hf. destruct Hf as [_ Hf].
      apply negb_true_iff, jstring_eqb_false in Hf. contradiction.
    + intros f Hf Hne. apply filter_In. split; [exact Hf|].
      apply negb_true_iff, jstring_eqb_false, Hne.
Qed.

Lemma handleDeleteField_undoes_add_witness :
  handleAddField [mkFieldDef (js "cost") (js "Cost") NumberField] (js "Unit  Price") TextField
  = inr [mkFieldDef (js "cost") (js "Cost") NumberField;
         mkFieldDef (js "unit_price") (js "Unit  Price") TextField] /\
  handleDeleteField [mkFieldDef (js "cost") (js "Cost") NumberField;
                     mkFieldDef (js "unit_price") (js "Unit  Price") TextField]
                    (field_id (js "Unit  Price"))
  = [mkFieldDef (js "cost") (js "Cost") NumberField].
Proof.
  assert (H2 : handleAddField [mkFieldDef (js "cost") (js "Cost") NumberField]
                 (js "Unit  Price") TextField
               = inr [mkFieldDef (js "cost") (js "Cost") NumberField;
                      mkFieldDef (js "unit_price") (js "Unit  Price") TextField])
    by (vm_compute; reflexivity).
  split; [exact H2|].
  destruct (handleDeleteField_undoes_add _ _ _ _ H2) as [H _]. exact H.
Defined.

(** * The item forms *)

Lemma form_variants_keep now e (rest : list SizeVariant) : forall pre,
  it_variants e = pre ++ rest ->
  Forall (fun v => truthy (v_id v) = true) rest ->
  form_variants now (Some e) (length pre) (map to_form rest) = rest.
Proof.
  induction rest as [|v r IH]; intros pre Hvs Hall; cbn [map form_variants];
    [reflexivity|].
  inversion Hall as [|? ? Hv Hr]; subst.
  rewrite Hvs, nth_error_app2, Nat.sub_diag by lia. cbn [nth_error].
  rewrite Hv. cbn [default from_option id to_form vf_size vf_inStock vf_quantity vf_location].
  f_equal; [destruct v; reflexivity|].
  specialize (IH (pre ++ [v])). rewrite length_app, Nat.add_1_r in IH.
  apply IH; [rewrite <- app_assoc; exact Hvs|exact Hr].
Qed.

(** X10.  Opening the edit form on an item and submitting it unchanged
    reproduces the item: same SKU, title, image, custom fields, and the same
    variants with the same identifiers.  This needs at least one variant,
    no blank size, no empty variant identifier and no empty image URL. *)
Theorem edit_form_unchanged (now : jstring) (e : InventoryItem) :
  it_variants e <> [] ->
  Forall (fun v => truthy (trim (v_size v)) = true /\ truthy (v_id v) = true)
         (it_variants e) ->
  it_imageUrl e <> Some [] ->
  exists data,
    form_submit now (Some e) (form_open (Some e)) = Some data /\
    merge_data e data = e.
Proof.
  intros Hne Hall Himg.
  unfold form_submit, form_open, InventoryForm_handleSubmit.
  cbn [fs_sku fs_title fs_imageUrl fs_variants].
  assert (Hvalid : List.filter (fun v => negb (jstring_eqb (trim (vf_size v)) []))
                               (map to_form (it_variants e))
                   = map to_form (it_variants e)).
  { clear Hne Himg. induction Hall as [|v r [Hs _] Hr IH]; cbn [map List.filter];
      [reflexivity|].
    cbn [to_form vf_size].
    destruct (jstring_eqb (trim (v_size v)) []) eqn:E.
    - apply jstring_eqb_true in E. rewrite E in Hs. discriminate.
    - cbn [negb]. rewrite IH. reflexivity. }
  rewrite Hvalid, length_map.
  destruct (length (it_variants e) =? 0)%nat eqn:El.
  - apply Nat.eqb_eq in El. destruct (it_variants e); [contradiction|discriminate].
  - eexists. split; [reflexivity|].
    unfold merge_data.
    cbn [fd_sku fd_title fd_imageUrl fd_variants fd_customFields].
    pose proof (form_variants_keep now e (it_variants e) [] eq_refl) as Hk.
    cbn [length] in Hk. rewrite Hk.
    + destruct e as [i sku title img vs cf]. cbn in *. f_equal.
      destruct img as [u|]; [|reflexivity].
      destruct u; [contradiction|reflexivity].
    + apply List.Forall_forall. intros v Hv.
      rewrite List.Forall_forall in Hall. apply (Hall v Hv).
Qed.

Lemma edit_form_unchanged_witness :
  it_variants sample_item <> [] /\
  exists data,
    form_submit (js "1700") (Some sample_item) (form_open (Some sample_item)) = Some data /\
    merge_data sample_item data = sample_item.
Proof.
  assert (H1 : it_variants sample_item <> []) by discriminate.
  split; [exact H1|].
  apply (edit_form_unchanged (js "1700") sample_item H1).
  - repeat constructor.
  - discriminate.
Defined.

Lemma remove_at_length {A : Type} (l : list A) : forall index,
  length (remove_at index l)
  = if (index <? length l)%nat then (length l - 1)%nat else length l.
Proof.
  induction l as [|x r IH]; intros [|i]; cbn [remove_at length]; try reflexivity.
  - cbn. lia.
  - rewrite IH. change (S i <? S (length r))%nat with (i <? length r)%nat.
    destruct (Nat.ltb_spec i (length r)); lia.
Qed.

(** X11.  The forms never lose their last variant row: removing a row from
    [InventoryForm] or [QuickAddRow] leaves at least one row when there was
    one, removes exactly the row at a valid index when there were several,
    and adding a row adds one. *)
Theorem form_rows_floor (index : nat) (f : FormState) (sizes : list QuickSize) :
  (1 <= length (fs_variants f))%nat ->
  (1 <= length sizes)%nat ->
  (1 <= length (fs_variants (form_removeVariant index f)))%nat /\
  (1 <= length (quick_removeSize index sizes))%nat /\
  ((1 < length (fs_variants f))%nat -> (index < length (fs_variants f))%nat ->
   length (fs_variants (form_removeVariant index f)) = (length (fs_variants f) - 1)%nat) /\
  ((1 < length sizes)%nat -> (index < length sizes)%nat ->
   length (quick_removeSize index sizes) = (length sizes - 1)%nat) /\
  length (fs_variants (form_addVariant f)) = S (length (fs_variants f)) /\
  length (quick_addSize sizes) = S (length sizes).
Proof.
  intros Hf Hs. unfold form_removeVariant, quick_removeSize, form_addVariant, quick_addSize.
  destruct (Nat.ltb_spec 1 (length (fs_variants f)));
    destruct (Nat.ltb_spec 1 (length sizes));
    cbn [fs_variants]; rewrite ?remove_at_length, ?length_app; cbn [length];
    repeat split; intros;
    repeat match goal with
           | |- context [(?a <? ?b)%nat] => destruct (Nat.ltb_spec a b)
           end; lia.
Qed.

Lemma form_rows_floor_witness :
  (1 <= length (fs_variants (form_open None)))%nat /\
  (1 <= length [mkQuickSize [] (js "0") []])%nat /\
  (1 <= length (fs_variants (form_removeVariant 0 (form_open None))))%nat.
Proof.
  assert (H1 : (1 <= length (fs_variants (form_open None)))%nat) by (cbn; lia).
  assert (H2 : (1 <= length [mkQuickSize [] (js "0") []])%nat) by (cbn; lia).
  split; [exact H1|]. split; [exact H2|].
  destruct (form_rows_floor 0 (form_open None) _ H1 H2) as (H & _). exact H.
Defined.

Lemma string_of_Z_injective (a b : Z) : string_of_Z a = string_of_Z b -> a = b.
Proof.
  intros H. pose proof (parseInt_string_of_Z a) as Ha.
  rewrite H, parseInt_string_of_Z in Ha. congruence.
Qed.

Lemma quick_variants_ids valid : forall index,
  map v_id (quick_variants index valid)
  = map (fun i => js "temp-" ++ string_of_Z (Z.of_nat i)) (seq index (length valid)).
Proof.
  induction valid as [|s r IH]; intros index; cbn [quick_variants map length seq];
    [reflexivity|].
  rewrite IH. reflexivity.
Qed.

(** X12.  What [QuickAddRow] submits: a trimmed, non-empty SKU and title, at
    least one variant, and for every variant a stock flag that says whether
    its quantity is positive, a size that is neither empty nor padded, a
    trimmed location, and an identifier that no other variant of the item
    has. *)
Theorem quick_add_variants (sku title imageUrl : jstring) (sizes : list QuickSize)
    (values : list (jstring * FieldValue)) (data : InventoryFormData) :
  QuickAddRow_handleSubmit sku title imageUrl sizes values = Some data ->
  truthy (fd_sku data) = true /\ trim (fd_sku data) = fd_sku data /\
  truthy (fd_title data) = true /\ trim (fd_title data) = fd_title data /\
  fd_variants data <> [] /\
  Forall (fun v => v_inStock v = (0 <? v_quantity v) /\ well_formed_variant v)
         (fd_variants data) /\
  NoDup (map v_id (fd_variants data)).
Proof.
  intros H. pose proof (QuickAddRow_handleSubmit_floor _ _ _ _ _ _ H) as Hne.
  unfold QuickAddRow_handleSubmit in H.
  destruct (truthy (trim sku)) eqn:Es; cbn [negb] in H; [|discriminate].
  destruct (truthy (trim title)) eqn:Et; cbn [negb] in H; [|discriminate].
  destruct (length _ =? 0)%nat; [discriminate|].
  inversion H; subst. clear H. cbn [fd_sku fd_title fd_variants] in *.
  split; [exact Es|]. split; [apply trim_idem|].
  split; [exact Et|]. split; [apply trim_idem|].
  split; [exact Hne|]. split.
  - clear Hne.
    assert (Hvalid : Forall (fun s => truthy (trim (qs_size s)) = true)
                            (List.filter (fun s => truthy (trim (qs_size s))) sizes)).
    { apply List.Forall_forall. intros s Hs. apply filter_In in Hs. apply Hs. }
    generalize 0%nat.
    induction Hvalid as [|s r Hs Hr IH]; intros index; cbn [quick_variants];
      constructor; [|apply IH].
    split; [reflexivity|]. repeat split; cbn; [exact Hs|apply trim_idem|apply trim_idem].
  - rewrite quick_variants_ids.
    assert (Hinj : Inj eq eq (fun i => js "temp-" ++ string_of_Z (Z.of_nat i))).
    { intros a b Hab. apply app_inv_head, string_of_Z_injective in Hab. lia. }
    apply (NoDup_fmap_2 _), NoDup_seq.
Qed.

Lemma quick_add_variants_witness :
  QuickAddRow_handleSubmit (js " A7 ") (js "Cap") [] [mkQuickSize (js "M") (js "3") (js " R1")] []
  = Some (mkFormData (js "A7") (js "Cap") None
                     [mkVariant (js "temp-0") (js "M") true 3 (js "R1")] (Some [])) /\
  NoDup (map v_id [mkVariant (js "temp-0") (js "M") true 3 (js "R1")]).
Proof.
  assert (H : QuickAddRow_handleSubmit (js " A7 ") (js "Cap") []
                [mkQuickSize (js "M") (js "3") (js " R1")] []
              = Some (mkFormData (js "A7") (js "Cap") None
                        [mkVariant (js "temp-0") (js "M") true 3 (js "R1")] (Some [])))
    by (vm_compute; reflexivity).
  split; [exact H|].
  destruct (quick_add_variants _ _ _ _ _ _ H) as (_ & _ & _ & _ & _ & _ & Hnd). exact Hnd.
Defined.

(** * Handlers of the application *)

Lemma customFields_scheduleSave c ms s :
  customFields (scheduleSave c ms s) = customFields s.
Proof.
  unfold scheduleSave.
  destruct (negb (has_user (r_user c)) || negb (hasLoadedRef s)); [reflexivity|].
  cbn. destruct (saveTimerRef s); reflexivity.
Qed.

Lemma customFields_changeEffect s : customFields (changeEffect s) = customFields s.
Proof.
  unfold changeEffect.
  destruct (negb (has_user (user s)) || negb (hasLoadedRef s)); [reflexivity|].
  rewrite customFields_scheduleSave.
  destruct (writeCache_view (render s) (items s) (customFields s) s) as (_ & _ & H & _).
  exact H.
Qed.

Lemma items_run_op_debounced op s :
  is_debounced op = true -> items (run_op op s) = op_items op (items s).
Proof.
  intros Hop. destruct (run_op_debounced_shape op s Hop) as [ms ->].
  rewrite items_changeEffect, items_scheduleSave. reflexivity.
Qed.

(** X13.  The inline edits of the table (quantity, location, SKU, title,
    image) never add, remove or reorder anything: after such an operation
    the items carry the same identifiers in the same order, and each item
    the same variant identifiers in the same order. *)
Theorem inline_edits_keep_structure (op : Op) (s : App) :
  is_debounced op = true ->
  map it_id (items (run_op op s)) = map it_id (items s) /\
  map (fun it => map v_id (it_variants it)) (items (run_op op s))
  = map (fun it => map v_id (it_variants it)) (items s) /\
  customFields (run_op op s) = customFields s.
Proof.
  intros Hop. rewrite (items_run_op_debounced op s Hop).
  assert (Hcf : customFields (run_op op s) = customFields s).
  { destruct (run_op_debounced_shape op s Hop) as [ms ->].
    rewrite customFields_changeEffect, customFields_scheduleSave. reflexivity. }
  split; [|split; [|exact Hcf]].
  - destruct op; try discriminate; cbn [op_items];
      unfold updateQuantity, updateLocation, updateSKU, updateTitle;
      rewrite map_map; apply map_ext; intros it;
      repeat match goal with
             | |- context [if ?b then _ else _] => destruct b
             end; reflexivity.
  - destruct op; try discriminate; cbn [op_items];
      unfold updateQuantity, updateLocation, updateSKU, updateTitle;
      rewrite map_map; apply map_ext; intros it;
      repeat match goal with
             | |- context [if negb ?b then _ else _] => destruct b; cbn [negb]
             | |- context [if jstring_eqb ?a ?b then _ else _] => destruct (jstring_eqb a b)
             end; try reflexivity;
      cbn [with_variants it_variants]; rewrite map_map; apply map_ext; intros v;
      destruct (jstring_eqb (v_id v) variantId); reflexivity.
Qed.

Lemma inline_edits_keep_structure_witness :
  is_debounced (OpUpdateQuantity (js "i1") (js "v1") 9) = true /\
  map it_id (items (run_op (OpUpdateQuantity (js "i1") (js "v1") 9) loaded_app))
  = map it_id (items loaded_app).
Proof.
  assert (H : is_debounced (OpUpdateQuantity (js "i1") (js "v1") 9) = true) by reflexivity.
  split; [exact H|].
  destruct (inline_edits_keep_structure _ loaded_app H) as [Hi _]. exact Hi.
Defined.

(** * The local cache *)

Lemma storageKey_injective (a b : jstring) :
  truthy a = true -> truthy b = true ->
  storageKey (Some a) = storageKey (Some b) -> a = b.
Proof.
  unfold storageKey. intros Ha Hb. rewrite Ha, Hb. apply app_inv_head.
Qed.

Lemma writeCache_env c its cfs s :
  remoteTable (env (writeCache c its cfs s)) = remoteTable (env s) /\
  toasts (env (writeCache c its cfs s)) = toasts (env s) /\
  clock (env (writeCache c its cfs s)) = clock (env s) /\
  storageFails (env (writeCache c its cfs s)) = storageFails (env s) /\
  nextHandle (env (writeCache c its cfs s)) = nextHandle (env s) /\
  editingItem (writeCache c its cfs s) = editingItem s /\
  isSaving (writeCache c its cfs s) = isSaving s.
Proof.
  unfold writeCache. destruct (negb (has_user (r_user c))); [repeat split|].
  destruct (storageFails (env s)) eqn:E; repeat split; exact E.
Qed.

Lemma cached_data_writeCache c its cfs s :
  has_user (r_user c) = true -> storageFails (env s) = false ->
  cached_data c (writeCache c its cfs s) = Some (its, cfs).
Proof.
  intros Hu Hok. unfold cached_data, readCache, writeCache. rewrite Hu, Hok.
  cbn. rewrite lookup_insert_eq. reflexivity.
Qed.

(** X14.  For a signed-in user whose storage accepts the write, [readCache]
    after [writeCache] returns what was written, and the entry of any other
    user is as before.  When the storage refuses the write, the previous
    entry stays; and without a user nothing is written and nothing is
    read. *)
Theorem cache_round_trip (c : Render) (nextItems : list InventoryItem)
    (nextFields : list CustomFieldDefinition) (s : App) :
  has_user (r_user c) = true ->
  (storageFails (env s) = false ->
   cached_data c (writeCache c nextItems nextFields s) = Some (nextItems, nextFields) /\
   forall c' a b,
     r_user c = Some a -> r_user c' = Some b -> truthy b = true -> a <> b ->
     cached_data c' (writeCache c nextItems nextFields s) = cached_data c' s) /\
  (storageFails (env s) = true ->
   cached_data c (writeCache c nextItems nextFields s) = cached_data c s) /\
  (forall guest, has_user (r_user guest) = false ->
                 writeCache guest nextItems nextFields s = s /\
                 cached_data guest s = None).
Proof.
  intros Hu. unfold cached_data. split; [|split].
  - intros Hok. unfold readCache, writeCache. rewrite Hu, Hok. cbn [negb].
    split.
    + cbn. rewrite lookup_insert_eq. reflexivity.
    + intros c' a b Ha Hb Htb Hab.
      assert (Hub : has_user (r_user c') = true) by (rewrite Hb; exact Htb).
      rewrite Hub. cbn. rewrite lookup_insert_ne; [reflexivity|].
      rewrite Ha, Hb. intros Hk. apply Hab.
      apply (storageKey_injective a b); [|exact Htb|exact Hk].
      rewrite Ha in Hu. exact Hu.
  - intros Hfail. unfold writeCache. rewrite Hu, Hfail. reflexivity.
  - intros guest Hg. unfold writeCache, readCache. rewrite Hg. split; reflexivity.
Qed.

Lemma cache_round_trip_witness :
  has_user (r_user (render loaded_app)) = true /\
  storageFails (env loaded_app) = false /\
  cached_data (render loaded_app) (writeCache (render loaded_app) [comma_item] [] loaded_app)
  = Some ([comma_item], []).
Proof.
  assert (H1 : has_user (r_user (render loaded_app)) = true) by reflexivity.
  assert (H2 : storageFails (env loaded_app) = false) by reflexivity.
  split; [exact H1|]. split; [exact H2|].
  destruct (cache_round_trip (render loaded_app) [comma_item] [] loaded_app H1) as (H & _).
  apply (H H2).
Defined.

(** * The remote store *)

(** X15.  What [saveInventoryData] stores is what [loadInventoryData]
    returns afterwards for that user, whatever the table held; the rows of
    the other users are untouched; a load for a user without a row returns
    the empty inventory; and a failed save leaves the table as it was. *)
Theorem save_load_round_trip (now : nat) (userId : jstring)
    (inventory : list InventoryItem) (fields : list CustomFieldDefinition)
    (tbl : gmap jstring Row) :
  saveInventoryData now RemoteOk userId inventory fields tbl
  = (None, <[userId := mkRow inventory fields now]> tbl) /\
  loadInventoryData RemoteOk userId
    (snd (saveInventoryData now RemoteOk userId inventory fields tbl))
  = inr (mkInventoryData inventory fields (Some now)) /\
  (forall other, other <> userId ->
     snd (saveInventoryData now RemoteOk userId inventory fields tbl) !! other = tbl !! other) /\
  (tbl !! userId = None ->
   loadInventoryData RemoteOk userId tbl = inr (mkInventoryData [] [] None)) /\
  (forall message,
     saveInventoryData now (RemoteError message) userId inventory fields tbl
     = (Some message, tbl)).
Proof.
  assert (Hsave : saveInventoryData now RemoteOk userId inventory fields tbl
                  = (None, <[userId := mkRow inventory fields now]> tbl)).
  { unfold saveInventoryData, request, upsert. destruct (tbl !! userId); reflexivity. }
  split; [exact Hsave|]. rewrite Hsave. cbn [snd]. split; [|split; [|split]].
  - unfold loadInventoryData. rewrite lookup_insert_eq. reflexivity.
  - intros other Hne. apply lookup_insert_ne. congruence.
  - intros Hnone. unfold loadInventoryData. rewrite Hnone. reflexivity.
  - reflexivity.
Qed.

(** * Loading *)

Lemma ensureUserRow_ok (now : nat) (userId : jstring) (tbl : gmap jstring Row) :
  ensureUserRow now RemoteOk userId tbl
  = (None, match tbl !! userId with
           | Some _ => tbl
           | None => <[userId := mkRow [] [] now]> tbl
           end).
Proof.
  unfold ensureUserRow, request, upsert. destruct (tbl !! userId); reflexivity.
Qed.

Lemma ensured_lookup (now : nat) (userId : jstring) (tbl : gmap jstring Row) :
  (match tbl !! userId with
   | Some _ => tbl
   | None => <[userId := mkRow [] [] now]> tbl
   end : gmap jstring Row) !! userId
  = Some (default (mkRow [] [] now) (tbl !! userId)).
Proof.
  destruct (tbl !! userId) eqn:E; [exact E|]. apply lookup_insert_eq.
Qed.

Lemma load_remote_wins_fields (c : Render) (userId : jstring) (s : App) :
  items (loadUserData c userId RemoteOk RemoteOk s)
  = row_inventory (default (mkRow [] [] (clock (env s))) (remoteTable (env s) !! userId)) /\
  customFields (loadUserData c userId RemoteOk RemoteOk s)
  = row_custom_fields (default (mkRow [] [] (clock (env s))) (remoteTable (env s) !! userId)) /\
  hasLoadedRef (loadUserData c userId RemoteOk RemoteOk s) = true.
Proof.
  unfold loadUserData.
  set (s1 := match readCache c s with
             | Some cached =>
                 set_customFields (cache_custom_fields cached)
                   (set_items (fun _ => cache_inventory cached) s)
             | None => s
             end).
  assert (Henv : env s1 = env s) by (unfold s1; destruct (readCache c s); reflexivity).
  rewrite Henv, ensureUserRow_ok.
  unfold loadInventoryData. rewrite ensured_lookup.
  set (row := default (mkRow [] [] (clock (env s))) (remoteTable (env s) !! userId)).
  cbn [data_inventory data_custom_fields].
  match goal with
  | |- context [writeCache c ?a ?b ?x] =>
      destruct (writeCache_view c a b x) as (_ & Wi & Wc & _);
      set (s4 := writeCache c a b x) in *
  end.
  change (items s4 = row_inventory row /\ customFields s4 = row_custom_fields row /\
          true = true).
  rewrite Wi, Wc. repeat split.
Qed.

(** X16.  A load in which both requests succeed ends with the contents of
    the user's remote row in memory (the empty inventory when the row had to
    be created), whatever the cache held: the remote store wins.  The load
    flag is set, the dirty flag cleared, no save request is issued, and for
    a callback created with the user signed in and a working storage the
    cache now holds the same contents. *)
Theorem load_remote_wins (c : Render) (userId : jstring) (s : App) :
  items (loadUserData c userId RemoteOk RemoteOk s)
  = row_inventory (default (mkRow [] [] (clock (env s))) (remoteTable (env s) !! userId)) /\
  customFields (loadUserData c userId RemoteOk RemoteOk s)
  = row_custom_fields (default (mkRow [] [] (clock (env s))) (remoteTable (env s) !! userId)) /\
  hasLoadedRef (loadUserData c userId RemoteOk RemoteOk s) = true /\
  dirtyRef (loadUserData c userId RemoteOk RemoteOk s) = false /\
  remoteTable (env (loadUserData c userId RemoteOk RemoteOk s)) !! userId
  = Some (default (mkRow [] [] (clock (env s))) (remoteTable (env s) !! userId)) /\
  remoteCalls (env (loadUserData c userId RemoteOk RemoteOk s)) = remoteCalls (env s) /\
  (has_user (r_user c) = true -> storageFails (env s) = false ->
   cached_data c (loadUserData c userId RemoteOk RemoteOk s)
   = Some (items (loadUserData c userId RemoteOk RemoteOk s),
           customFields (loadUserData c userId RemoteOk RemoteOk s))).
Proof.
  unfold loadUserData.
  set (s1 := match readCache c s with
             | Some cached =>
                 set_customFields (cache_custom_fields cached)
                   (set_items (fun _ => cache_inventory cached) s)
             | None => s
             end).
  assert (Henv : env s1 = env s) by (unfold s1; destruct (readCache c s); reflexivity).
  rewrite Henv, ensureUserRow_ok.
  unfold loadInventoryData. rewrite ensured_lookup.
  set (row := default (mkRow [] [] (clock (env s))) (remoteTable (env s) !! userId)).
  cbn [data_inventory data_custom_fields].
  match goal with
  | |- context [writeCache c ?a ?b ?x] => set (base := x)
  end.
  assert (Hbase : items base = row_inventory row /\
                  customFields base = row_custom_fields row /\
                  remoteCalls (env base) = remoteCalls (env s) /\
                  storageFails (env base) = storageFails (env s) /\
                  remoteTable (env base) !! userId = Some row).
  { unfold base. cbn. rewrite Henv. repeat split. apply ensured_lookup. }
  destruct Hbase as (Bi & Bc & Br & Bf & Bt).
  destruct (writeCache_view c (row_inventory row) (row_custom_fields row) base)
    as (_ & Wi & Wc & _ & _ & _ & _ & Wr).
  destruct (writeCache_env c (row_inventory row) (row_custom_fields row) base)
    as (Wt & _).
  set (s4 := writeCache c (row_inventory row) (row_custom_fields row) base) in *.
  change (items s4 = row_inventory row /\
          customFields s4 = row_custom_fields row /\
          true = true /\ false = false /\
          remoteTable (env s4) !! userId = Some row /\
          remoteCalls (env s4) = remoteCalls (env s) /\
          (has_user (r_user c) = true -> storageFails (env s) = false ->
           cached_data c s4 = Some (items s4, customFields s4))).
  rewrite Wi, Wc, Wr, Wt, Bi, Bc, Br, Bt. repeat split.
  intros Hu Hok. unfold s4. apply cached_data_writeCache; [exact Hu|].
  rewrite Bf. exact Hok.
Qed.

(** The run on a stale cache: the remote row replaces what the cache held,
    in memory and in the cache. *)
Example load_remote_wins_run :
  cached_data (render stale_cache_app) stale_cache_app = Some ([comma_item], []) /\
  items (loadUserData (render stale_cache_app) (js "u1") RemoteOk RemoteOk stale_cache_app)
  = [sample_item] /\
  cached_data (render stale_cache_app)
    (loadUserData (render stale_cache_app) (js "u1") RemoteOk RemoteOk stale_cache_app)
  = Some ([sample_item], []).
Proof. vm_compute. repeat split. Qed.

Lemma loadUserData_view c userId ensured loaded s :
  user (loadUserData c userId ensured loaded s) = user s /\
  saveTimerRef (loadUserData c userId ensured loaded s) = saveTimerRef s /\
  timers (env (loadUserData c userId ensured loaded s)) = timers (env s) /\
  remoteCalls (env (loadUserData c userId ensured loaded s)) = remoteCalls (env s).
Proof.
  unfold loadUserData.
  set (s1 := match readCache c s with
             | Some cached =>
                 set_customFields (cache_custom_fields cached)
                   (set_items (fun _ => cache_inventory cached) s)
             | None => s
             end).
  assert (H1 : user s1 = user s /\ saveTimerRef s1 = saveTimerRef s /\ env s1 = env s)
    by (unfold s1; destruct (readCache c s); repeat split).
  destruct H1 as (Hu & Hr & He).
  destruct (ensureUserRow _ ensured userId _) as [[err|] tbl].
  - cbn. rewrite Hu, Hr, He. repeat split.
  - destruct (loadInventoryData loaded userId tbl) as [err|remote].
    + cbn. rewrite Hu, Hr, He. repeat split.
    + match goal with
      | |- context [writeCache c ?a ?b ?x] =>
          destruct (writeCache_view c a b x) as (Wu & _ & _ & _ & _ & Wr & Wt & Wc);
          set (s4 := writeCache c a b x) in *
      end.
      change (user s4 = user s /\ saveTimerRef s4 = saveTimerRef s /\
              timers (env s4) = timers (env s) /\
              remoteCalls (env s4) = remoteCalls (env s)).
      rewrite Wu, Wr, Wt, Wc. cbn. rewrite Hu, Hr, He. repeat split.
Qed.

(** X17.  When either request of a load fails, the load flag and the dirty
    flag are as before, one destructive "load failed" toast is raised, the
    cache and the list of save requests are untouched, and memory holds the
    cached inventory if there was one.  If the load had not completed
    before, nothing that follows is saved: no event issues a save request
    or sets the flag. *)
Theorem load_failure_stays_unloaded (c : Render) (userId : jstring)
    (ensured loaded : RemoteOutcome) (s : App) :
  (exists message, ensured = RemoteError message) \/
  (exists message, loaded = RemoteError message) ->
  hasLoadedRef (loadUserData c userId ensured loaded s) = hasLoadedRef s /\
  dirtyRef (loadUserData c userId ensured loaded s) = dirtyRef s /\
  toasts (env (loadUserData c userId ensured loaded s))
  = toasts (env s) ++ [mkToast LoadFailed Destructive] /\
  remoteCalls (env (loadUserData c userId ensured loaded s)) = remoteCalls (env s) /\
  localStorage (env (loadUserData c userId ensured loaded s)) = localStorage (env s) /\
  items (loadUserData c userId ensured loaded s)
  = match cached_data c s with
    | Some cached => fst cached
    | None => items s
    end /\
  (hasLoadedRef s = false ->
   forall evs,
     hasLoadedRef (run_events evs (loadUserData c userId ensured loaded s)) = false /\
     remoteCalls (env (run_events evs (loadUserData c userId ensured loaded s)))
     = remoteCalls (env s)).
Proof.
  intros Hfail.
  assert (Hmain :
    hasLoadedRef (loadUserData c userId ensured loaded s) = hasLoadedRef s /\
    dirtyRef (loadUserData c userId ensured loaded s) = dirtyRef s /\
    toasts (env (loadUserData c userId ensured loaded s))
    = toasts (env s) ++ [mkToast LoadFailed Destructive] /\
    remoteCalls (env (loadUserData c userId ensured loaded s)) = remoteCalls (env s) /\
    localStorage (env (loadUserData c userId ensured loaded s)) = localStorage (env s) /\
    items (loadUserData c userId ensured loaded s)
    = match cached_data c s with
      | Some cached => fst cached
      | None => items s
      end).
  { unfold loadUserData, cached_data.
    set (s1 := match readCache c s with
               | Some cached =>
                   set_customFields (cache_custom_fields cached)
                     (set_items (fun _ => cache_inventory cached) s)
               | None => s
               end).
    assert (H1 : hasLoadedRef s1 = hasLoadedRef s /\ dirtyRef s1 = dirtyRef s /\
                 env s1 = env s /\
                 items s1 = match option_map
                                    (fun snapshot => (cache_inventory snapshot,
                                                      cache_custom_fields snapshot))
                                    (readCache c s) with
                            | Some cached => fst cached
                            | None => items s
                            end)
      by (unfold s1; destruct (readCache c s); repeat split).
    destruct H1 as (Hl & Hd & He & Hi).
    unfold ensureUserRow, request.
    destruct ensured as [|m1].
    - destruct Hfail as [[m Hm]|[m ->]]; [discriminate|].
      destruct (upsert _ _ _ _) as [[err|] tbl];
        cbn; rewrite Hl, Hd, He, Hi; repeat split.
    - cbn. rewrite Hl, Hd, He, Hi. repeat split. }
  destruct Hmain as (Hl & Hd & Ht & Hr & Hc & Hi).
  repeat (split; [assumption|]).
  intros Hnot evs.
  assert (Hnot' : hasLoadedRef (loadUserData c userId ensured loaded s) = false)
    by (rewrite Hl; exact Hnot).
  pose proof (sched_view_run_events evs _ Hnot') as Hv.
  unfold sched_view in Hv. inversion Hv as [[V1 V2 V3 V4 V5]].
  rewrite V1, V4. split; assumption.
Qed.

Lemma load_failure_stays_unloaded_witness :
  ((exists message, RemoteOk = RemoteError message) \/
   (exists message, RemoteError (js "offline") = RemoteError message)) /\
  hasLoadedRef (loadUserData (render stale_cache_app) (js "u1") RemoteOk
                  (RemoteError (js "offline")) stale_cache_app) = false /\
  items (loadUserData (render stale_cache_app) (js "u1") RemoteOk
           (RemoteError (js "offline")) stale_cache_app) = [comma_item].
Proof.
  assert (H : (exists message, RemoteOk = RemoteError message) \/
              (exists message, RemoteError (js "offline") = RemoteError message)).
  { right. exists (js "offline"). reflexivity. }
  split; [exact H|].
  destruct (load_failure_stays_unloaded (render stale_cache_app) (js "u1") RemoteOk
              (RemoteError (js "offline")) stale_cache_app H)
    as (Hl & _ & _ & _ & _ & Hi & _).
  split; [exact Hl|]. rewrite Hi. vm_compute. reflexivity.
Defined.

(** X18.  A successful load is followed by a save of what was loaded: the
    render after the load runs the change effect, which now passes its
    guard, writes the cache and arms the debounce timer; when that timer
    expires, one request goes out that carries the items and custom fields
    just loaded. *)
Theorem load_then_resave (c : Render) (userId : jstring) (s : App) :
  user s = Some userId -> truthy userId = true -> timers_wf s ->
  armed userId (changeEffect (loadUserData c userId RemoteOk RemoteOk s)) /\
  forall h outcome,
    saveTimerRef (changeEffect (loadUserData c userId RemoteOk RemoteOk s)) = Some h ->
    remoteCalls (env (fireTimer h outcome
                        (changeEffect (loadUserData c userId RemoteOk RemoteOk s))))
    = remoteCalls (env s)
      ++ [mkSaveCall userId
            (row_inventory (default (mkRow [] [] (clock (env s)))
                                    (remoteTable (env s) !! userId)))
            (row_custom_fields (default (mkRow [] [] (clock (env s)))
                                        (remoteTable (env s) !! userId)))].
Proof.
  intros Hu Ht Hwf.
  destruct (loadUserData_view c userId RemoteOk RemoteOk s) as (Lu & Lr & Lt & Lc).
  destruct (load_remote_wins_fields c userId s) as (Li & Lf & Ll).
  assert (Hwf' : timers_wf (loadUserData c userId RemoteOk RemoteOk s)).
  { intros h cb. rewrite Lt, Lr. apply Hwf. }
  assert (Hu' : user (loadUserData c userId RemoteOk RemoteOk s) = Some userId)
    by (rewrite Lu; exact Hu).
  destruct (changeEffect_loaded userId _ Hu' Ht Ll Hwf') as (Ha & Ei & Ec & Er).
  split; [exact Ha|].
  intros h outcome Hh.
  destruct (fireTimer_armed userId _ h outcome Ha Ht Hh) as (F & _).
  rewrite F, Er, Lc, Ei, Ec, Li, Lf. reflexivity.
Qed.

Lemma load_then_resave_witness :
  user stale_cache_app = Some (js "u1") /\ truthy (js "u1") = true /\
  timers_wf stale_cache_app /\
  remoteCalls (env (fireTimer 1%positive RemoteOk
                      (changeEffect (loadUserData (render stale_cache_app) (js "u1")
                                       RemoteOk RemoteOk stale_cache_app))))
  = [mkSaveCall (js "u1") [sample_item] []].
Proof.
  assert (Hwf : timers_wf stale_cache_app) by (intros h cb []).
  split; [reflexivity|]. split; [reflexivity|]. split; [exact Hwf|].
  destruct (load_then_resave (render stale_cache_app) (js "u1") stale_cache_app
              eq_refl eq_refl Hwf) as (_ & Hfire).
  rewrite (Hfire 1%positive RemoteOk); [|vm_compute; reflexivity].
  vm_compute. reflexivity.
Defined.

(** * Saving *)

Lemma saveNow_not_dirty c outcome s :
  dirtyRef s = false -> saveNow c outcome s = s.
Proof.
  intros Hd. unfold saveNow, saveNow_begin.
  destruct (r_user c) as [uid|]; [|reflexivity].
  destruct (negb (truthy uid) || negb (hasLoadedRef s)); [reflexivity|].
  rewrite Hd. reflexivity.
Qed.

(** X19.  A save that succeeds settles the state: the request carries the
    snapshot of the render that created the callback, the user's remote row
    then holds exactly that snapshot, the dirty flag and the saving
    indicator are cleared, the pending debounce timer is forgotten, items,
    custom fields, cache and toasts are untouched, and until the next edit
    every further [saveNow] (a timer or a page-hide flush) does nothing. *)
Theorem save_success_settles (c : Render) (uid : jstring) (s : App) :
  r_user c = Some uid -> truthy uid = true ->
  hasLoadedRef s = true -> dirtyRef s = true ->
  remoteCalls (env (saveNow c RemoteOk s))
  = remoteCalls (env s) ++ [mkSaveCall uid (r_items c) (r_customFields c)] /\
  remoteTable (env (saveNow c RemoteOk s)) !! uid
  = Some (mkRow (r_items c) (r_customFields c) (clock (env s))) /\
  (forall other, other <> uid ->
     remoteTable (env (saveNow c RemoteOk s)) !! other = remoteTable (env s) !! other) /\
  dirtyRef (saveNow c RemoteOk s) = false /\
  isSaving (saveNow c RemoteOk s) = false /\
  saveTimerRef (saveNow c RemoteOk s) = None /\
  items (saveNow c RemoteOk s) = items s /\
  customFields (saveNow c RemoteOk s) = customFields s /\
  localStorage (env (saveNow c RemoteOk s)) = localStorage (env s) /\
  toasts (env (saveNow c RemoteOk s)) = toasts (env s) /\
  (forall c' outcome,
     saveNow c' outcome (saveNow c RemoteOk s) = saveNow c RemoteOk s).
Proof.
  intros Hu Ht Hl Hd.
  assert (Hmain :
    remoteCalls (env (saveNow c RemoteOk s))
    = remoteCalls (env s) ++ [mkSaveCall uid (r_items c) (r_customFields c)] /\
    remoteTable (env (saveNow c RemoteOk s))
    = <[uid := mkRow (r_items c) (r_customFields c) (clock (env s))]> (remoteTable (env s)) /\
    dirtyRef (saveNow c RemoteOk s) = false /\
    isSaving (saveNow c RemoteOk s) = false /\
    saveTimerRef (saveNow c RemoteOk s) = None /\
    items (saveNow c RemoteOk s) = items s /\
    customFields (saveNow c RemoteOk s) = customFields s /\
    localStorage (env (saveNow c RemoteOk s)) = localStorage (env s) /\
    toasts (env (saveNow c RemoteOk s)) = toasts (env s)).
  { unfold saveNow. rewrite (saveNow_begin_issues c s uid Hu Ht Hl Hd).
    destruct s as [u its cfs ed sv ld dr tr [ts nh ls sf rt rc tt ck]].
    cbn in Hl, Hd. subst ld dr.
    unfold deliver, saveInventoryData, request, upsert.
    destruct tr as [h|]; cbn; destruct (rt !! uid); cbn; repeat split. }
  destruct Hmain as (Hc & Htbl & Hdirty & Hsv & Htr & Hi & Hf & Hls & Htt).
  split; [exact Hc|].
  split; [rewrite Htbl; apply lookup_insert_eq|].
  split; [intros other Ho; rewrite Htbl; apply lookup_insert_ne; congruence|].
  repeat (split; [assumption|]).
  intros c' outcome. apply saveNow_not_dirty, Hdirty.
Qed.

Lemma save_success_settles_witness :
  r_user (render dirty_app) = Some (js "u1") /\ truthy (js "u1") = true /\
  hasLoadedRef dirty_app = true /\ dirtyRef dirty_app = true /\
  remoteTable (env (saveNow (render dirty_app) RemoteOk dirty_app)) !! js "u1"
  = Some (mkRow [sample_item] [] (clock (env dirty_app))) /\
  dirtyRef (saveNow (render dirty_app) RemoteOk dirty_app) = false.
Proof.
  do 4 (split; [reflexivity|]).
  destruct (save_success_settles (render dirty_app) (js "u1") dirty_app
              eq_refl eq_refl eq_refl eq_refl) as (_ & Htbl & _ & Hd & _).
  split; [exact Htbl | exact Hd].
Defined.

(** ** The immediate save of a key mutation *)

Lemma fold_toast_view raised s :
  fold_left (fun acc t => toast t acc) raised s
  = mkApp (user s) (items s) (customFields s) (editingItem s) (isSaving s)
          (hasLoadedRef s) (dirtyRef s) (saveTimerRef s)
          (mkEnv (timers (env s)) (nextHandle (env s)) (localStorage (env s))
                 (storageFails (env s)) (remoteTable (env s)) (remoteCalls (env s))
                 (toasts (env s) ++ raised) (clock (env s))).
Proof.
  revert s. induction raised as [|t r IH]; intros s.
  - destruct s as [u its cfs ed sv ld dr tr [ts nh ls sf rt rc tt ck]].
    cbn. rewrite app_nil_r. reflexivity.
  - cbn [fold_left]. rewrite IH.
    destruct s as [u its cfs ed sv ld dr tr [ts nh ls sf rt rc tt ck]].
    cbn. rewrite <- app_assoc. reflexivity.
Qed.

(** What a key mutation leaves in place before its timeout is set: only the
    items, the custom fields, the edited item and the toasts may differ. *)
Lemma key_handler_shape k s :
  key_applies k s = true ->
  exists its cfs ed tts,
    key_handler k s
    = saveSoon (render s) (key_reason k)
        (mkApp (user s) its cfs ed (isSaving s) (hasLoadedRef s) (dirtyRef s)
               (saveTimerRef s)
               (mkEnv (timers (env s)) (nextHandle (env s)) (localStorage (env s))
                      (storageFails (env s)) (remoteTable (env s)) (remoteCalls (env s))
                      tts (clock (env s)))).
Proof.
  intros Hk.
  destruct k; cbn [key_handler key_reason].
  - unfold handleAddItem. destruct s as [u its cfs ed sv ld dr tr [ts nh ls sf rt rc tt ck]].
    cbn. do 4 eexists. reflexivity.
  - unfold handleEditItem, key_applies in *.
    destruct s as [u its cfs ed sv ld dr tr [ts nh ls sf rt rc tt ck]].
    cbn in *. destruct ed as [e|]; [|discriminate].
    cbn. do 4 eexists. reflexivity.
  - unfold handleDeleteItem. destruct s as [u its cfs ed sv ld dr tr [ts nh ls sf rt rc tt ck]].
    cbn. do 4 eexists. reflexivity.
  - unfold handleAddVariant. destruct s as [u its cfs ed sv ld dr tr [ts nh ls sf rt rc tt ck]].
    cbn. do 4 eexists. reflexivity.
  - unfold handleDeleteVariant. rewrite fold_toast_view.
    destruct s as [u its cfs ed sv ld dr tr [ts nh ls sf rt rc tt ck]].
    cbn. do 4 eexists. reflexivity.
  - unfold handleCSVImport. destruct s as [u its cfs ed sv ld dr tr [ts nh ls sf rt rc tt ck]].
    cbn. do 4 eexists. reflexivity.
  - unfold handleUpdateFields. destruct s as [u its cfs ed sv ld dr tr [ts nh ls sf rt rc tt ck]].
    cbn. do 4 eexists. reflexivity.
Qed.

Lemma succ_eqb_false (h : positive) : Pos.eqb (Pos.succ h) h = false.
Proof. apply Pos.eqb_neq. lia. Qed.

(** Setters applied to setters are reduced innermost first, so that the
    state is not copied once per field at each level. *)
Ltac reduce_setters :=
  cbv beta iota zeta delta
    [clearTimeout toast set_saveTimerRef set_env set_isSaving set_dirtyRef set_items
     set_customFields set_editingItem
     user items customFields editingItem isSaving hasLoadedRef dirtyRef saveTimerRef env
     timers nextHandle localStorage storageFails remoteTable remoteCalls toasts clock].

(** The timeout of a key mutation expires after the change effect has run. *)
Lemma immediate_after c reason uid its cfs ed sv dr nh ls sf rt rc tt ck :
  r_user c = Some uid -> truthy uid = true ->
  let mid := mkApp (Some uid) its cfs ed sv true dr None
                   (mkEnv [] nh ls sf rt rc tt ck) in
  timer_lookup nh (timers (env (changeEffect (saveSoon c reason mid))))
  = Some (mkCallback c reason 0) /\
  exists ls',
    fireTimer nh RemoteOk (changeEffect (saveSoon c reason mid))
    = mkApp (Some uid) its cfs ed false true false None
            (mkEnv [] (Pos.succ (Pos.succ nh)) ls' sf
                   (<[uid := mkRow (r_items c) (r_customFields c) ck]> rt)
                   (rc ++ [mkSaveCall uid (r_items c) (r_customFields c)]) tt ck).
Proof.
  intros Hc Ht mid.
  unfold changeEffect.
  assert (Ea : saveSoon c reason mid
               = mkApp (Some uid) its cfs ed sv true dr None
                       (mkEnv [(nh, mkCallback c reason 0)] (Pos.succ nh) ls sf rt rc tt ck))
    by reflexivity.
  rewrite Ea. clear Ea. cbn [user has_user hasLoadedRef negb orb items customFields].
  rewrite Ht. cbn [negb orb].
  match goal with
  | |- context [writeCache ?r ?a ?b ?x] =>
      destruct (writeCache_view r a b x) as (Wu & Wi & Wc & Wl & Wd & Wr & Wt & Wrc);
      destruct (writeCache_env r a b x) as (Vt & Vtt & Vck & Vsf & Vnh & Ved & Vsv);
      remember (writeCache r a b x) as w eqn:Ew; clear Ew
  end.
  destruct w as [u' its' cfs' ed' sv' ld' dr' tr' [ts' nh' ls' sf' rt' rc' tt' ck']].
  cbn in Wu, Wi, Wc, Wl, Wd, Wr, Wt, Wrc, Vt, Vtt, Vck, Vsf, Vnh, Ved, Vsv.
  subst.
  unfold scheduleSave, render. cbn [r_user has_user user hasLoadedRef negb orb].
  rewrite Ht. cbn.
  rewrite Pos.eqb_refl. split; [reflexivity|].
  exists ls'.
  unfold fireTimer. cbn. rewrite Pos.eqb_refl.
  reduce_setters. cbn [List.filter fst negb app].
  rewrite Pos.eqb_refl, succ_eqb_false. cbn [negb cb_closure].
  unfold saveNow, saveNow_begin. rewrite Hc, Ht.
  cbn [hasLoadedRef dirtyRef saveTimerRef negb orb].
  unfold deliver, saveInventoryData, request, upsert, saveNow_end.
  reduce_setters. cbn [List.filter fst negb call_user call_inventory call_custom_fields].
  rewrite Pos.eqb_refl. cbn [negb].
  destruct (rt !! uid); reflexivity.
Qed.

(** The timeout of a key mutation expires before the change effect runs. *)
Lemma immediate_before c reason outcome uid its cfs ed sv dr nh ls sf rt rc tt ck :
  r_user c = Some uid -> truthy uid = true ->
  let mid := mkApp (Some uid) its cfs ed sv true dr None
                   (mkEnv [] nh ls sf rt rc tt ck) in
  items (fireTimer nh outcome (saveSoon c reason mid)) = its /\
  customFields (fireTimer nh outcome (saveSoon c reason mid)) = cfs /\
  remoteCalls (env (fireTimer nh outcome (saveSoon c reason mid)))
  = rc ++ (if dr then [mkSaveCall uid (r_items c) (r_customFields c)] else []).
Proof.
  intros Hc Ht mid.
  assert (Ea : saveSoon c reason mid
               = mkApp (Some uid) its cfs ed sv true dr None
                       (mkEnv [(nh, mkCallback c reason 0)] (Pos.succ nh) ls sf rt rc tt ck))
    by reflexivity.
  rewrite Ea. clear Ea mid.
  unfold fireTimer. cbn [env timers timer_lookup]. rewrite Pos.eqb_refl.
  reduce_setters. cbn [List.filter fst negb cb_closure]. rewrite Pos.eqb_refl. cbn [negb].
  unfold saveNow, saveNow_begin. rewrite Hc, Ht.
  cbn [hasLoadedRef dirtyRef saveTimerRef negb orb].
  destruct dr; cbn [negb]; [|cbn; rewrite app_nil_r; repeat split].
  unfold deliver, saveInventoryData, request, upsert, saveNow_end.
  reduce_setters. cbn [call_user call_inventory call_custom_fields].
  destruct outcome; [destruct (rt !! uid)|]; reduce_setters; repeat split.
Qed.

Lemma passive_events_settled evs s :
  dirtyRef s = false -> timers (env s) = [] ->
  forallb is_passive evs = true -> run_events evs s = s.
Proof.
  intros Hd Ht. unfold run_events.
  induction evs as [|ev r IH]; [reflexivity|].
  cbn [forallb fold_left]. intros Hp. apply andb_prop in Hp. destruct Hp as [Hev Hr].
  destruct ev; try discriminate; cbn [run_event].
  - unfold fireTimer. rewrite Ht. cbn [timer_lookup]. apply IH, Hr.
  - unfold flushNow. rewrite saveNow_not_dirty by exact Hd. apply IH, Hr.
Qed.

(** X20.  The immediate save of a key mutation (add, edit or delete an
    item, add or delete a variant, import, change of the custom fields)
    sends the data from before the mutation.  On a loaded, signed-in state
    with no timer pending, the handler's zero-delay timeout calls the
    [saveNow] of the render in which the handler was created.  When it
    expires after the change effect of the next render has run, it issues one
    request carrying the old items and custom fields, the remote row then
    holds that old snapshot while memory holds the mutation, the debounce
    timer armed by the change effect is cancelled and the dirty flag is
    cleared, so that no later timer expiry or flush sends the mutation.
    When it expires before the change effect, it sends the same old
    snapshot if the state was dirty and nothing otherwise. *)
Theorem immediate_save_sends_old_snapshot (k : KeyMutation) (uid : jstring) (s : App) :
  user s = Some uid -> truthy uid = true -> hasLoadedRef s = true ->
  timers (env s) = [] -> saveTimerRef s = None -> key_applies k s = true ->
  timer_lookup (nextHandle (env s)) (timers (env (changeEffect (key_handler k s))))
  = Some (mkCallback (render s) (key_reason k) 0) /\
  remoteCalls (env (fireTimer (nextHandle (env s)) RemoteOk
                      (changeEffect (key_handler k s))))
  = remoteCalls (env s) ++ [mkSaveCall uid (items s) (customFields s)] /\
  remoteTable (env (fireTimer (nextHandle (env s)) RemoteOk
                      (changeEffect (key_handler k s)))) !! uid
  = Some (mkRow (items s) (customFields s) (clock (env s))) /\
  items (fireTimer (nextHandle (env s)) RemoteOk (changeEffect (key_handler k s)))
  = items (key_handler k s) /\
  customFields (fireTimer (nextHandle (env s)) RemoteOk (changeEffect (key_handler k s)))
  = customFields (key_handler k s) /\
  dirtyRef (fireTimer (nextHandle (env s)) RemoteOk (changeEffect (key_handler k s)))
  = false /\
  timers (env (fireTimer (nextHandle (env s)) RemoteOk (changeEffect (key_handler k s))))
  = [] /\
  (forall evs, forallb is_passive evs = true ->
     run_events evs (fireTimer (nextHandle (env s)) RemoteOk
                       (changeEffect (key_handler k s)))
     = fireTimer (nextHandle (env s)) RemoteOk (changeEffect (key_handler k s))) /\
  (forall outcome,
     items (fireTimer (nextHandle (env s)) outcome (key_handler k s))
     = items (key_handler k s) /\
     remoteCalls (env (fireTimer (nextHandle (env s)) outcome (key_handler k s)))
     = remoteCalls (env s)
       ++ (if dirtyRef s then [mkSaveCall uid (items s) (customFields s)] else [])).
Proof.
  intros Hu Ht Hl Hts Htr Hk.
  destruct (key_handler_shape k s Hk) as (its' & cfs' & ed' & tts & E).
  rewrite E. clear E Hk.
  destruct s as [u its cfs ed sv ld dr tr [ts nh ls sf rt rc tt ck]].
  cbn in Hu, Hl, Hts, Htr. subst u ld ts tr.
  unfold render.
  cbn [user items customFields editingItem isSaving hasLoadedRef dirtyRef saveTimerRef env
       timers nextHandle localStorage storageFails remoteTable remoteCalls toasts clock].
  pose proof (immediate_after (mkRender (Some uid) its cfs) (key_reason k) uid
                its' cfs' ed' sv dr nh ls sf rt rc tts ck eq_refl Ht) as HA.
  cbv zeta in HA. destruct HA as (HA1 & ls' & HA2).
  pose proof (fun outcome =>
                immediate_before (mkRender (Some uid) its cfs) (key_reason k) outcome uid
                  its' cfs' ed' sv dr nh ls sf rt rc tts ck eq_refl Ht) as HB.
  cbv zeta in HB.
  rewrite HA2.
  split; [exact HA1|].
  split; [reflexivity|].
  split; [cbn; apply lookup_insert_eq|].
  split; [reflexivity|].
  split; [reflexivity|].
  split; [reflexivity|].
  split; [reflexivity|].
  split; [intros evs Hp; apply passive_events_settled; [reflexivity|reflexivity|exact Hp]|].
  intros outcome. destruct (HB outcome) as (B1 & _ & B3).
  split; [rewrite B1; reflexivity | exact B3].
Qed.

Lemma immediate_save_sends_old_snapshot_witness :
  user loaded_app = Some (js "u1") /\ truthy (js "u1") = true /\
  hasLoadedRef loaded_app = true /\ timers (env loaded_app) = [] /\
  saveTimerRef loaded_app = None /\
  key_applies (KeyDeleteItem (js "i1")) loaded_app = true /\
  remoteCalls (env (fireTimer (nextHandle (env loaded_app)) RemoteOk
                      (changeEffect (key_handler (KeyDeleteItem (js "i1")) loaded_app))))
  = [mkSaveCall (js "u1") [sample_item] []] /\
  items (fireTimer (nextHandle (env loaded_app)) RemoteOk
           (changeEffect (key_handler (KeyDeleteItem (js "i1")) loaded_app))) = [].
Proof.
  do 6 (split; [reflexivity|]).
  destruct (immediate_save_sends_old_snapshot (KeyDeleteItem (js "i1")) (js "u1") loaded_app
              eq_refl eq_refl eq_refl eq_refl eq_refl eq_refl)
    as (_ & Hc & _ & Hi & _).
  split; [exact Hc|]. rewrite Hi. vm_compute. reflexivity.
Defined.

(** ** An edit while a save request is in flight *)

Lemma passive_events_clean evs : forall s,
  dirtyRef s = false -> forallb is_passive evs = true ->
  dirtyRef (run_events evs s) = false /\
  items (run_events evs s) = items s /\
  customFields (run_events evs s) = customFields s /\
  remoteCalls (env (run_events evs s)) = remoteCalls (env s) /\
  remoteTable (env (run_events evs s)) = remoteTable (env s).
Proof.
  unfold run_events.
  induction evs as [|ev r IH]; intros s Hd Hp; [cbn; repeat split; exact Hd|].
  cbn [forallb] in Hp. apply andb_prop in Hp. destruct Hp as [Hev Hr].
  cbn [fold_left].
  assert (Hstep : dirtyRef (run_event ev s) = false /\
                  items (run_event ev s) = items s /\
                  customFields (run_event ev s) = customFields s /\
                  remoteCalls (env (run_event ev s)) = remoteCalls (env s) /\
                  remoteTable (env (run_event ev s)) = remoteTable (env s)).
  { destruct ev; try discriminate; cbn [run_event].
    - unfold fireTimer. destruct (timer_lookup h (timers (env s))) as [cb|].
      + rewrite saveNow_not_dirty by exact Hd. repeat split. exact Hd.
      + repeat split. exact Hd.
    - unfold flushNow. rewrite saveNow_not_dirty by exact Hd. repeat split. exact Hd. }
  destruct Hstep as (Sd & Si & Sc & Sr & St).
  destruct (IH (run_event ev s) Sd Hr) as (Id & Ii & Ic & Ir & It).
  rewrite Ii, Ic, Ir, It, Si, Sc, Sr, St. repeat split. exact Id.
Qed.

Lemma saveNow_begin_view c s s1 call :
  saveNow_begin c s = (s1, Some call) -> timers_wf s ->
  user s1 = user s /\ items s1 = items s /\ customFields s1 = customFields s /\
  hasLoadedRef s1 = true /\ saveTimerRef s1 = None /\ timers (env s1) = [] /\
  remoteCalls (env s1) = remoteCalls (env s) ++ [call] /\
  remoteTable (env s1) = remoteTable (env s).
Proof.
  intros Hb Hwf.
  destruct (saveNow_begin_inv c s s1 call Hb) as (uid & Hu & Ht & Hl & Hd & Hcall).
  rewrite (saveNow_begin_issues c s uid Hu Ht Hl Hd) in Hb.
  pose proof (timers_wf_cleared s Hwf) as Hc.
  inversion Hb as [[Hs1 Hcall']]. clear Hb.
  destruct s as [u its cfs ed sv ld dr tr [ts nh ls sf rt rc tt ck]].
  cbn in Hl, Hd, Hc. subst ld dr.
  destruct tr as [h|]; cbn in Hc; reduce_setters; rewrite Hc; repeat split.
Qed.

(** X21.  An inline edit made while a save request is in flight is not
    sent.  [saveNow] has issued its request; before the answer arrives a
    debounced edit runs: memory and cache get the edit and the debounce
    timer is armed.  When the request then succeeds, the continuation of
    [saveNow] clears the dirty flag.  The pending timer is still the one of
    the edit, but when it expires, and at every later timer expiry or
    flush, [saveNow] finds the flag cleared: the only request ever issued
    is the one from before the edit, while memory keeps the edit. *)
Theorem edit_during_save_not_sent (c : Render) (s s1 : App) (call : SaveCall) (op : Op)
    (uid : jstring) :
  saveNow_begin c s = (s1, Some call) ->
  user s = Some uid -> truthy uid = true -> timers_wf s ->
  is_debounced op = true ->
  deliver RemoteOk call (run_op op s1)
  = (None, snd (deliver RemoteOk call (run_op op s1))) /\
  items (saveNow_end None (snd (deliver RemoteOk call (run_op op s1))))
  = op_items op (items s) /\
  dirtyRef (saveNow_end None (snd (deliver RemoteOk call (run_op op s1)))) = false /\
  (exists h,
     saveTimerRef (saveNow_end None (snd (deliver RemoteOk call (run_op op s1)))) = Some h /\
     timers (env (saveNow_end None (snd (deliver RemoteOk call (run_op op s1)))))
     = [(h, mkCallback (render (run_op op s1)) Debounced 300)]) /\
  forall evs, forallb is_passive evs = true ->
    remoteCalls (env (run_events evs
                        (saveNow_end None (snd (deliver RemoteOk call (run_op op s1))))))
    = remoteCalls (env s) ++ [call] /\
    items (run_events evs
             (saveNow_end None (snd (deliver RemoteOk call (run_op op s1)))))
    = op_items op (items s).
Proof.
  intros Hb Hu Ht Hwf Hop.
  destruct (saveNow_begin_view c s s1 call Hb Hwf)
    as (Vu & Vi & Vc & Vl & Vr & Vt & Vrc & Vtb).
  assert (Hwf1 : timers_wf s1) by (intros h cb Hin; rewrite Vt in Hin; destruct Hin).
  assert (Hu1 : user s1 = Some uid) by (rewrite Vu; exact Hu).
  destruct (run_op_debounced op s1 uid Hop Hu1 Ht Vl Hwf1) as (Ha & Ri & Rc & Rr).
  destruct Ha as (_ & _ & _ & h & Ah & Atm).
  set (s2 := run_op op s1) in *.
  assert (Hdel : deliver RemoteOk call s2
                 = (None, mkApp (user s2) (items s2) (customFields s2) (editingItem s2)
                                (isSaving s2) (hasLoadedRef s2) (dirtyRef s2)
                                (saveTimerRef s2)
                                (mkEnv (timers (env s2)) (nextHandle (env s2))
                                       (localStorage (env s2)) (storageFails (env s2))
                                       (<[call_user call :=
                                            mkRow (call_inventory call)
                                                  (call_custom_fields call)
                                                  (clock (env s2))]> (remoteTable (env s2)))
                                       (remoteCalls (env s2)) (toasts (env s2))
                                       (clock (env s2))))).
  { unfold deliver, saveInventoryData, request, upsert.
    destruct (remoteTable (env s2) !! call_user call); reflexivity. }
  rewrite Hdel. cbn [snd saveNow_end].
  unfold set_isSaving, set_dirtyRef.
  cbn [user items customFields editingItem isSaving hasLoadedRef dirtyRef saveTimerRef env
       timers remoteCalls].
  split; [reflexivity|].
  split; [rewrite Ri, Vi; reflexivity|].
  split; [reflexivity|].
  split; [exists h; split; [exact Ah | exact Atm]|].
  intros evs Hp.
  match goal with
  | |- context [run_events evs ?x] =>
      destruct (passive_events_clean evs x eq_refl Hp) as (_ & Pi & _ & Pr & _)
  end.
  rewrite Pi, Pr. cbn [items env remoteCalls].
  rewrite Rr, Vrc, Ri, Vi. split; reflexivity.
Qed.

Lemma edit_during_save_not_sent_witness :
  saveNow_begin (render dirty_app) dirty_app
  = (fst (saveNow_begin (render dirty_app) dirty_app),
     Some (mkSaveCall (js "u1") [sample_item] [])) /\
  user dirty_app = Some (js "u1") /\ truthy (js "u1") = true /\ timers_wf dirty_app /\
  is_debounced (OpUpdateTitle (js "i1") (js "Blouse")) = true /\
  remoteCalls (env (run_events [EvTimer 1%positive RemoteOk; EvFlush RemoteOk]
     (saveNow_end None
        (snd (deliver RemoteOk (mkSaveCall (js "u1") [sample_item] [])
                (run_op (OpUpdateTitle (js "i1") (js "Blouse"))
                   (fst (saveNow_begin (render dirty_app) dirty_app))))))))
  = [mkSaveCall (js "u1") [sample_item] []] /\
  map it_title (items (run_events [EvTimer 1%positive RemoteOk; EvFlush RemoteOk]
     (saveNow_end None
        (snd (deliver RemoteOk (mkSaveCall (js "u1") [sample_item] [])
                (run_op (OpUpdateTitle (js "i1") (js "Blouse"))
                   (fst (saveNow_begin (render dirty_app) dirty_app))))))))
  = [js "Blouse"].
Proof.
  assert (Hb : saveNow_begin (render dirty_app) dirty_app
               = (fst (saveNow_begin (render dirty_app) dirty_app),
                  Some (mkSaveCall (js "u1") [sample_item] []))) by reflexivity.
  assert (Hwf : timers_wf dirty_app) by (intros h cb []).
  split; [exact Hb|]. split; [reflexivity|]. split; [reflexivity|].
  split; [exact Hwf|]. split; [reflexivity|].
  destruct (edit_during_save_not_sent (render dirty_app) dirty_app _ _
              (OpUpdateTitle (js "i1") (js "Blouse")) (js "u1")
              Hb eq_refl eq_refl Hwf eq_refl) as (_ & _ & _ & _ & Hev).
  destruct (Hev [EvTimer 1%positive RemoteOk; EvFlush RemoteOk] eq_refl) as (Hr & Hi).
  split; [exact Hr|]. rewrite Hi. vm_compute. reflexivity.
Defined.

(** * Inline edits of the table *)

Lemma Forall_map_named (f : InventoryItem -> InventoryItem) (l : list InventoryItem) :
  (forall it, named_item it -> named_item (f it)) ->
  Forall named_item l -> Forall named_item (map f l).
Proof.
  intros Hf. induction 1 as [|it r Hit Hr IH]; cbn [map]; constructor.
  - apply Hf, Hit.
  - exact IH.
Qed.

Lemma non_blank_trim (x : jstring) : truthy (trim x) = true -> non_blank (trim x).
Proof. intros H. unfold non_blank. rewrite trim_idem. exact H. Qed.

Lemma Forall_map_same_size (f : SizeVariant -> SizeVariant) (l : list SizeVariant) :
  (forall v, v_size (f v) = v_size v) ->
  Forall (fun v => non_blank (v_size v)) l ->
  Forall (fun v => non_blank (v_size v)) (map f l).
Proof.
  intros Hf. induction 1 as [|v r Hv Hr IH]; cbn [map]; constructor.
  - rewrite Hf. exact Hv.
  - exact IH.
Qed.

(** X22.  The inline edits of the table cannot blank a name.  If every item
    has a SKU, a title and variant sizes that are not blank, this is still
    so after the SKU, title, location or quantity editor is closed and
    after a size is added inline, whatever was typed; and a typed text that
    is blank leaves the application exactly as it was: nothing changes and
    no save is scheduled. *)
Theorem inline_edits_keep_names (itemId variantId now temp : jstring) (s : App) :
  Forall named_item (items s) ->
  Forall named_item (items (finishEditingSKU itemId temp s)) /\
  Forall named_item (items (finishEditingTitle itemId temp s)) /\
  Forall named_item (items (finishAddingVariant now itemId temp s)) /\
  Forall named_item (items (finishEditingLocation itemId variantId temp s)) /\
  Forall named_item (items (finishEditingQuantity itemId variantId temp s)) /\
  (truthy (trim temp) = false ->
   finishEditingSKU itemId temp s = s /\
   finishEditingTitle itemId temp s = s /\
   finishAddingVariant now itemId temp s = s).
Proof.
  intros Hall.
  split; [|split; [|split; [|split; [|split]]]].
  - unfold finishEditingSKU. destruct (truthy (trim temp)) eqn:E; [|exact Hall].
    unfold handleUpdateSKU. rewrite items_scheduleSave. cbn [items set_items].
    unfold updateSKU. apply Forall_map_named; [|exact Hall].
    intros it (Hs & Ht & Hv). destruct (jstring_eqb (it_id it) itemId).
    + split; [apply non_blank_trim, E|]. split; [exact Ht|exact Hv].
    + split; [exact Hs|]. split; [exact Ht|exact Hv].
  - unfold finishEditingTitle. destruct (truthy (trim temp)) eqn:E; [|exact Hall].
    unfold handleUpdateTitle. rewrite items_scheduleSave. cbn [items set_items].
    unfold updateTitle. apply Forall_map_named; [|exact Hall].
    intros it (Hs & Ht & Hv). destruct (jstring_eqb (it_id it) itemId).
    + split; [exact Hs|]. split; [apply non_blank_trim, E|exact Hv].
    + split; [exact Hs|]. split; [exact Ht|exact Hv].
  - unfold finishAddingVariant. destruct (truthy (trim temp)) eqn:E; [|exact Hall].
    change (items (handleAddVariant now itemId (trim temp) s))
      with (addVariant now itemId (trim temp) (items s)).
    unfold addVariant. apply Forall_map_named; [|exact Hall].
    intros it (Hs & Ht & Hv). destruct (negb (jstring_eqb (it_id it) itemId)).
    + split; [exact Hs|]. split; [exact Ht|exact Hv].
    + split; [exact Hs|]. split; [exact Ht|].
      cbn [with_variants it_variants]. apply Forall_app. split; [exact Hv|].
      constructor; [|constructor]. cbn [v_size]. apply non_blank_trim, E.
  - unfold finishEditingLocation, handleUpdateLocation.
    rewrite items_scheduleSave. cbn [items set_items].
    unfold updateLocation. apply Forall_map_named; [|exact Hall].
    intros it (Hs & Ht & Hv). destruct (negb (jstring_eqb (it_id it) itemId)).
    + split; [exact Hs|]. split; [exact Ht|exact Hv].
    + split; [exact Hs|]. split; [exact Ht|].
      cbn [with_variants it_variants]. apply Forall_map_same_size; [|exact Hv].
      intros v. destruct (jstring_eqb (v_id v) variantId); reflexivity.
  - unfold finishEditingQuantity, handleUpdateQuantity.
    cbv zeta. rewrite items_scheduleSave. cbn [items set_items].
    unfold updateQuantity. apply Forall_map_named; [|exact Hall].
    intros it (Hs & Ht & Hv). destruct (negb (jstring_eqb (it_id it) itemId)).
    + split; [exact Hs|]. split; [exact Ht|exact Hv].
    + split; [exact Hs|]. split; [exact Ht|].
      cbn [with_variants it_variants]. apply Forall_map_same_size; [|exact Hv].
      intros v. destruct (jstring_eqb (v_id v) variantId); reflexivity.
  - intros E. unfold finishEditingSKU, finishEditingTitle, finishAddingVariant.
    rewrite E. repeat split.
Qed.

Lemma inline_edits_keep_names_witness :
  Forall named_item (items loaded_app) /\
  Forall named_item (items (finishEditingSKU (js "i1") (js " B7 ") loaded_app)) /\
  map it_sku (items (finishEditingSKU (js "i1") (js " B7 ") loaded_app)) = [js "B7"] /\
  finishEditingTitle (js "i1") (js "   ") loaded_app = loaded_app.
Proof.
  assert (H : Forall named_item (items loaded_app)).
  { constructor; [|constructor].
    split; [reflexivity|]. split; [reflexivity|].
    constructor; [reflexivity|constructor]. }
  split; [exact H|].
  destruct (inline_edits_keep_names (js "i1") (js "v1") (js "7") (js " B7 ") loaded_app H)
    as (Hs & _).
  split; [exact Hs|]. split; [vm_compute; reflexivity|].
  destruct (inline_edits_keep_names (js "i1") (js "v1") (js "7") (js "   ") loaded_app H)
    as (_ & _ & _ & _ & _ & Hb).
  destruct (Hb eq_refl) as (_ & Ht & _). exact Ht.
Defined.

(** * Statistics *)

Lemma sum_quantities_from (vs : list SizeVariant) (a : Z) :
  fold_left (fun sum v => sum + v_quantity v) vs a
  = a + fold_left (fun sum v => sum + v_quantity v) vs 0.
Proof.
  revert a. induction vs as [|v r IH]; intros a; cbn [fold_left].
  - lia.
  - rewrite (IH (a + v_quantity v)), (IH (0 + v_quantity v)). lia.
Qed.

Lemma filter_length_le {A : Type} (f : A -> bool) (l : list A) :
  (length (List.filter f l) <= length l)%nat.
Proof.
  induction l as [|x r IH]; cbn [List.filter length]; [lia|].
  destruct (f x); cbn [length]; lia.
Qed.

Lemma remove_dups_length_le (l : list jstring) :
  (length (remove_dups l) <= length l)%nat.
Proof.
  induction l as [|x r IH]; cbn [remove_dups length]; [lia|].
  destruct (decide_rel elem_of x r); cbn [length]; lia.
Qed.

Lemma remove_dups_nil (l : list jstring) : remove_dups l = [] -> l = [].
Proof.
  intros H. destruct l as [|x r]; [reflexivity|].
  assert (Hin : x ∈ remove_dups (x :: r)) by (apply elem_of_remove_dups; left).
  rewrite H in Hin. inversion Hin.
Qed.

Lemma low_stock_le_sum (vs : list SizeVariant) :
  Forall (fun v => 0 <= v_quantity v) vs ->
  Z.of_nat (length (List.filter (fun v => (0 <? v_quantity v) && (v_quantity v <? 10)) vs))
  <= fold_left (fun sum v => sum + v_quantity v) vs 0.
Proof.
  induction 1 as [|v r Hv Hr IH]; cbn [List.filter fold_left length]; [lia|].
  rewrite sum_quantities_from.
  destruct (Z.ltb_spec 0 (v_quantity v)); cbn [andb].
  - destruct (v_quantity v <? 10); cbn [length]; lia.
  - lia.
Qed.

Lemma allVariants_app (a b : list InventoryItem) :
  allVariants (a ++ b) = allVariants a ++ allVariants b.
Proof. unfold allVariants. apply flat_map_app. Qed.

Lemma sum_quantities_ge (vs : list SizeVariant) (a : Z) :
  Forall (fun v => 0 <= v_quantity v) vs ->
  a <= fold_left (fun sum v => sum + v_quantity v) vs a.
Proof.
  intros H. revert a. induction H as [|v r Hv Hr IH]; intros a; cbn [fold_left]; [lia|].
  specialize (IH (a + v_quantity v)). lia.
Qed.

Lemma running_sums_bounds (vs : list SizeVariant) :
  Forall (fun v => 0 <= v_quantity v) vs ->
  forall a,
    Forall (fun n => a <= n <= fold_left (fun sum v => sum + v_quantity v) vs a)
           (running_sums a vs) /\
    Forall (fun v => v_quantity v <= fold_left (fun sum v => sum + v_quantity v) vs a - a) vs.
Proof.
  induction 1 as [|v r Hv Hr IH]; intros a; cbn [running_sums fold_left].
  - split; constructor.
  - destruct (IH (a + v_quantity v)) as [IH1 IH2].
    pose proof (sum_quantities_ge r (a + v_quantity v) Hr) as Hge.
    split.
    + constructor; [lia|].
      eapply List.Forall_impl; [|exact IH1]. cbn. intros n Hn. lia.
    + constructor; [lia|].
      eapply List.Forall_impl; [|exact IH2]. cbn. intros w Hw. lia.
Qed.

(** Quantities that are not negative and add up to less than 2^53 are
    added without rounding. *)
Lemma exact_total_nonneg (inventory : list InventoryItem) :
  Forall (fun v => 0 <= v_quantity v) (allVariants inventory) ->
  totalQuantity (stats inventory) < 2 ^ 53 ->
  exact_total inventory.
Proof.
  intros Hnn Hlt. unfold stats in Hlt. cbn [totalQuantity] in Hlt.
  destruct (running_sums_bounds _ Hnn 0) as [Hsums Hqs].
  unfold exact_total, safe_integer. split.
  - rewrite List.Forall_forall in *. intros v Hin.
    specialize (Hnn v Hin). specialize (Hqs v Hin). cbn in Hqs.
    apply andb_true_intro. split; apply Z.ltb_lt; lia.
  - rewrite List.Forall_forall in *. intros n Hin.
    specialize (Hsums n Hin). cbn in Hsums.
    apply andb_true_intro. split; apply Z.ltb_lt; lia.
Qed.

(** X23.  The four figures of the dashboard are consistent with each other:
    the low-stock count and the location count never exceed the number of
    variants; the location count is zero exactly when no variant has a
    location; and the item count and the low-stock count of two inventories
    put together are the sums of theirs.  Where the source adds the
    quantities without rounding ([exact_total]: every quantity and every
    running sum is a safe integer, as they are when no quantity is negative
    and the total is below 2^53), the total quantity is at least the
    low-stock count when no quantity is negative, and the total quantity of
    two inventories put together is the sum of theirs. *)
Theorem stats_consistent (inventory more : list InventoryItem) :
  (lowStockItems (stats inventory) <= length (allVariants inventory))%nat /\
  (uniqueLocations (stats inventory) <= length (allVariants inventory))%nat /\
  (uniqueLocations (stats inventory) = 0%nat <->
   Forall (fun v => v_location v = []) (allVariants inventory)) /\
  totalItems (stats (inventory ++ more))
  = (totalItems (stats inventory) + totalItems (stats more))%nat /\
  lowStockItems (stats (inventory ++ more))
  = (lowStockItems (stats inventory) + lowStockItems (stats more))%nat /\
  (exact_total inventory ->
   Forall (fun v => 0 <= v_quantity v) (allVariants inventory) ->
   Z.of_nat (lowStockItems (stats inventory)) <= totalQuantity (stats inventory)) /\
  (exact_total inventory -> exact_total more -> exact_total (inventory ++ more) ->
   totalQuantity (stats (inventory ++ more))
   = totalQuantity (stats inventory) + totalQuantity (stats more)) /\
  (Forall (fun v => 0 <= v_quantity v) (allVariants inventory) ->
   totalQuantity (stats inventory) < 2 ^ 53 ->
   exact_total inventory).
Proof.
  split; [apply filter_length_le|].
  split.
  { unfold stats. cbn [uniqueLocations].
    etransitivity; [apply remove_dups_length_le|].
    etransitivity; [apply filter_length_le|]. rewrite length_map. lia. }
  split.
  { unfold stats. cbn [uniqueLocations]. split.
    - intros H0. apply length_zero_iff_nil, remove_dups_nil in H0.
      induction (allVariants inventory) as [|v r IH]; [constructor|].
      cbn [map List.filter] in H0.
      destruct (v_location v) as [|ch loc] eqn:E; cbn [truthy] in H0; [|discriminate].
      constructor; [exact E|apply IH, H0].
    - intros Hall.
      assert (E : List.filter truthy (map v_location (allVariants inventory)) = []).
      { induction Hall as [|v r Hv Hr IH]; cbn [map List.filter]; [reflexivity|].
        rewrite Hv. cbn [truthy]. exact IH. }
      rewrite E. reflexivity. }
  split; [unfold stats; cbn [totalItems]; apply length_app|].
  split.
  { unfold stats. cbn [lowStockItems].
    rewrite allVariants_app, List.filter_app. apply length_app. }
  split; [intros _; apply low_stock_le_sum|].
  split; [|apply exact_total_nonneg].
  intros _ _ _. unfold stats. cbn [totalQuantity].
  rewrite allVariants_app, fold_left_app.
  rewrite (sum_quantities_from (allVariants more)). reflexivity.
Qed.

Lemma stats_consistent_witness :
  exact_total [sample_item] /\ exact_total [comma_item] /\
  exact_total ([sample_item] ++ [comma_item]) /\
  Forall (fun v => 0 <= v_quantity v) (allVariants [sample_item]) /\
  stats ([sample_item] ++ [comma_item]) = mkStats 2 2 5 2 /\
  Z.of_nat (lowStockItems (stats [sample_item])) <= totalQuantity (stats [sample_item]) /\
  totalQuantity (stats ([sample_item] ++ [comma_item]))
  = totalQuantity (stats [sample_item]) + totalQuantity (stats [comma_item]).
Proof.
  assert (H1 : exact_total [sample_item]) by (split; repeat constructor).
  assert (H2 : exact_total [comma_item]) by (split; repeat constructor).
  assert (H3 : exact_total ([sample_item] ++ [comma_item])) by (split; repeat constructor).
  assert (H4 : Forall (fun v => 0 <= v_quantity v) (allVariants [sample_item])).
  { constructor; [|constructor]. cbn. lia. }
  split; [exact H1|]. split; [exact H2|]. split; [exact H3|]. split; [exact H4|].
  split; [vm_compute; reflexivity|].
  destruct (stats_consistent [sample_item] [comma_item])
    as (_ & _ & _ & _ & _ & Hlow & Hsum & _).
  split; [exact (Hlow H1 H4) | exact (Hsum H1 H2 H3)].
Defined.

(** * The first load after a sign-in *)

Lemma localStorage_scheduleSave c ms s :
  localStorage (env (scheduleSave c ms s)) = localStorage (env s).
Proof.
  unfold scheduleSave.
  destruct (negb (has_user (r_user c)) || negb (hasLoadedRef s)); [reflexivity|].
  cbn. destruct (saveTimerRef s); reflexivity.
Qed.

Lemma loadUserData_without_user c userId ensured loaded s :
  has_user (r_user c) = false ->
  loadUserData c userId ensured loaded s
  = match ensureUserRow (clock (env s)) ensured userId (remoteTable (env s)) with
    | (Some _, _) => toast (mkToast LoadFailed Destructive) s
    | (None, tbl) =>
        match loadInventoryData loaded userId tbl with
        | inl _ =>
            mkApp (user s) (items s) (customFields s) (editingItem s) (isSaving s)
                  (hasLoadedRef s) (dirtyRef s) (saveTimerRef s)
                  (mkEnv (timers (env s)) (nextHandle (env s)) (localStorage (env s))
                         (storageFails (env s)) tbl (remoteCalls (env s))
                         (toasts (env s) ++ [mkToast LoadFailed Destructive])
                         (clock (env s)))
        | inr remote =>
            mkApp (user s) (data_inventory remote) (data_custom_fields remote)
                  (editingItem s) (isSaving s) true false (saveTimerRef s)
                  (mkEnv (timers (env s)) (nextHandle (env s)) (localStorage (env s))
                         (storageFails (env s)) tbl (remoteCalls (env s))
                         (toasts (env s)) (clock (env s)))
        end
    end.
Proof.
  intros Hc. unfold loadUserData, readCache, writeCache. rewrite Hc. cbn [negb].
  destruct (ensureUserRow _ ensured userId _) as [[e|] tbl]; [reflexivity|].
  destruct (loadInventoryData loaded userId tbl); reflexivity.
Qed.

(** X24.  The load that the auth listener starts at a sign-in runs with the
    [readCache] and [writeCache] of the render before the sign-in, which has
    no user: it neither shows nor writes the cache.  The stored snapshots are
    as before; when a request fails, memory keeps what it had and the
    load flag stays cleared; when both succeed, the cache is written only by
    the change effect of the next render, after which it holds what was
    loaded. *)
Theorem first_sign_in_skips_cache (userId : jstring) (ensured loaded : RemoteOutcome)
    (s : App) :
  has_user (user s) = false ->
  user (loadUserData (render s) userId ensured loaded (handleSignedIn userId s))
  = Some userId /\
  localStorage (env (loadUserData (render s) userId ensured loaded
                       (handleSignedIn userId s)))
  = localStorage (env s) /\
  ((exists message, ensured = RemoteError message) \/
   (exists message, loaded = RemoteError message) ->
   items (loadUserData (render s) userId ensured loaded (handleSignedIn userId s))
   = items s /\
   customFields (loadUserData (render s) userId ensured loaded (handleSignedIn userId s))
   = customFields s /\
   hasLoadedRef (loadUserData (render s) userId ensured loaded (handleSignedIn userId s))
   = false) /\
  (ensured = RemoteOk -> loaded = RemoteOk ->
   truthy userId = true -> storageFails (env s) = false ->
   hasLoadedRef (loadUserData (render s) userId ensured loaded (handleSignedIn userId s))
   = true /\
   cached_data
     (render (loadUserData (render s) userId ensured loaded (handleSignedIn userId s)))
     (changeEffect
        (loadUserData (render s) userId ensured loaded (handleSignedIn userId s)))
   = Some (items (loadUserData (render s) userId ensured loaded
                    (handleSignedIn userId s)),
           customFields (loadUserData (render s) userId ensured loaded
                           (handleSignedIn userId s)))).
Proof.
  intros Hno.
  rewrite (loadUserData_without_user (render s) userId ensured loaded
             (handleSignedIn userId s) Hno).
  destruct s as [u its cfs ed sv ld dr tr [ts nh ls sf rt rc tt ck]].
  unfold handleSignedIn, set_hasLoadedRef, set_user.
  cbn [user items customFields editingItem isSaving hasLoadedRef dirtyRef saveTimerRef env
       timers nextHandle localStorage storageFails remoteTable remoteCalls toasts clock].
  unfold ensureUserRow, request, upsert, loadInventoryData. cbn [ignoreDuplicates].
  split; [|split; [|split]].
  - destruct ensured; [destruct (rt !! userId)|]; cbn;
      destruct loaded; cbn; try reflexivity;
      destruct (_ !! userId); reflexivity.
  - destruct ensured; [destruct (rt !! userId)|]; cbn;
      destruct loaded; cbn; try reflexivity;
      destruct (_ !! userId); reflexivity.
  - intros [[m ->]|[m ->]].
    + cbn. repeat split.
    + destruct ensured; [destruct (rt !! userId)|]; cbn; repeat split.
  - intros -> -> Ht Hsf. cbn in Hsf. subst sf.
    assert (E : exists row tbl,
               match rt !! userId with
               | Some _ => (None, rt)
               | None => (None, <[userId := mkRow [] [] ck]> rt)
               end = (@None jstring, tbl) /\ tbl !! userId = Some row).
    { destruct (rt !! userId) as [row|] eqn:Er.
      - exists row, rt. split; [reflexivity|exact Er].
      - exists (mkRow [] [] ck), (<[userId := mkRow [] [] ck]> rt).
        split; [reflexivity|apply lookup_insert_eq]. }
    destruct E as (row & tbl & -> & ->).
    cbn [data_inventory data_custom_fields].
    split; [reflexivity|].
    unfold changeEffect.
    cbn [user has_user hasLoadedRef items customFields].
    rewrite Ht. cbn [negb orb].
    unfold cached_data, readCache. rewrite localStorage_scheduleSave.
    unfold render, writeCache.
    cbn [r_user user has_user items customFields env storageFails].
    rewrite Ht. cbn [negb].
    cbn [set_env env localStorage]. rewrite lookup_insert_eq. reflexivity.
Qed.

Lemma first_sign_in_skips_cache_witness :
  has_user (user initial_app) = false /\
  localStorage (env (loadUserData (render initial_app) (js "u1") RemoteOk RemoteOk
                       (handleSignedIn (js "u1") initial_app)))
  = localStorage (env initial_app) /\
  cached_data
    (render (loadUserData (render initial_app) (js "u1") RemoteOk RemoteOk
               (handleSignedIn (js "u1") initial_app)))
    (changeEffect (loadUserData (render initial_app) (js "u1") RemoteOk RemoteOk
                     (handleSignedIn (js "u1") initial_app)))
  = Some ([], []).
Proof.
  split; [reflexivity|].
  destruct (first_sign_in_skips_cache (js "u1") RemoteOk RemoteOk initial_app eq_refl)
    as (_ & Hls & _ & Hok).
  split; [exact Hls|].
  destruct (Hok eq_refl eq_refl eq_refl eq_refl) as (_ & Hc).
  rewrite Hc. vm_compute. reflexivity.
Defined.

(** * A successful import *)

Lemma assign_ids_spec importId imported : forall index,
  map it_id (assign_ids importId index imported)
  = map importId (seq index (length imported)) /\
  map (fun it => mkFormData (it_sku it) (it_title it) (it_imageUrl it) (it_variants it)
                            (it_customFields it))
      (assign_ids importId index imported)
  = imported.
Proof.
  induction imported as [|d r IH]; intros index; cbn [assign_ids map length seq].
  - split; reflexivity.
  - destruct (IH (S index)) as [Hid Hdata]. rewrite Hid, Hdata.
    destruct d. split; reflexivity.
Qed.

(** X25.  An import that yields items appends them and merges nothing into
    what is there: the dialog closes without error and forgets the file, the
    items of before are kept, in order and unchanged, even those whose SKU
    is in the file, and after them comes one new item per item of the file,
    in the file's order, with the file's contents and the identifier made
    for its position; the custom fields are untouched, no save request is
    issued by the handler itself, and one success toast is raised. *)
Theorem import_appends (variantId importId : nat -> jstring) (text : jstring)
    (imported : list InventoryFormData) (d : Dialog) (s : App) :
  selectedFile d = Some text ->
  parseCSV variantId text = inr imported -> imported <> [] ->
  fst (handleImport variantId importId d s) = mkDialog None None false /\
  items (snd (handleImport variantId importId d s))
  = items s ++ assign_ids importId 0 imported /\
  map it_id (assign_ids importId 0 imported)
  = map importId (seq 0 (length imported)) /\
  map (fun it => mkFormData (it_sku it) (it_title it) (it_imageUrl it) (it_variants it)
                            (it_customFields it))
      (assign_ids importId 0 imported)
  = imported /\
  customFields (snd (handleImport variantId importId d s)) = customFields s /\
  remoteCalls (env (snd (handleImport variantId importId d s))) = remoteCalls (env s) /\
  toasts (env (snd (handleImport variantId importId d s)))
  = toasts (env s) ++ [mkToast ImportSucceeded DefaultToast].
Proof.
  intros Hfile Hparse Hne.
  unfold handleImport. rewrite Hfile, Hparse.
  destruct imported as [|d0 r]; [contradiction|].
  cbn [length Nat.eqb fst snd].
  destruct (assign_ids_spec importId (d0 :: r) 0) as [Hid Hdata].
  split; [reflexivity|].
  split; [reflexivity|].
  split; [exact Hid|].
  split; [exact Hdata|].
  repeat split.
Qed.

Lemma import_appends_witness :
  selectedFile (mkDialog (Some example_text) None true) = Some example_text /\
  parseCSV sample_id example_text
  = inr [mkFormData (js "A1") (js "Shirt") None
           [mkVariant (sample_id 0%nat) (js "M") true 10 (js "R1");
            mkVariant (sample_id 1%nat) (js "L") true 10 (js "R1");
            mkVariant (sample_id 2%nat) (js "XL") false 0 (js "R2")]
           None] /\
  map it_sku (items (snd (handleImport sample_id sample_id
                            (mkDialog (Some example_text) None true) loaded_app)))
  = [js "A1"; js "A1"].
Proof.
  assert (H : parseCSV sample_id example_text
              = inr [mkFormData (js "A1") (js "Shirt") None
                       [mkVariant (sample_id 0%nat) (js "M") true 10 (js "R1");
                        mkVariant (sample_id 1%nat) (js "L") true 10 (js "R1");
                        mkVariant (sample_id 2%nat) (js "XL") false 0 (js "R2")]
                       None]) by (vm_compute; reflexivity).
  split; [reflexivity|]. split; [exact H|].
  destruct (import_appends sample_id sample_id example_text _
              (mkDialog (Some example_text) None true) loaded_app eq_refl H)
    as (_ & Hi & _); [discriminate|].
  rewrite Hi. vm_compute. reflexivity.
Defined.
